(** * R3Stretcher: a shallow embedding of src/finer/R3Stretcher.cpp

    The development follows the source file function by function.  The
    definitions come first, the statements about them afterwards.

    Numeric conventions.
    - [double], [process_t] and [float] values are idealised as real
      numbers: arithmetic is exact, and where a caller-supplied value
      can make the IEEE result an infinity or a NaN (division by zero,
      logarithm of a non-positive number) the operation yields
      [NonFinite] in the [Result] monad.
    - [int] and [size_t] values are integers of [Z]; a conversion from
      [size_t] to [int] and arithmetic in [size_t] wrap around
      explicitly ([to_int], [to_size_t]).  Signed overflow is undefined
      in the source; signed arithmetic is written without wrap-around.
    - [std::vector] buffers are lists; an index outside the buffer is
      undefined behaviour in the source, reads as [0] here and a write
      there leaves the list alone; the statements keep the indices
      inside the buffers. *)

From Stdlib Require Import ZArith Reals Lra Lia List Bool String Classical_Prop.
From stdpp Require Import gmap list sorting.

Local Open Scope string_scope.
Local Open Scope Z_scope.

(** ** Results

    [Fin]: the call returns with this value.  [NonFinite]: a
    floating-point operation left the finite numbers.  [Thrown]: a
    container access throws ([at]) or is undefined.  [Pending]: a loop is
    still running after the frames supplied to it. *)

Inductive Result (A : Type) : Type :=
| Fin (a : A)
| NonFinite
| Thrown
| Pending.

Arguments Fin {A} a.
Arguments NonFinite {A}.
Arguments Thrown {A}.
Arguments Pending {A}.

Definition bind {A B : Type} (c : Result A) (k : A -> Result B) : Result B :=
  match c with
  | Fin a => k a
  | NonFinite => NonFinite
  | Thrown => Thrown
  | Pending => Pending
  end.

Notation "x <- c ;; k" := (bind c (fun x => k))
  (at level 100, c at next level, right associativity).

(** [x / y] in [double]. *)
Definition ddiv (x y : R) : Result R :=
  if Req_dec_T y 0 then NonFinite else Fin (x / y)%R.

(** [x == y] in [double]. *)
Definition Req_b (x y : R) : bool :=
  if Req_dec_T x y then true else false.

(** [log10(x)]. *)
Definition log10 (x : R) : Result R :=
  if Rlt_dec 0 x then Fin (Rlog 10 x) else NonFinite.

(** [pow(b, e)] for a positive base. *)
Definition pow (b e : R) : R := Rpower b e.

(** [round(x)]: to the nearest integer, halfway cases away from zero. *)
Definition round (x : R) : Z :=
  if Rle_dec 0 x then Zfloor (x + 0.5) else Zceil (x - 0.5).

(** Conversion to a 32-bit [int]. *)
Definition to_int (z : Z) : Z := (z + 2 ^ 31) mod 2 ^ 32 - 2 ^ 31.

(** Conversion to, and arithmetic in, a 64-bit [size_t]. *)
Definition to_size_t (z : Z) : Z := z mod 2 ^ 64.

(** ** Buffers indexed by [int] *)

Definition rd (l : list R) (i : Z) : R :=
  if i <? 0 then 0%R else nth (Z.to_nat i) l 0%R.

Definition wr (l : list R) (i : Z) (v : R) : list R :=
  if i <? 0 then l else <[Z.to_nat i := v]> l.

(** ** The log sink

    [m_log.log(level, message, values...)]: the numeric values are not
    kept. *)

Record LogEntry : Type := mkLogEntry {
  severity : Z;
  message : string
}.

(** ** Ring buffers *)

(** Modelled from the spec: [RingBuffer<float>] (src/common/RingBuffer.h is
    not part of the sources at hand).  Section 6 gives its contract: a
    sized capacity with read, write, peek, skip, zero(n), getSize,
    getReadSpace and getWriteSpace, and [resized] returning a copy with
    a new capacity that preserves the unread data.  A request larger
    than the space available is served up to that space. *)
Record RingBuffer : Type := mkRingBuffer {
  rb_size : Z;
  rb_data : list R
}.

Definition getSize (rb : RingBuffer) : Z := rb_size rb.

Definition getReadSpace (rb : RingBuffer) : Z := Z.of_nat (length (rb_data rb)).

Definition getWriteSpace (rb : RingBuffer) : Z := rb_size rb - getReadSpace rb.

Definition rb_write (src : list R) (n : Z) (rb : RingBuffer) : RingBuffer :=
  mkRingBuffer (rb_size rb)
    (rb_data rb ++ take (Z.to_nat (Z.min n (getWriteSpace rb))) src).

Definition rb_zero (n : Z) (rb : RingBuffer) : RingBuffer :=
  mkRingBuffer (rb_size rb)
    (rb_data rb ++ replicate (Z.to_nat (Z.min n (getWriteSpace rb))) 0%R).

Definition rb_skip (n : Z) (rb : RingBuffer) : RingBuffer :=
  mkRingBuffer (rb_size rb) (drop (Z.to_nat n) (rb_data rb)).

Definition rb_peek (n : Z) (rb : RingBuffer) : list R :=
  take (Z.to_nat n) (rb_data rb).

(** [read] returns the samples, their number and the buffer left. *)
Definition rb_read (n : Z) (rb : RingBuffer) : list R * Z * RingBuffer :=
  let got := take (Z.to_nat n) (rb_data rb) in
  (got, Z.of_nat (length got), rb_skip n rb).

Definition rb_resized (newSize : Z) (rb : RingBuffer) : RingBuffer :=
  mkRingBuffer newSize (rb_data rb).

(** ** Data model *)

Inductive ProcessMode : Type :=
| JustCreated
| Studying
| Processing
| Finished.

Definition ProcessMode_eqb (a b : ProcessMode) : bool :=
  match a, b with
  | JustCreated, JustCreated | Studying, Studying
  | Processing, Processing | Finished, Finished => true
  | _, _ => false
  end.

(** The option flags the engine tests.  The bit values live in the public
    header, which is not among the sources; the decoded flags are kept. *)
Record Options : Type := mkOptions {
  OptionProcessRealTime : bool;
  OptionFormantPreserved : bool;
  OptionPitchHighQuality : bool;
  OptionPitchHighConsistency : bool;
  OptionChannelsTogether : bool
}.

(** [Parameters]: the channel count is the length of [m_channelData]. *)
Record Parameters : Type := mkParameters {
  sampleRate : R;
  options : Options
}.

(** Modelled from the spec: the types of Guide.h (not among the sources).
    Section 3 gives the configuration: the longest FFT size, the
    classification FFT size and the per-band limits {fftSize, b0min,
    b1max}; the guidance fields are those R3Stretcher.cpp reads. *)
Record BandLimits : Type := mkBandLimits {
  bl_fftSize : Z;
  b0min : Z;
  b1max : Z
}.

Record Configuration : Type := mkConfiguration {
  longestFftSize : Z;
  classificationFftSize : Z;
  fftBandLimits : list BandLimits
}.

Record FftBand : Type := mkFftBand {
  fftSize : Z;
  band_f0 : R;
  band_f1 : R
}.

Record Range : Type := mkRange {
  present : bool;
  f0 : R;
  f1 : R
}.

Record Guidance : Type := mkGuidance {
  fftBands : list FftBand;
  kick : Range;
  preKick : Range
}.

(** Modelled from the spec: the segmenter's result (section 6). *)
Record Segmentation : Type := mkSegmentation {
  percussiveBelow : R;
  percussiveAbove : R;
  residualAbove : R
}.

(** [ChannelScaleData], one per channel and FFT size. *)
Record ChannelScaleData : Type := mkChannelScaleData {
  bufSize : Z;
  timeDomain : list R;
  real : list R;
  imag : list R;
  mag : list R;
  phase : list R;
  advancedPhase : list R;
  prevMag : list R;
  pendingKick : list R;
  accumulator : list R;
  accumulatorFill : Z
}.

Record ClassificationReadaheadData : Type := mkReadahead {
  ra_timeDomain : list R;
  ra_mag : list R;
  ra_phase : list R
}.

Record FormantData : Type := mkFormantData {
  fd_fftSize : Z;
  cepstra : list R;
  envelope : list R;
  spare : list R
}.

(** [ChannelData], one per channel.  [scales] is a [std::map] from FFT
    size to the channel's data at that size. *)
Record ChannelData : Type := mkChannelData {
  scales : gmap Z ChannelScaleData;
  readahead : ClassificationReadaheadData;
  haveReadahead : bool;
  classification : list Z;
  nextClassification : list Z;
  prevSegmentation : Segmentation;
  segmentation : Segmentation;
  nextSegmentation : Segmentation;
  guidance : Guidance;
  mixdown : list R;
  resampled : list R;
  inbuf : RingBuffer;
  outbuf : RingBuffer;
  formant : FormantData
}.

(** The engine.  [m_resampler] records whether the resampler exists;
    [m_keyFrameMap] is a [std::map<size_t, size_t>], kept as the list of
    its entries in ascending key order, the order in which it iterates. *)
Record R3Stretcher : Type := mkR3Stretcher {
  m_parameters : Parameters;
  m_log : list LogEntry;
  m_timeRatio : R;
  m_pitchScale : R;
  m_formantScale : R;
  m_guideConfiguration : Configuration;
  m_channelData : list ChannelData;
  m_resampler : bool;
  m_inhop : Z;
  m_prevInhop : Z;
  m_prevOuthop : Z;
  m_unityCount : Z;
  m_startSkip : Z;
  m_studyInputDuration : Z;
  m_suppliedInputDuration : Z;
  m_totalTargetDuration : Z;
  m_consumedInputDuration : Z;
  m_lastKeyFrameSurpassed : Z;
  m_totalOutputDuration : Z;
  m_keyFrameMap : list (Z * Z);
  m_mode : ProcessMode
}.

(** *** Field updates *)

Definition set_m_log (v : list LogEntry) (s : R3Stretcher) : R3Stretcher :=
  mkR3Stretcher (m_parameters s) v (m_timeRatio s) (m_pitchScale s)
    (m_formantScale s) (m_guideConfiguration s) (m_channelData s)
    (m_resampler s) (m_inhop s) (m_prevInhop s) (m_prevOuthop s)
    (m_unityCount s) (m_startSkip s) (m_studyInputDuration s)
    (m_suppliedInputDuration s) (m_totalTargetDuration s)
    (m_consumedInputDuration s) (m_lastKeyFrameSurpassed s)
    (m_totalOutputDuration s) (m_keyFrameMap s) (m_mode s).

Definition set_m_timeRatio (v : R) (s : R3Stretcher) : R3Stretcher :=
  mkR3Stretcher (m_parameters s) (m_log s) v (m_pitchScale s)
    (m_formantScale s) (m_guideConfiguration s) (m_channelData s)
    (m_resampler s) (m_inhop s) (m_prevInhop s) (m_prevOuthop s)
    (m_unityCount s) (m_startSkip s) (m_studyInputDuration s)
    (m_suppliedInputDuration s) (m_totalTargetDuration s)
    (m_consumedInputDuration s) (m_lastKeyFrameSurpassed s)
    (m_totalOutputDuration s) (m_keyFrameMap s) (m_mode s).

Definition set_m_channelData (v : list ChannelData) (s : R3Stretcher)
  : R3Stretcher :=
  mkR3Stretcher (m_parameters s) (m_log s) (m_timeRatio s) (m_pitchScale s)
    (m_formantScale s) (m_guideConfiguration s) v
    (m_resampler s) (m_inhop s) (m_prevInhop s) (m_prevOuthop s)
    (m_unityCount s) (m_startSkip s) (m_studyInputDuration s)
    (m_suppliedInputDuration s) (m_totalTargetDuration s)
    (m_consumedInputDuration s) (m_lastKeyFrameSurpassed s)
    (m_totalOutputDuration s) (m_keyFrameMap s) (m_mode s).

Definition set_m_resampler (v : bool) (s : R3Stretcher) : R3Stretcher :=
  mkR3Stretcher (m_parameters s) (m_log s) (m_timeRatio s) (m_pitchScale s)
    (m_formantScale s) (m_guideConfiguration s) (m_channelData s)
    v (m_inhop s) (m_prevInhop s) (m_prevOuthop s)
    (m_unityCount s) (m_startSkip s) (m_studyInputDuration s)
    (m_suppliedInputDuration s) (m_totalTargetDuration s)
    (m_consumedInputDuration s) (m_lastKeyFrameSurpassed s)
    (m_totalOutputDuration s) (m_keyFrameMap s) (m_mode s).

Definition set_m_inhop (v : Z) (s : R3Stretcher) : R3Stretcher :=
  mkR3Stretcher (m_parameters s) (m_log s) (m_timeRatio s) (m_pitchScale s)
    (m_formantScale s) (m_guideConfiguration s) (m_channelData s)
    (m_resampler s) v (m_prevInhop s) (m_prevOuthop s)
    (m_unityCount s) (m_startSkip s) (m_studyInputDuration s)
    (m_suppliedInputDuration s) (m_totalTargetDuration s)
    (m_consumedInputDuration s) (m_lastKeyFrameSurpassed s)
    (m_totalOutputDuration s) (m_keyFrameMap s) (m_mode s).

Definition set_prevHops (inhop outhop : Z) (s : R3Stretcher) : R3Stretcher :=
  mkR3Stretcher (m_parameters s) (m_log s) (m_timeRatio s) (m_pitchScale s)
    (m_formantScale s) (m_guideConfiguration s) (m_channelData s)
    (m_resampler s) (m_inhop s) inhop outhop
    (m_unityCount s) (m_startSkip s) (m_studyInputDuration s)
    (m_suppliedInputDuration s) (m_totalTargetDuration s)
    (m_consumedInputDuration s) (m_lastKeyFrameSurpassed s)
    (m_totalOutputDuration s) (m_keyFrameMap s) (m_mode s).

Definition set_m_startSkip (v : Z) (s : R3Stretcher) : R3Stretcher :=
  mkR3Stretcher (m_parameters s) (m_log s) (m_timeRatio s) (m_pitchScale s)
    (m_formantScale s) (m_guideConfiguration s) (m_channelData s)
    (m_resampler s) (m_inhop s) (m_prevInhop s) (m_prevOuthop s)
    (m_unityCount s) v (m_studyInputDuration s)
    (m_suppliedInputDuration s) (m_totalTargetDuration s)
    (m_consumedInputDuration s) (m_lastKeyFrameSurpassed s)
    (m_totalOutputDuration s) (m_keyFrameMap s) (m_mode s).

Definition set_m_totalTargetDuration (v : Z) (s : R3Stretcher)
  : R3Stretcher :=
  mkR3Stretcher (m_parameters s) (m_log s) (m_timeRatio s) (m_pitchScale s)
    (m_formantScale s) (m_guideConfiguration s) (m_channelData s)
    (m_resampler s) (m_inhop s) (m_prevInhop s) (m_prevOuthop s)
    (m_unityCount s) (m_startSkip s) (m_studyInputDuration s)
    (m_suppliedInputDuration s) v
    (m_consumedInputDuration s) (m_lastKeyFrameSurpassed s)
    (m_totalOutputDuration s) (m_keyFrameMap s) (m_mode s).

Definition set_m_consumedInputDuration (v : Z) (s : R3Stretcher)
  : R3Stretcher :=
  mkR3Stretcher (m_parameters s) (m_log s) (m_timeRatio s) (m_pitchScale s)
    (m_formantScale s) (m_guideConfiguration s) (m_channelData s)
    (m_resampler s) (m_inhop s) (m_prevInhop s) (m_prevOuthop s)
    (m_unityCount s) (m_startSkip s) (m_studyInputDuration s)
    (m_suppliedInputDuration s) (m_totalTargetDuration s)
    v (m_lastKeyFrameSurpassed s)
    (m_totalOutputDuration s) (m_keyFrameMap s) (m_mode s).

Definition set_m_lastKeyFrameSurpassed (v : Z) (s : R3Stretcher)
  : R3Stretcher :=
  mkR3Stretcher (m_parameters s) (m_log s) (m_timeRatio s) (m_pitchScale s)
    (m_formantScale s) (m_guideConfiguration s) (m_channelData s)
    (m_resampler s) (m_inhop s) (m_prevInhop s) (m_prevOuthop s)
    (m_unityCount s) (m_startSkip s) (m_studyInputDuration s)
    (m_suppliedInputDuration s) (m_totalTargetDuration s)
    (m_consumedInputDuration s) v
    (m_totalOutputDuration s) (m_keyFrameMap s) (m_mode s).

Definition set_m_totalOutputDuration (v : Z) (s : R3Stretcher)
  : R3Stretcher :=
  mkR3Stretcher (m_parameters s) (m_log s) (m_timeRatio s) (m_pitchScale s)
    (m_formantScale s) (m_guideConfiguration s) (m_channelData s)
    (m_resampler s) (m_inhop s) (m_prevInhop s) (m_prevOuthop s)
    (m_unityCount s) (m_startSkip s) (m_studyInputDuration s)
    (m_suppliedInputDuration s) (m_totalTargetDuration s)
    (m_consumedInputDuration s) (m_lastKeyFrameSurpassed s)
    v (m_keyFrameMap s) (m_mode s).

Definition set_m_mode (v : ProcessMode) (s : R3Stretcher) : R3Stretcher :=
  mkR3Stretcher (m_parameters s) (m_log s) (m_timeRatio s) (m_pitchScale s)
    (m_formantScale s) (m_guideConfiguration s) (m_channelData s)
    (m_resampler s) (m_inhop s) (m_prevInhop s) (m_prevOuthop s)
    (m_unityCount s) (m_startSkip s) (m_studyInputDuration s)
    (m_suppliedInputDuration s) (m_totalTargetDuration s)
    (m_consumedInputDuration s) (m_lastKeyFrameSurpassed s)
    (m_totalOutputDuration s) (m_keyFrameMap s) v.

Definition set_m_parameters (v : Parameters) (s : R3Stretcher) : R3Stretcher :=
  mkR3Stretcher v (m_log s) (m_timeRatio s) (m_pitchScale s)
    (m_formantScale s) (m_guideConfiguration s) (m_channelData s)
    (m_resampler s) (m_inhop s) (m_prevInhop s) (m_prevOuthop s)
    (m_unityCount s) (m_startSkip s) (m_studyInputDuration s)
    (m_suppliedInputDuration s) (m_totalTargetDuration s)
    (m_consumedInputDuration s) (m_lastKeyFrameSurpassed s)
    (m_totalOutputDuration s) (m_keyFrameMap s) (m_mode s).

Definition set_m_pitchScale (v : R) (s : R3Stretcher) : R3Stretcher :=
  mkR3Stretcher (m_parameters s) (m_log s) (m_timeRatio s) v
    (m_formantScale s) (m_guideConfiguration s) (m_channelData s)
    (m_resampler s) (m_inhop s) (m_prevInhop s) (m_prevOuthop s)
    (m_unityCount s) (m_startSkip s) (m_studyInputDuration s)
    (m_suppliedInputDuration s) (m_totalTargetDuration s)
    (m_consumedInputDuration s) (m_lastKeyFrameSurpassed s)
    (m_totalOutputDuration s) (m_keyFrameMap s) (m_mode s).

Definition set_m_formantScale (v : R) (s : R3Stretcher) : R3Stretcher :=
  mkR3Stretcher (m_parameters s) (m_log s) (m_timeRatio s) (m_pitchScale s)
    v (m_guideConfiguration s) (m_channelData s)
    (m_resampler s) (m_inhop s) (m_prevInhop s) (m_prevOuthop s)
    (m_unityCount s) (m_startSkip s) (m_studyInputDuration s)
    (m_suppliedInputDuration s) (m_totalTargetDuration s)
    (m_consumedInputDuration s) (m_lastKeyFrameSurpassed s)
    (m_totalOutputDuration s) (m_keyFrameMap s) (m_mode s).

Definition set_m_unityCount (v : Z) (s : R3Stretcher) : R3Stretcher :=
  mkR3Stretcher (m_parameters s) (m_log s) (m_timeRatio s) (m_pitchScale s)
    (m_formantScale s) (m_guideConfiguration s) (m_channelData s)
    (m_resampler s) (m_inhop s) (m_prevInhop s) (m_prevOuthop s)
    v (m_startSkip s) (m_studyInputDuration s)
    (m_suppliedInputDuration s) (m_totalTargetDuration s)
    (m_consumedInputDuration s) (m_lastKeyFrameSurpassed s)
    (m_totalOutputDuration s) (m_keyFrameMap s) (m_mode s).

Definition set_m_studyInputDuration (v : Z) (s : R3Stretcher)
  : R3Stretcher :=
  mkR3Stretcher (m_parameters s) (m_log s) (m_timeRatio s) (m_pitchScale s)
    (m_formantScale s) (m_guideConfiguration s) (m_channelData s)
    (m_resampler s) (m_inhop s) (m_prevInhop s) (m_prevOuthop s)
    (m_unityCount s) (m_startSkip s) v
    (m_suppliedInputDuration s) (m_totalTargetDuration s)
    (m_consumedInputDuration s) (m_lastKeyFrameSurpassed s)
    (m_totalOutputDuration s) (m_keyFrameMap s) (m_mode s).

Definition set_m_suppliedInputDuration (v : Z) (s : R3Stretcher)
  : R3Stretcher :=
  mkR3Stretcher (m_parameters s) (m_log s) (m_timeRatio s) (m_pitchScale s)
    (m_formantScale s) (m_guideConfiguration s) (m_channelData s)
    (m_resampler s) (m_inhop s) (m_prevInhop s) (m_prevOuthop s)
    (m_unityCount s) (m_startSkip s) (m_studyInputDuration s)
    v (m_totalTargetDuration s)
    (m_consumedInputDuration s) (m_lastKeyFrameSurpassed s)
    (m_totalOutputDuration s) (m_keyFrameMap s) (m_mode s).

Definition set_m_keyFrameMap (v : list (Z * Z)) (s : R3Stretcher)
  : R3Stretcher :=
  mkR3Stretcher (m_parameters s) (m_log s) (m_timeRatio s) (m_pitchScale s)
    (m_formantScale s) (m_guideConfiguration s) (m_channelData s)
    (m_resampler s) (m_inhop s) (m_prevInhop s) (m_prevOuthop s)
    (m_unityCount s) (m_startSkip s) (m_studyInputDuration s)
    (m_suppliedInputDuration s) (m_totalTargetDuration s)
    (m_consumedInputDuration s) (m_lastKeyFrameSurpassed s)
    (m_totalOutputDuration s) v (m_mode s).

(** [m_log.log(level, message, ...)]. *)
Definition log (level : Z) (msg : string) (s : R3Stretcher) : R3Stretcher :=
  set_m_log (m_log s ++ [mkLogEntry level msg]) s.

Definition isRealTime (s : R3Stretcher) : bool :=
  OptionProcessRealTime (options (m_parameters s)).

(** ** Hop scheduling *)

(** Modelled from the spec: [getEffectiveRatio] is defined in
    R3Stretcher.h, which is not among the sources.  Section 4.8 and the
    glossary define the effective ratio as the product of the time ratio
    and the pitch scale. *)
Definition getEffectiveRatio (s : R3Stretcher) : R :=
  (m_timeRatio s * m_pitchScale s)%R.

(** [R3Stretcher::calculateHop] (lines 265-305). *)
Definition calculateHop (s : R3Stretcher) : Result R3Stretcher :=
  let ratio := getEffectiveRatio s in
  proposedOuthop <-
    (if Rgt_dec ratio 1.5 then
       l <- log10 (ratio - 0.5) ;; Fin (pow 2 (8 + 2 * l))
     else if Rlt_dec ratio 1 then
       l <- log10 ratio ;; Fin (pow 2 (8 + 2 * l))
     else Fin 256%R) ;;
  let proposedOuthop :=
    if Rgt_dec proposedOuthop 512 then 512%R else proposedOuthop in
  let proposedOuthop :=
    if Rlt_dec proposedOuthop 128 then 128%R else proposedOuthop in
  let s := log 1 "calculateHop: ratio and proposed outhop" s in
  inhop <- ddiv proposedOuthop ratio ;;
  let '(s, inhop) :=
    if Rlt_dec inhop 1 then
      (log 0 "WARNING: Extreme ratio yields ideal inhop < 1, results may be suspect" s,
       1%R)
    else (s, inhop) in
  let '(s, inhop) :=
    if Rgt_dec inhop 1024 then
      (log 0 "WARNING: Extreme ratio yields ideal inhop > 1024, results may be suspect" s,
       1024%R)
    else (s, inhop) in
  let s := set_m_inhop (Zfloor inhop) s in
  Fin (log 1 "calculateHop: inhop and mean outhop" s).

(** The hop as section 4.1 words it, for an effective ratio [r]. *)
Definition clamp (lo hi x : R) : R := Rmax lo (Rmin hi x).

Definition proposed_outhop_spec (r : R) : R :=
  if Rle_dec 1 r then
    if Rle_dec r 1.5 then 256%R
    else Rpower 2 (8 + 2 * Rlog 10 (r - 0.5))
  else Rpower 2 (8 + 2 * Rlog 10 r).

Definition inhop_spec (r : R) : Z :=
  Zfloor (clamp 1 1024 (clamp 128 512 (proposed_outhop_spec r) / r)).

(** ** The key-frame map *)

(** [std::map::upper_bound]: the first entry whose key is greater than [k]. *)
Definition upper_bound (k : Z) (m : list (Z * Z)) : option (Z * Z) :=
  List.find (fun e => k <? fst e) m.

(** [R3Stretcher::updateRatioFromMap] (lines 307-386). *)
Definition updateRatioFromMap (s : R3Stretcher) : Result R3Stretcher :=
  match m_keyFrameMap s with
  | [] => Fin s
  | first :: _ =>
    if m_consumedInputDuration s =? 0 then
      ratio <- ddiv (IZR (snd first)) (IZR (fst first)) ;;
      let s := set_m_timeRatio ratio s in
      let s := log 1 "initial key-frame map entry " s in
      let s := log 1 "giving initial ratio " s in
      s <- calculateHop s ;;
      Fin (set_m_lastKeyFrameSurpassed 0 s)
    else
      match upper_bound (m_lastKeyFrameSurpassed s) (m_keyFrameMap s) with
      | None => Fin s
      | Some i0 =>
        if fst i0 <=? m_consumedInputDuration s then
          let s := log 1 "input duration surpasses pending key frame" s in
          let '(keyFrameAtInput, keyFrameAtOutput) :=
            match upper_bound (m_consumedInputDuration s) (m_keyFrameMap s) with
            | Some i1 => (fst i1, snd i1)
            | None => (m_studyInputDuration s, m_totalTargetDuration s)
            end in
          let s := log 1 "current input and output" s in
          let s := log 1 "next key frame input and output" s in
          sr <-
            (if fst i0 <? keyFrameAtInput then
               let toKeyFrameAtInput := to_size_t (keyFrameAtInput - fst i0) in
               let '(s, toKeyFrameAtOutput) :=
                 if snd i0 <? keyFrameAtOutput then
                   (s, to_size_t (keyFrameAtOutput - snd i0))
                 else
                   (log 1 "previous target key frame overruns next key frame (or total output duration)" s,
                    1) in
               let s := log 1 "diff to next key frame input and output" s in
               ratio <- ddiv (IZR toKeyFrameAtOutput) (IZR toKeyFrameAtInput) ;;
               Fin (s, ratio)
             else
               Fin (log 1 "source key frame overruns following key frame or total input duration" s,
                    1%R)) ;;
          let '(s, ratio) := sr in
          let s := log 1 "new ratio" s in
          let s := set_m_timeRatio ratio s in
          s <- calculateHop s ;;
          Fin (set_m_lastKeyFrameSurpassed (fst i0) s)
        else Fin s
      end
  end.

(** ** Construction *)

Definition zeros (n : Z) : list R := replicate (Z.to_nat n) 0%R.

(** Modelled from the spec: the constructors of [ChannelScaleData] and
    [ChannelData] are in R3Stretcher.h, which is not among the sources.
    Section 3 gives the buffer lengths: [fftSize] for the time-domain
    buffer, [fftSize/2 + 1] for the spectral ones, the longest FFT size
    for the accumulator; the engine starts from zeroed buffers, an empty
    readahead flag and empty rings. *)
Definition ChannelScaleData_new (fftSize longest : Z) : ChannelScaleData :=
  let bufSize := fftSize / 2 + 1 in
  mkChannelScaleData bufSize (zeros fftSize) (zeros bufSize) (zeros bufSize)
    (zeros bufSize) (zeros bufSize) (zeros bufSize) (zeros bufSize)
    (zeros bufSize) (zeros longest) 0.

Definition Segmentation_new : Segmentation := mkSegmentation 0 0 0.

Definition Guidance_new : Guidance :=
  mkGuidance [] (mkRange false 0 0) (mkRange false 0 0).

Definition ChannelData_new (config : Configuration)
    (inRingBufferSize outRingBufferSize : Z) : ChannelData :=
  let longest := longestFftSize config in
  let classify := classificationFftSize config in
  mkChannelData
    (list_to_map
       (map (fun band => (bl_fftSize band,
                          ChannelScaleData_new (bl_fftSize band) longest))
            (fftBandLimits config)))
    (mkReadahead (zeros classify) (zeros (classify / 2 + 1))
       (zeros (classify / 2 + 1)))
    false [] [] Segmentation_new Segmentation_new Segmentation_new
    Guidance_new (zeros longest) (zeros (longest * 16))
    (mkRingBuffer inRingBufferSize []) (mkRingBuffer outRingBufferSize [])
    (mkFormantData longest (zeros longest) (zeros (longest / 2 + 1))
       (zeros (longest / 2 + 1))).

(** [R3Stretcher::createResampler] (lines 233-263): the resampler itself
    is a collaborator; the engine records that it exists. *)
Definition createResampler (s : R3Stretcher) : R3Stretcher :=
  set_m_resampler true s.

(** The members as the constructor initialises them (lines 36-55, 77-101),
    for the configuration [config] the guide reports. *)
Definition R3Stretcher_init (parameters : Parameters) (config : Configuration)
    (channels : nat) (initialTimeRatio initialPitchScale : R) : R3Stretcher :=
  let inRingBufferSize := longestFftSize config * 2 in
  let outRingBufferSize := longestFftSize config * 16 in
  mkR3Stretcher parameters
    [mkLogEntry 1 "R3Stretcher::R3Stretcher: rate, options";
     mkLogEntry 1 "R3Stretcher::R3Stretcher: initial time ratio and pitch scale"]
    initialTimeRatio initialPitchScale 0%R config
    (replicate channels
       (ChannelData_new config inRingBufferSize outRingBufferSize))
    false 1 1 1 0 0 0 0 0 0 0 0 [] JustCreated.


(** A configuration with the FFT sizes 1024, 2048 and 4096, used where a
    statement is tried on a concrete engine. *)
Definition example_configuration : Configuration :=
  mkConfiguration 4096 2048
    [mkBandLimits 1024 0 512; mkBandLimits 2048 0 1024;
     mkBandLimits 4096 0 2048].

(** The same layout in miniature (FFT sizes 8, 16 and 32), for the
    statements that are tried by running the engine. *)
Definition small_configuration : Configuration :=
  mkConfiguration 32 16
    [mkBandLimits 8 0 4; mkBandLimits 16 0 8; mkBandLimits 32 0 16].

Definition offline_options : Options :=
  mkOptions false false false false false.

Definition example_parameters : Parameters :=
  mkParameters 48000 offline_options.

(** ** Engines on which the statements are tried *)


(** ** Per-channel field updates *)

Definition set_mag (v : list R) (sc : ChannelScaleData) : ChannelScaleData :=
  mkChannelScaleData (bufSize sc) (timeDomain sc) (real sc) (imag sc) v
    (phase sc) (advancedPhase sc) (prevMag sc) (pendingKick sc)
    (accumulator sc) (accumulatorFill sc).

Definition set_phase (v : list R) (sc : ChannelScaleData) : ChannelScaleData :=
  mkChannelScaleData (bufSize sc) (timeDomain sc) (real sc) (imag sc) (mag sc)
    v (advancedPhase sc) (prevMag sc) (pendingKick sc)
    (accumulator sc) (accumulatorFill sc).

Definition set_prevMag (v : list R) (sc : ChannelScaleData)
  : ChannelScaleData :=
  mkChannelScaleData (bufSize sc) (timeDomain sc) (real sc) (imag sc) (mag sc)
    (phase sc) (advancedPhase sc) v (pendingKick sc)
    (accumulator sc) (accumulatorFill sc).

Definition set_pendingKick (v : list R) (sc : ChannelScaleData)
  : ChannelScaleData :=
  mkChannelScaleData (bufSize sc) (timeDomain sc) (real sc) (imag sc) (mag sc)
    (phase sc) (advancedPhase sc) (prevMag sc) v
    (accumulator sc) (accumulatorFill sc).

Definition set_timeDomain (v : list R) (sc : ChannelScaleData)
  : ChannelScaleData :=
  mkChannelScaleData (bufSize sc) v (real sc) (imag sc) (mag sc)
    (phase sc) (advancedPhase sc) (prevMag sc) (pendingKick sc)
    (accumulator sc) (accumulatorFill sc).

Definition set_real_imag (re im : list R) (sc : ChannelScaleData)
  : ChannelScaleData :=
  mkChannelScaleData (bufSize sc) (timeDomain sc) re im (mag sc)
    (phase sc) (advancedPhase sc) (prevMag sc) (pendingKick sc)
    (accumulator sc) (accumulatorFill sc).

Definition set_accumulatorFill (v : Z) (sc : ChannelScaleData)
  : ChannelScaleData :=
  mkChannelScaleData (bufSize sc) (timeDomain sc) (real sc) (imag sc) (mag sc)
    (phase sc) (advancedPhase sc) (prevMag sc) (pendingKick sc)
    (accumulator sc) v.

Definition set_scales (v : gmap Z ChannelScaleData) (cd : ChannelData)
  : ChannelData :=
  mkChannelData v (readahead cd) (haveReadahead cd) (classification cd)
    (nextClassification cd) (prevSegmentation cd) (segmentation cd)
    (nextSegmentation cd) (guidance cd) (mixdown cd) (resampled cd)
    (inbuf cd) (outbuf cd) (formant cd).

Definition set_readahead (v : ClassificationReadaheadData) (h : bool)
    (cd : ChannelData) : ChannelData :=
  mkChannelData (scales cd) v h (classification cd)
    (nextClassification cd) (prevSegmentation cd) (segmentation cd)
    (nextSegmentation cd) (guidance cd) (mixdown cd) (resampled cd)
    (inbuf cd) (outbuf cd) (formant cd).

Definition set_guidance (v : Guidance) (cd : ChannelData) : ChannelData :=
  mkChannelData (scales cd) (readahead cd) (haveReadahead cd)
    (classification cd) (nextClassification cd) (prevSegmentation cd)
    (segmentation cd) (nextSegmentation cd) v (mixdown cd) (resampled cd)
    (inbuf cd) (outbuf cd) (formant cd).

Definition set_mixdown_resampled (mix res : list R) (cd : ChannelData)
  : ChannelData :=
  mkChannelData (scales cd) (readahead cd) (haveReadahead cd)
    (classification cd) (nextClassification cd) (prevSegmentation cd)
    (segmentation cd) (nextSegmentation cd) (guidance cd) mix res
    (inbuf cd) (outbuf cd) (formant cd).

Definition set_inbuf (v : RingBuffer) (cd : ChannelData) : ChannelData :=
  mkChannelData (scales cd) (readahead cd) (haveReadahead cd)
    (classification cd) (nextClassification cd) (prevSegmentation cd)
    (segmentation cd) (nextSegmentation cd) (guidance cd) (mixdown cd)
    (resampled cd) v (outbuf cd) (formant cd).

Definition set_outbuf (v : RingBuffer) (cd : ChannelData) : ChannelData :=
  mkChannelData (scales cd) (readahead cd) (haveReadahead cd)
    (classification cd) (nextClassification cd) (prevSegmentation cd)
    (segmentation cd) (nextSegmentation cd) (guidance cd) (mixdown cd)
    (resampled cd) (inbuf cd) v (formant cd).

(** ** The transient deferrer *)

(** Modelled from the spec: [binForFrequency] is declared in
    R3Stretcher.h, which is not among the sources.  Section 4.4: a
    frequency is mapped to a bin by [round(f * fftSize / sampleRate)].
    The sample rate is positive (section 3). *)
Definition binForFrequency (f : R) (fftSize : Z) (sampleRate : R) : Z :=
  round (f * IZR fftSize / sampleRate).

(** [for (int i = from; i <= to; ++i)] over the data of one scale. *)
Definition for_bins (from to : Z)
    (body : ChannelScaleData -> Z -> ChannelScaleData)
    (scale : ChannelScaleData) : ChannelScaleData :=
  foldl body scale (seqZ from (to - from + 1)).

(** The body of the pre-kick loop (lines 1147-1151). *)
Definition preKick_bin (scale : ChannelScaleData) (i : Z) : ChannelScaleData :=
  let diff := (rd (mag scale) i - rd (prevMag scale) i)%R in
  if Rgt_dec diff 0 then
    let scale := set_pendingKick (wr (pendingKick scale) i diff) scale in
    set_mag (wr (mag scale) i (rd (mag scale) i - diff)%R) scale
  else scale.

(** The body of the kick loop (lines 1160-1161). *)
Definition kick_bin (scale : ChannelScaleData) (i : Z) : ChannelScaleData :=
  let scale :=
    set_mag (wr (mag scale) i
               (rd (mag scale) i + rd (pendingKick scale) i)%R) scale in
  set_pendingKick (wr (pendingKick scale) i 0%R) scale.

(** The bins [from..to] lie inside the buffer [l] (or there is none). *)
Definition in_buffer (from to : Z) (l : list R) : bool :=
  (to <? from) || ((0 <=? from) && (to <? Z.of_nat (length l))).

(** [R3Stretcher::adjustPreKick] (lines 1135-1164) on the data of channel
    [c].  [None]: the guidance has no band ([fftBands[0]] is undefined),
    [scales.at] throws, or the bin range leaves the buffers of the scale
    (which all have [bufSize] elements in the source). *)
Definition adjustPreKick (sampleRate : R) (cd : ChannelData)
  : option ChannelData :=
  match fftBands (guidance cd) with
  | [] => None
  | band0 :: _ =>
    let fftSize := fftSize band0 in
    if present (preKick (guidance cd)) then
      match scales cd !! fftSize with
      | None => None
      | Some scale =>
        let from := binForFrequency (f0 (preKick (guidance cd)))
                      fftSize sampleRate in
        let to := binForFrequency (f1 (preKick (guidance cd)))
                    fftSize sampleRate in
        if in_buffer from to (mag scale) && in_buffer from to (prevMag scale)
           && in_buffer from to (pendingKick scale)
        then Some (set_scales
                     (<[fftSize := for_bins from to preKick_bin scale]>
                        (scales cd)) cd)
        else None
      end
    else if present (kick (guidance cd)) then
      match scales cd !! fftSize with
      | None => None
      | Some scale =>
        let from := binForFrequency (f0 (preKick (guidance cd)))
                      fftSize sampleRate in
        let to := binForFrequency (f1 (preKick (guidance cd)))
                    fftSize sampleRate in
        if in_buffer from to (mag scale)
           && in_buffer from to (pendingKick scale)
        then Some (set_scales
                     (<[fftSize := for_bins from to kick_bin scale]>
                        (scales cd)) cd)
        else None
      end
    else Some cd
  end.

(** Only [mag] and [pendingKick] differ between [sc] and [sc']. *)
Definition same_but_mag_pending (sc sc' : ChannelScaleData) : Prop :=
  sc' = set_mag (mag sc') (set_pendingKick (pendingKick sc') sc) /\
  length (mag sc') = length (mag sc) /\
  length (pendingKick sc') = length (pendingKick sc).

(** A channel in a pre-kick frame: the lowest active band has FFT size
    1024, the pre-kick range is 0-150 Hz (bins 0 to 3 at 48 kHz), and the
    magnitudes rise over the previous frame at bins 0 and 1. *)
Definition scale_C4 : ChannelScaleData :=
  set_prevMag ([1; 1; 3; 4]%R ++ zeros 509)%list
    (set_mag ([2; 5; 1; 4]%R ++ zeros 509)%list
       (ChannelScaleData_new 1024 4096)).

Definition guidance_preKick : Guidance :=
  mkGuidance [mkFftBand 1024 0 24000]
    (mkRange false 0 0) (mkRange true 0 150).


Definition channel_C4 : ChannelData :=
  let cd := ChannelData_new example_configuration 8192 65536 in
  set_guidance guidance_preKick
    (set_scales (<[1024 := scale_C4]> (scales cd)) cd).

(** ** Successive frames of one channel

    Between two calls of [adjustPreKick] on a channel the engine
    synthesises the frame ([prevMag] takes the magnitudes, lines
    1179-1181), analyses the next one ([mag] is rewritten, lines 975-983)
    and asks the guide for new guidance (lines 1041-1053).  Nothing but
    [adjustPreKick] writes [pendingKick].  A [FrameInput] holds what
    reaches the deferrer at one frame: the guidance and, per FFT size,
    the magnitudes and previous magnitudes. *)
Record FrameInput : Type := mkFrameInput {
  fi_guidance : Guidance;
  fi_mag : Z -> list R;
  fi_prevMag : Z -> list R
}.

Definition load_frame (fi : FrameInput) (cd : ChannelData) : ChannelData :=
  set_guidance (fi_guidance fi)
    (set_scales
       (map_imap (fun k sc =>
                    Some (set_prevMag (fi_prevMag fi k)
                            (set_mag (fi_mag fi k) sc)))
                 (scales cd))
       cd).

(** One frame, then a run of frames, through the transient deferrer. *)
Definition frame (sampleRate : R) (cd : ChannelData) (fi : FrameInput)
  : option ChannelData :=
  adjustPreKick sampleRate (load_frame fi cd).

Fixpoint frames (sampleRate : R) (cd : ChannelData) (fis : list FrameInput)
  : option ChannelData :=
  match fis with
  | [] => Some cd
  | fi :: rest =>
    match frame sampleRate cd fi with
    | Some cd' => frames sampleRate cd' rest
    | None => None
    end
  end.



(** The scale and the bin range the deferrer works on at a frame. *)
Definition covers (sampleRate : R) (g : Guidance) (k i : Z) : Prop :=
  exists band0 rest,
    fftBands g = band0 :: rest /\ fftSize band0 = k /\
    (binForFrequency (f0 (preKick g)) k sampleRate <= i
     <= binForFrequency (f1 (preKick g)) k sampleRate)%Z.









(** ** Formant adjustment *)

Section Formant.

(** [FormantData::envelopeAt] is defined in R3Stretcher.h, which is not
    among the sources; it is a parameter here. *)
Variable envelopeAt : FormantData -> R -> R.

(** The body of the inner loop of [adjustFormant] (lines 1122-1129). *)
Definition formant_bin (f : FormantData) (sourceFactor targetFactor : R)
    (scale : ChannelScaleData) (i : Z) : ChannelScaleData :=
  let maxRatio := 60%R in
  let minRatio := (1 / maxRatio)%R in
  let source := envelopeAt f (IZR i * sourceFactor) in
  let target := envelopeAt f (IZR i * targetFactor) in
  if Rgt_dec target 0 then
    let ratio := (source / target)%R in
    let ratio := if Rlt_dec ratio minRatio then minRatio else ratio in
    let ratio := if Rgt_dec ratio maxRatio then maxRatio else ratio in
    set_mag (wr (mag scale) i (rd (mag scale) i * ratio)%R) scale
  else scale.

(** [for (int i = b.b0min; i < b.b1max && i < highBin; ++i)]. *)
Definition formant_bins (b : BandLimits) (highBin : Z) : list Z :=
  seqZ (b0min b) (Z.min (b1max b) highBin - b0min b).

(** The body of the loop over the scales (lines 1108-1131).  The FFT
    sizes are positive, and so are the sample rate and the pitch scale
    (section 3). *)
Definition adjustFormant_scale (s : R3Stretcher) (f : FormantData)
    (fftSize : Z) (scale : ChannelScaleData) : ChannelScaleData :=
  let highBin :=
    Zfloor (IZR fftSize * 10000 / sampleRate (m_parameters s)) in
  let targetFactor := (IZR (fd_fftSize f) / IZR fftSize)%R in
  let formantScale :=
    if Req_dec_T (m_formantScale s) 0 then (1 / m_pitchScale s)%R
    else m_formantScale s in
  let sourceFactor := (targetFactor / formantScale)%R in
  foldl (fun scale b =>
           if bl_fftSize b =? fftSize then
             foldl (formant_bin f sourceFactor targetFactor) scale
               (formant_bins b highBin)
           else scale)
        scale (fftBandLimits (m_guideConfiguration s)).

(** [R3Stretcher::adjustFormant] (lines 1101-1133) on the data of channel
    [c]. *)
Definition adjustFormant (s : R3Stretcher) (cd : ChannelData) : ChannelData :=
  set_scales
    (map_imap (fun fftSize scale =>
                 Some (adjustFormant_scale s (formant cd) fftSize scale))
              (scales cd))
    cd.

End Formant.

(** Pitch scale 2 and no formant scale of its own, a channel whose 1024
    scale has magnitude 1 in every bin, and a rising envelope. *)
Definition engine_C3 : R3Stretcher :=
  R3Stretcher_init example_parameters example_configuration 1 1 2.

Definition scale_C3 : ChannelScaleData :=
  set_mag (replicate 513 1%R) (ChannelScaleData_new 1024 4096).

Definition channel_C3 : ChannelData :=
  let cd := ChannelData_new example_configuration 8192 65536 in
  set_scales (<[1024 := scale_C3]> (scales cd)) cd.

Definition example_envelopeAt (f : FormantData) (x : R) : R := (x + 1)%R.

(** ** The control surface *)

Definition in_offline_run (s : R3Stretcher) : bool :=
  negb (isRealTime s) &&
  (ProcessMode_eqb (m_mode s) Studying || ProcessMode_eqb (m_mode s) Processing).

(** [R3Stretcher::setTimeRatio] (lines 156-170). *)
Definition setTimeRatio (ratio : R) (s : R3Stretcher) : Result R3Stretcher :=
  if in_offline_run s then
    Fin (log 0 "R3Stretcher::setTimeRatio: Cannot set time ratio while studying or processing in non-RT mode" s)
  else if Req_dec_T ratio (m_timeRatio s) then Fin s
  else calculateHop (set_m_timeRatio ratio s).

(** [R3Stretcher::setPitchScale] (lines 172-186). *)
Definition setPitchScale (scale : R) (s : R3Stretcher) : Result R3Stretcher :=
  if in_offline_run s then
    Fin (log 0 "R3Stretcher::setTimeRatio: Cannot set pitch scale while studying or processing in non-RT mode" s)
  else if Req_dec_T scale (m_pitchScale s) then Fin s
  else calculateHop (set_m_pitchScale scale s).

(** [R3Stretcher::setFormantScale] (lines 188-200). *)
Definition setFormantScale (scale : R) (s : R3Stretcher) : R3Stretcher :=
  if in_offline_run s then
    log 0 "R3Stretcher::setTimeRatio: Cannot set formant scale while studying or processing in non-RT mode" s
  else set_m_formantScale scale s.

(** [R3Stretcher::setFormantOption] (lines 202-210): the formant bit of
    the options is replaced. *)
Definition setFormantOption (preserved : bool) (s : R3Stretcher)
  : R3Stretcher :=
  let o := options (m_parameters s) in
  set_m_parameters
    (mkParameters (sampleRate (m_parameters s))
       (mkOptions (OptionProcessRealTime o) preserved
          (OptionPitchHighQuality o) (OptionPitchHighConsistency o)
          (OptionChannelsTogether o)))
    s.

(** [R3Stretcher::setPitchOption] (lines 212-216). *)
Definition setPitchOption (s : R3Stretcher) : R3Stretcher :=
  log 0 "R3Stretcher::setPitchOption: Option change after construction is not supported in R3 engine" s.

(** [R3Stretcher::setKeyFrameMap] (lines 218-231). *)
Definition setKeyFrameMap (mapping : list (Z * Z)) (s : R3Stretcher)
  : R3Stretcher :=
  if isRealTime s then
    log 0 "R3Stretcher::setKeyFrameMap: Cannot specify key frame map in RT mode" s
  else if ProcessMode_eqb (m_mode s) Processing
          || ProcessMode_eqb (m_mode s) Finished then
    log 0 "R3Stretcher::setKeyFrameMap: Cannot specify key frame map after process() has begun" s
  else set_m_keyFrameMap mapping s.

(** [R3Stretcher::study] (lines 463-482). *)
Definition study (samples : Z) (s : R3Stretcher) : R3Stretcher :=
  if isRealTime s then
    log 0 "R3Stretcher::study: Not meaningful in realtime mode" s
  else if ProcessMode_eqb (m_mode s) Processing
          || ProcessMode_eqb (m_mode s) Finished then
    log 0 "R3Stretcher::study: Cannot study after processing" s
  else
    let s := if ProcessMode_eqb (m_mode s) JustCreated
             then set_m_studyInputDuration 0 s else s in
    let s := set_m_mode Studying s in
    set_m_studyInputDuration (to_size_t (m_studyInputDuration s + samples)) s.

(** [R3Stretcher::setExpectedInputDuration] (lines 484-488). *)
Definition setExpectedInputDuration (samples : Z) (s : R3Stretcher)
  : R3Stretcher :=
  set_m_suppliedInputDuration samples s.

(** The rings of channel 0.  The engine has at least one channel
    (section 3); with none the source indexes an empty vector. *)
Definition inbuf0 (s : R3Stretcher) : RingBuffer :=
  match m_channelData s with
  | cd0 :: _ => inbuf cd0
  | [] => mkRingBuffer 0 []
  end.

Definition outbuf0 (s : R3Stretcher) : RingBuffer :=
  match m_channelData s with
  | cd0 :: _ => outbuf cd0
  | [] => mkRingBuffer 0 []
  end.

(** [R3Stretcher::setMaxProcessSize] (lines 503-518). *)
Definition setMaxProcessSize (n : Z) (s : R3Stretcher) : R3Stretcher :=
  let oldSize := to_size_t (getSize (inbuf0 s)) in
  let newSize :=
    to_size_t (longestFftSize (m_guideConfiguration s) + n) in
  if oldSize <? newSize then
    let s := log 1 "setMaxProcessSize: resizing from and to" s in
    set_m_channelData
      (map (fun cd => set_inbuf (rb_resized (to_int newSize) (inbuf cd)) cd)
           (m_channelData s)) s
  else
    log 1 "setMaxProcessSize: nothing to be done, newSize <= oldSize" s.

(** [R3Stretcher::available] (lines 604-613). *)
Definition available (s : R3Stretcher) : Z :=
  let av := getReadSpace (outbuf0 s) in
  if (av =? 0) && ProcessMode_eqb (m_mode s) Finished then -1 else av.

(** [R3Stretcher::retrieve] (lines 615-631): the loop over the channels,
    carrying the channel index, the running count, the log and the
    samples delivered so far. *)
Fixpoint retrieve_channels (c : nat) (got : Z) (cds : list ChannelData)
    (lg : list LogEntry)
  : Z * list ChannelData * list (list R) * list LogEntry :=
  match cds with
  | [] => (got, [], [], lg)
  | cd :: rest =>
    let '(data, gotHere, ob) := rb_read got (outbuf cd) in
    let '(got', lg') :=
      if gotHere <? got then
        (Z.min got (Z.max gotHere 0),
         if (0 <? Z.of_nat c)
         then (lg ++ [mkLogEntry 0 "R3Stretcher::retrieve: WARNING: channel imbalance detected"])%list
         else lg)
      else (got, lg) in
    let '(gotF, restF, outF, lgF) := retrieve_channels (S c) got' rest lg' in
    (gotF, set_outbuf ob cd :: restF, data :: outF, lgF)
  end.

(** The value returned, the samples written to [output] and the engine
    afterwards. *)
Definition retrieve (samples : Z) (s : R3Stretcher)
  : Z * list (list R) * R3Stretcher :=
  let got := to_int samples in
  let '(got, cds, output, lg) :=
    retrieve_channels 0 got (m_channelData s) (m_log s) in
  (to_size_t got, output, set_m_log lg (set_m_channelData cds s)).

(** ** The main loop *)

(** What the collaborators make of one frame.  Analysis, phase advance,
    transient deferral, synthesis and resampling (lines 706-771) run the
    FFTs, the windows, the guide and the resampler, which are outside
    this file; [fr_channel c] gives the buffers of channel [c] after
    them, and [fr_resampledCount] is what [Resampler::resample] returns.
    The rings are not touched by those steps, and the fill counters of
    the accumulators follow [synthesiseChannel] (lines 1251-1261). *)
Record Frame : Type := mkFrame {
  fr_channel : nat -> ChannelData -> ChannelData;
  fr_resampledCount : Z
}.

(** The fill counter after [synthesiseChannel] (lines 1251-1261). *)
Definition fill_after (outhop : Z) (draining : bool) (fill size : Z) : Z :=
  if draining then (if outhop <? fill then fill - outhop else 0) else size.

Definition frame_channel (fr : Frame) (outhop : Z) (draining : bool)
    (c : nat) (cd : ChannelData) : ChannelData :=
  let cd' := fr_channel fr c cd in
  let fills k sc' :=
    let fill := match scales cd !! k with
                | Some sc => accumulatorFill sc
                | None => accumulatorFill sc'
                end in
    Some (set_accumulatorFill
            (fill_after outhop draining fill
               (Z.of_nat (length (accumulator sc')))) sc') in
  set_outbuf (outbuf cd)
    (set_inbuf (inbuf cd) (set_scales (map_imap fills (scales cd')) cd')).

(** [m_unityCount] after the analysis of [n] channels (lines 1030-1036). *)
Definition unityCount_after (n : nat) (s : R3Stretcher) : Z :=
  match n with
  | O => m_unityCount s
  | S _ =>
    if Rlt_dec (Rabs (getEffectiveRatio s - 1)) (1 / 10 ^ 7)
    then m_unityCount s + Z.of_nat n else 0
  end.

(** The write count of a frame, limited to the target duration in offline
    mode (lines 775-788). *)
Definition limit_writeCount (writeCount : Z) (s : R3Stretcher)
  : R3Stretcher * Z :=
  if negb (isRealTime s)
     && (0 <? m_totalTargetDuration s)
     && (m_totalTargetDuration s
         <? to_size_t (m_totalOutputDuration s + writeCount))
  then
    let s := log 1 "writeCount would take output beyond target" s in
    let reduced :=
      to_size_t (m_totalTargetDuration s - m_totalOutputDuration s) in
    let s := log 1 "reducing writeCount from and to" s in
    (s, to_int reduced)
  else (s, writeCount).

(** The input advance of a frame (lines 790-797). *)
Definition limit_advanceCount (inhop readSpace : Z) (s : R3Stretcher)
  : R3Stretcher * Z :=
  if readSpace <? inhop then
    ((if ProcessMode_eqb (m_mode s) Finished then s
      else log 0 "WARNING: readSpace < inhop when processing is not yet finished" s),
     readSpace)
  else (s, inhop).

(** Writing the frame and advancing the input (lines 799-810). *)
Definition write_frame (resampling : bool) (writeCount advanceCount : Z)
    (s : R3Stretcher) : R3Stretcher :=
  let s :=
    set_m_channelData
      (map (fun cd =>
              set_inbuf (rb_skip advanceCount (inbuf cd))
                (set_outbuf
                   (rb_write (if resampling then resampled cd else mixdown cd)
                      writeCount (outbuf cd)) cd))
           (m_channelData s)) s in
  let s := set_m_consumedInputDuration
             (to_size_t (m_consumedInputDuration s + advanceCount)) s in
  set_m_totalOutputDuration
    (to_size_t (m_totalOutputDuration s + writeCount)) s.

(** Dropping the start padding from the output (lines 812-820). *)
Definition start_skip (s : R3Stretcher) : R3Stretcher :=
  if 0 <? m_startSkip s then
    let rs := getReadSpace (outbuf0 s) in
    let toSkip := Z.min (m_startSkip s) rs in
    let s :=
      set_m_channelData
        (map (fun cd => set_outbuf (rb_skip toSkip (outbuf cd)) cd)
             (m_channelData s)) s in
    let s := set_m_startSkip (m_startSkip s - toSkip) s in
    set_m_totalOutputDuration (to_size_t (rs - toSkip)) s
  else s.

(** Emission (lines 773-823). *)
Definition emit (inhop outhop readSpace : Z) (resampling : bool)
    (resampledCount : Z) (s : R3Stretcher) : R3Stretcher :=
  let writeCount := if resampling then resampledCount else outhop in
  let '(s, writeCount) := limit_writeCount writeCount s in
  let '(s, advanceCount) := limit_advanceCount inhop readSpace s in
  let s := write_frame resampling writeCount advanceCount s in
  let s := start_skip s in
  set_prevHops inhop outhop s.

(** One turn of the loop of [consume] (lines 706-823). *)
Definition iteration (fr : Frame) (inhop outhop : Z) (s : R3Stretcher)
  : R3Stretcher :=
  let readSpace := getReadSpace (inbuf0 s) in
  let draining := readSpace =? 0 in
  let s := set_m_unityCount (unityCount_after (length (m_channelData s)) s) s in
  let s := set_m_channelData
             (imap (frame_channel fr outhop draining) (m_channelData s)) s in
  let resampling :=
    m_resampler s
    && (negb (Req_b (m_pitchScale s) 1)
        || OptionPitchHighConsistency (options (m_parameters s))) in
  let resampledCount := if resampling then fr_resampledCount fr else 0 in
  emit inhop outhop readSpace resampling resampledCount s.

(** The tests at the head of the loop body (lines 689-704): [None] leaves
    the loop. *)
Definition loop_guard (s : R3Stretcher) : Result (option R3Stretcher) :=
  let longest := longestFftSize (m_guideConfiguration s) in
  let readSpace := getReadSpace (inbuf0 s) in
  if readSpace <? longest then
    if ProcessMode_eqb (m_mode s) Finished then
      if readSpace =? 0 then
        match m_channelData s with
        | [] => Thrown
        | cd0 :: _ =>
          match scales cd0 !! longest with
          | None => Thrown
          | Some scale =>
            if accumulatorFill scale =? 0 then Fin None
            else Fin (Some (log 1 "finished reading input, but samples remaining in output accumulator" s))
          end
        end
      else Fin (Some s)
    else Fin None
  else Fin (Some s).

(** [while (cd0->outbuf->getWriteSpace() >= outhop)] (lines 681-824), one
    frame of [frames] per turn. *)
Fixpoint consume_loop (frames : list Frame) (inhop outhop : Z)
    (s : R3Stretcher) : Result R3Stretcher :=
  if getWriteSpace (outbuf0 s) <? outhop then Fin s
  else
    g <- loop_guard s ;;
    match g with
    | None => Fin s
    | Some s1 =>
      match frames with
      | [] => Pending
      | fr :: rest => consume_loop rest inhop outhop (iteration fr inhop outhop s1)
      end
    end.

(** [R3Stretcher::consume] (lines 633-825).  [calculated] is what
    [StretchCalculator::calculateSingle] returns. *)
Definition consume (calculated : Z) (frames : list Frame) (s : R3Stretcher)
  : Result R3Stretcher :=
  let inhop := m_inhop s in
  let '(s, outhop) :=
    if calculated <? 1 then
      (log 0 "R3Stretcher::consume: WARNING: outhop calculated as" s, 1)
    else (s, calculated) in
  let s := if inhop =? m_prevInhop s then s
           else log 2 "change in inhop" s in
  let s := if outhop =? m_prevOuthop s then s
           else log 2 "change in outhop" s in
  match m_channelData s with
  | [] => Thrown
  | _ :: _ => consume_loop frames inhop outhop s
  end.

(** ** Processing *)

(** The offline preparation of [process] (lines 528-575). *)
Definition process_offline (s : R3Stretcher) : Result R3Stretcher :=
  let s :=
    match m_mode s with
    | Studying =>
      log 1 "study duration and target duration"
        (set_m_totalTargetDuration
           (round (IZR (m_studyInputDuration s) * m_timeRatio s)) s)
    | JustCreated =>
      if m_suppliedInputDuration s =? 0 then s
      else
        log 1 "supplied duration and target duration"
          (set_m_totalTargetDuration
             (round (IZR (m_suppliedInputDuration s) * m_timeRatio s)) s)
    | _ => s
    end in
  s <- (match m_keyFrameMap s with
        | [] => Fin s
        | _ :: _ => updateRatioFromMap s
        end) ;;
  if ProcessMode_eqb (m_mode s) JustCreated
     || ProcessMode_eqb (m_mode s) Studying then
    let s :=
      if negb (Req_b (m_pitchScale s) 1) && negb (m_resampler s)
      then createResampler s else s in
    let pad := Z.quot (longestFftSize (m_guideConfiguration s)) 2 in
    let s := log 1 "offline mode: prefilling with" s in
    let s :=
      set_m_channelData
        (map (fun cd => set_inbuf (rb_zero pad (inbuf cd)) cd)
             (m_channelData s)) s in
    q <- ddiv (IZR pad) (m_pitchScale s) ;;
    let s := set_m_startSkip (round q) s in
    Fin (log 1 "start skip is" s)
  else Fin s.

(** [process] up to the call of [consume] (lines 523-599). *)
Definition process_input (input : list (list R)) (samples : Z) (final : bool)
    (s : R3Stretcher) : Result R3Stretcher :=
  s <- (if isRealTime s then Fin s else process_offline s) ;;
  let s := set_m_mode (if final then Finished else Processing) s in
  let ws := to_size_t (getWriteSpace (inbuf0 s)) in
  let s :=
    if ws <? samples then
      let s := log 0 "R3Stretcher::process: WARNING: Forced to increase input buffer size. Either setMaxProcessSize was not properly called or process is being called repeatedly without retrieve. Write space and samples" s in
      let newSize := to_size_t (getSize (inbuf0 s) - ws + samples) in
      set_m_channelData
        (map (fun cd => set_inbuf (rb_resized (to_int newSize) (inbuf cd)) cd)
             (m_channelData s)) s
    else s in
  Fin (set_m_channelData
         (imap (fun c cd =>
                  set_inbuf (rb_write (nth c input []) (to_int samples)
                               (inbuf cd)) cd)
               (m_channelData s)) s).

(** [R3Stretcher::process] (lines 520-602). *)
Definition process (calculated : Z) (frames : list Frame)
    (input : list (list R)) (samples : Z) (final : bool) (s : R3Stretcher)
  : Result R3Stretcher :=
  if ProcessMode_eqb (m_mode s) Finished then
    Fin (log 0 "R3Stretcher::process: Cannot process again after final chunk" s)
  else
    s <- process_input input samples final s ;;
    consume calculated frames s.

(** ** Auxiliary notions of the statements *)

Definition imbalance_warning : LogEntry :=
  mkLogEntry 0 "R3Stretcher::retrieve: WARNING: channel imbalance detected".

(** The number of channels after the first whose output ring holds fewer
    samples than the count still asked for when their turn comes; [c] is
    the index of the first channel of [spaces], [m] the count asked of
    it. *)
Fixpoint imbalances (c : nat) (m : Z) (spaces : list Z) : nat :=
  match spaces with
  | [] => 0
  | r :: rest =>
    Nat.add (if (r <? m) && (0 <? Z.of_nat c) then 1%nat else 0%nat)
      (imbalances (S c) (Z.min m r) rest)
  end.

(** A stereo engine whose output rings hold five and three samples. *)
Definition engine_C10 : R3Stretcher :=
  let s := R3Stretcher_init example_parameters example_configuration 2 1 1 in
  let cd := ChannelData_new example_configuration 8192 65536 in
  set_m_channelData
    [set_outbuf (mkRingBuffer 65536 [1; 2; 3; 4; 5]%R) cd;
     set_outbuf (mkRingBuffer 65536 [6; 7; 8]%R) cd] s.

(** The offline engine of scenario 6 of section 8, whose key-frame map
    starts with the entry (0, 0), before any input is consumed. *)
Definition keyFrameMap_scenario6 : list (Z * Z) :=
  [(0, 0); (48000, 96000); (96000, 120000)].

Definition engine_C8 : R3Stretcher :=
  setKeyFrameMap keyFrameMap_scenario6
    (R3Stretcher_init example_parameters example_configuration 1 1 1).

(** The same engine with the map {(48000, 96000), (96000, 120000)}. *)
Definition engine_C8_nonzero : R3Stretcher :=
  setKeyFrameMap [(48000, 96000); (96000, 120000)]
    (R3Stretcher_init example_parameters example_configuration 1 1 1).

(** ** Calls on the engine

    The operations that change the engine, [reset] apart (it returns the
    engine to [JustCreated]); [available] and the getters are [const]. *)
Inductive Call : Type :=
| CallSetTimeRatio (ratio : R)
| CallSetPitchScale (scale : R)
| CallSetFormantScale (scale : R)
| CallSetFormantOption (preserved : bool)
| CallSetPitchOption
| CallSetKeyFrameMap (mapping : list (Z * Z))
| CallStudy (samples : Z)
| CallSetExpectedInputDuration (samples : Z)
| CallSetMaxProcessSize (n : Z)
| CallProcess (calculated : Z) (frames : list Frame) (input : list (list R))
    (samples : Z) (final : bool)
| CallRetrieve (samples : Z).

Definition do_call (call : Call) (s : R3Stretcher) : Result R3Stretcher :=
  match call with
  | CallSetTimeRatio ratio => setTimeRatio ratio s
  | CallSetPitchScale scale => setPitchScale scale s
  | CallSetFormantScale scale => Fin (setFormantScale scale s)
  | CallSetFormantOption preserved => Fin (setFormantOption preserved s)
  | CallSetPitchOption => Fin (setPitchOption s)
  | CallSetKeyFrameMap mapping => Fin (setKeyFrameMap mapping s)
  | CallStudy samples => Fin (study samples s)
  | CallSetExpectedInputDuration samples =>
      Fin (setExpectedInputDuration samples s)
  | CallSetMaxProcessSize n => Fin (setMaxProcessSize n s)
  | CallProcess calculated frames input samples final =>
      process calculated frames input samples final s
  | CallRetrieve samples => Fin (snd (retrieve samples s))
  end.

Fixpoint do_calls (calls : list Call) (s : R3Stretcher) : Result R3Stretcher :=
  match calls with
  | [] => Fin s
  | call :: rest => s' <- do_call call s ;; do_calls rest s'
  end.

Definition process_warning : LogEntry :=
  mkLogEntry 0 "R3Stretcher::process: Cannot process again after final chunk".

(** A realtime mono engine, as the constructor initialises it. *)
Definition realtime_parameters : Parameters :=
  mkParameters 48000 (mkOptions true false false false false).

Definition engine_realtime : R3Stretcher :=
  createResampler
    (R3Stretcher_init realtime_parameters small_configuration 1 1 1).

(** The counters of an offline engine agree with its target: the output
    duration lies within it, and while start padding is still to be
    dropped the output ring of channel 0 is empty and nothing counts as
    output yet. *)
Definition duration_inv (s : R3Stretcher) : Prop :=
  0 <= m_totalOutputDuration s <= m_totalTargetDuration s /\
  (0 < m_startSkip s ->
   getReadSpace (outbuf0 s) = 0 /\ m_totalOutputDuration s = 0).

(** The collaborators return counts that fit an [int]. *)
Definition frame_counts_ok (fr : Frame) : Prop :=
  0 <= fr_resampledCount fr < 2 ^ 31.

(** A frame that leaves the channel buffers alone. *)
Definition idle_frame : Frame := mkFrame (fun _ cd => cd) 0.

(** An offline mono engine in mid-run: [Processing], 40 samples waiting in
    the input ring, the start padding already dropped, and no target
    duration (neither [study] nor [setExpectedInputDuration] was
    called). *)
Definition engine_C5 : R3Stretcher :=
  let s := R3Stretcher_init example_parameters small_configuration 1 1 1 in
  let cd := ChannelData_new small_configuration 64 512 in
  set_m_mode Processing
    (set_m_inhop 8
       (set_m_channelData [set_inbuf (mkRingBuffer 64 (zeros 40)) cd] s)).

(** The same engine with a target duration of 10 samples, 4 of them
    already emitted. *)
Definition engine_C5_target : R3Stretcher :=
  set_m_totalOutputDuration 4 (set_m_totalTargetDuration 10 engine_C5).


(** ** Analysis of a channel *)

(** Modelled from the spec: the vector operations of VectorOps.h (not
    among the sources), on buffers as lists.  Section 4.2 names them: the
    copy of the first [n] elements, the scaling of a run of elements by a
    factor, the zeroing of a run, the FFT shift that rotates the first
    [n] elements by [n/2], and the mean.  An element outside the source
    reads as 0 and one outside the destination is not written. *)
Definition v_copy (dst src : list R) (n : Z) : list R :=
  imap (fun i x => if Z.of_nat i <? n then rd src (Z.of_nat i) else x) dst.

Definition v_zero (dst : list R) (from n : Z) : list R :=
  imap (fun i x =>
          if (from <=? Z.of_nat i) && (Z.of_nat i <? from + n) then 0%R
          else x) dst.

Definition v_scale (dst : list R) (from : Z) (factor : R) (n : Z) : list R :=
  imap (fun i x =>
          if (from <=? Z.of_nat i) && (Z.of_nat i <? from + n)
          then (x * factor)%R else x) dst.

Definition v_fftshift (buf : list R) (n : Z) : list R :=
  imap (fun i x =>
          if Z.of_nat i <? n
          then rd buf ((Z.of_nat i + Z.quot n 2) mod n) else x) buf.

Definition v_mean (buf : list R) (from n : Z) : Result R :=
  ddiv (foldl (fun t i => (t + rd buf i)%R) 0%R (seqZ from n)) (IZR n).

(** [ToPolarSpec] as [analyseChannel] fills it in. *)
Record ToPolarSpec : Type := mkToPolarSpec {
  magFromBin : Z;
  magBinCount : Z;
  polarFromBin : Z;
  polarBinCount : Z
}.

(** The calls [analyseChannel] makes to the windows, the FFTs and the
    polar conversion, in program order: which buffer was windowed
    ([analysisWindow.cut]), forward-transformed ([fft.forward]) or
    converted ([convertToPolar]), and at which FFT size. *)
Inductive AnalysisBuffer : Type :=
  | ReadaheadFrame
  | CurrentFrame (fftSize : Z).

Inductive AnalysisEvent : Type :=
  | Windowed (fftSize : Z) (b : AnalysisBuffer)
  | Transformed (fftSize : Z) (b : AnalysisBuffer)
  | MadePolar (fftSize : Z) (b : AnalysisBuffer).



(** The scales of a channel together with the calls made so far. *)
Definition Analysis : Type := gmap Z ChannelScaleData * list AnalysisEvent.

(** The keys of [cd->scales] in the order [std::map] iterates them. *)
Definition scale_sizes (m : gmap Z ChannelScaleData) : list Z :=
  merge_sort Z.le (map fst (map_to_list m)).

(** [for (auto &it : cd->scales) { ... }]: the body works on the scale
    [it.second] in place; [None] stands for [continue]. *)
Definition for_scales
    (body : Z -> ChannelScaleData
            -> option (ChannelScaleData * list AnalysisEvent))
    (a : Analysis) : Analysis :=
  foldl (fun a fftSize =>
           match fst a !! fftSize with
           | Some scale =>
             match body fftSize scale with
             | Some (scale', evs) =>
               (<[fftSize := scale']> (fst a), (snd a ++ evs)%list)
             | None => a
             end
           | None => a
           end)
        a (scale_sizes (fst a)).

(** One statement on the scale at [fftSize], found with [at]. *)
Definition on_scale (fftSize : Z) (f : ChannelScaleData -> ChannelScaleData)
    (evs : list AnalysisEvent) (a : Analysis) : Analysis :=
  (alter f fftSize (fst a), (snd a ++ evs)%list).

(** [for (const auto &b : fftBandLimits) if (b.fftSize == k) { ...; break; }]
    runs its body on the first band of size [k]. *)
Definition band_of (config : Configuration) (k : Z) : option BandLimits :=
  List.find (fun b => bl_fftSize b =? k) (fftBandLimits config).

(** What a loop over the scales leaves in a scale and which calls it
    makes for the size [k]. *)
Definition scale_after
    (body : Z -> ChannelScaleData
            -> option (ChannelScaleData * list AnalysisEvent))
    (k : Z) (scale : ChannelScaleData) : ChannelScaleData :=
  match body k scale with
  | Some (scale', _) => scale'
  | None => scale
  end.

Definition calls_of
    (body : Z -> ChannelScaleData
            -> option (ChannelScaleData * list AnalysisEvent))
    (m : gmap Z ChannelScaleData) (k : Z) : list AnalysisEvent :=
  match m !! k with
  | Some scale =>
    match body k scale with
    | Some (_, evs) => evs
    | None => []
    end
  | None => []
  end.

Section Analysis.

(** The collaborators of [analyseChannel], which are outside this file
    (section 6): [cut k src dst] is what [analysisWindow.cut(src, dst)]
    of the window of size [k] leaves in [dst]; [forward k td] is the
    pair of spectra [fft.forward] fills in; [convertToPolar] returns the
    magnitude and phase buffers it leaves; [inverseCepstral k mag dst]
    is what [fft.inverseCepstral] leaves in [dst].  [m_scaleData] holds
    a window and an FFT for every size of [cd->scales].  The classifier,
    the segmenter and the guide keep histories of their own: the last
    three stand for what they return on this frame. *)
Variable cut : Z -> list R -> list R -> list R.
Variable forward : Z -> list R -> list R * list R.
Variable convertToPolar :
  list R -> list R -> list R -> list R -> ToPolarSpec -> list R * list R.
Variable inverseCepstral : Z -> list R -> list R -> list R.
Variable envelopeAt : FormantData -> R -> R.
Variable classifier_classify : list R -> list Z -> list Z.
Variable segmenter_segment : list Z -> Segmentation.
Variable updateGuidance :
  R -> Z -> list R -> list R -> list R ->
  Segmentation -> Segmentation -> Segmentation ->
  R -> Z -> bool -> bool -> Guidance -> Guidance.

(** The body of the second loop over the scales (lines 943-987): FFT
    shift, forward FFT, polar conversion and scaling of the magnitudes,
    in the buffers of the scale.  FFT sizes are positive (section 3). *)
Definition analyse_scale (config : Configuration) (fftSize : Z)
    (scale : ChannelScaleData) : ChannelScaleData * list AnalysisEvent :=
  let classify := classificationFftSize config in
  let td := v_fftshift (timeDomain scale) fftSize in
  let ri := forward fftSize td in
  let scale := set_real_imag (fst ri) (snd ri) (set_timeDomain td scale) in
  match band_of config fftSize with
  | Some b =>
    let spec :=
      if fftSize =? classify
      then mkToPolarSpec 0 (Z.quot classify 2 + 1)
             (b0min b) (b1max b - b0min b + 1)
      else mkToPolarSpec (b0min b) (b1max b - b0min b + 1)
             (b0min b) (b1max b - b0min b + 1) in
    let mp := convertToPolar (mag scale) (phase scale)
                (real scale) (imag scale) spec in
    (set_phase (snd mp)
       (set_mag (v_scale (fst mp) (magFromBin spec) (1 / IZR fftSize)
                   (magBinCount spec)) scale),
     [Transformed fftSize (CurrentFrame fftSize);
      MadePolar fftSize (CurrentFrame fftSize)])
  | None => (scale, [Transformed fftSize (CurrentFrame fftSize)])
  end.

(** Lines 874-875. *)
Definition haveValidReadahead (inhop prevInhop : Z) (cd : ChannelData)
  : bool :=
  if negb (inhop =? prevInhop) then false else haveReadahead cd.

(** Lines 836-842: the unwindowed frame of the longest size, peeked from
    the input ring into the time-domain buffer of the longest scale and
    zero-padded when the ring holds less. *)
Definition peek_frame (config : Configuration) (cd : ChannelData)
    (longestScale : ChannelScaleData) : list R :=
  let longest := longestFftSize config in
  let readSpace := getReadSpace (inbuf cd) in
  if readSpace <? longest
  then v_zero (v_copy (timeDomain longestScale)
                 (rb_peek readSpace (inbuf cd)) readSpace)
         readSpace (longest - readSpace)
  else v_copy (timeDomain longestScale)
         (rb_peek longest (inbuf cd)) longest.

(** Lines 865-867 and 904: the readahead frame, windowed from one hop
    further down [buf] and FFT-shifted. *)
Definition readahead_frame (config : Configuration) (inhop : Z)
    (buf : list R) (ra : ClassificationReadaheadData) : list R :=
  let longest := longestFftSize config in
  let classify := classificationFftSize config in
  v_fftshift
    (cut classify
       (drop (Z.to_nat (Z.quot (longest - classify) 2 + inhop)) buf)
       (ra_timeDomain ra))
    classify.

(** Lines 851-884: the time-domain buffers of the scales are filled from
    [buf], the buffer of the longest scale, which is windowed last and
    in place. *)
Definition window_frames (config : Configuration) (valid : bool)
    (buf : list R) (a : Analysis) : Analysis :=
  let longest := longestFftSize config in
  let classify := classificationFftSize config in
  let a :=
    for_scales
      (fun fftSize scale =>
         if (fftSize =? classify) || (fftSize =? longest) then None
         else
           let offset := Z.quot (longest - fftSize) 2 in
           Some (set_timeDomain
                   (cut fftSize (drop (Z.to_nat offset) buf)
                      (timeDomain scale)) scale,
                 [Windowed fftSize (CurrentFrame fftSize)]))
      a in
  let a := (fst a, (snd a ++ [Windowed classify ReadaheadFrame])%list) in
  let a :=
    if negb valid
    then on_scale classify
           (fun scale =>
              set_timeDomain
                (cut classify
                   (drop (Z.to_nat (Z.quot (longest - classify) 2)) buf)
                   (timeDomain scale)) scale)
           [Windowed classify (CurrentFrame classify)] a
    else a in
  on_scale longest
    (fun scale =>
       set_timeDomain
         (cut longest (timeDomain scale) (timeDomain scale)) scale)
    [Windowed longest (CurrentFrame longest)] a.

(** Lines 895-928: the classification scale takes over the previous
    readahead when that is valid, the new readahead frame [ra_td] is
    transformed into the spectra of the classification scale and made
    polar in the readahead.  The magnitudes and phases of the readahead
    afterwards come first. *)
Definition transform_readahead (config : Configuration) (valid : bool)
    (ra : ClassificationReadaheadData) (ra_td : list R) (a : Analysis)
  : (list R * list R) * Analysis :=
  let classify := classificationFftSize config in
  let a :=
    if valid
    then on_scale classify
           (fun scale =>
              set_phase (v_copy (phase scale) (ra_phase ra) (bufSize scale))
                (set_mag (v_copy (mag scale) (ra_mag ra) (bufSize scale))
                   scale))
           [] a
    else a in
  let ri := forward classify ra_td in
  let a := on_scale classify (set_real_imag (fst ri) (snd ri))
             [Transformed classify ReadaheadFrame] a in
  match band_of config classify with
  | Some b =>
    let spec := mkToPolarSpec 0 (Z.quot classify 2 + 1)
                  (b0min b) (b1max b - b0min b + 1) in
    (convertToPolar (ra_mag ra) (ra_phase ra) (fst ri) (snd ri) spec,
     on_scale classify
       (fun scale =>
          set_mag (v_scale (mag scale) 0 (1 / IZR classify)
                     (Z.of_nat (length (mag scale)))) scale)
       [MadePolar classify ReadaheadFrame] a)
  | None => ((ra_mag ra, ra_phase ra), a)
  end.

(** Lines 937-988: every scale is transformed in place, the
    classification scale apart when the readahead was valid. *)
Definition transform_scales (config : Configuration) (valid : bool)
    (a : Analysis) : Analysis :=
  for_scales
    (fun fftSize scale =>
       if (fftSize =? classificationFftSize config) && valid then None
       else Some (analyse_scale config fftSize scale))
    a.

(** Lines 830-988 of [analyseChannel] on the data of one channel: the
    channel afterwards and the calls made.  [at] throws when the longest
    or the classification size has no scale. *)
Definition analyse_spectra (config : Configuration) (inhop prevInhop : Z)
    (cd : ChannelData) : Result (ChannelData * list AnalysisEvent) :=
  let longest := longestFftSize config in
  let classify := classificationFftSize config in
  match scales cd !! longest, scales cd !! classify with
  | Some longestScale, Some _ =>
    let buf := peek_frame config cd longestScale in
    let a := on_scale longest (set_timeDomain buf) [] (scales cd, []) in
    let valid := haveValidReadahead inhop prevInhop cd in
    let a := window_frames config valid buf a in
    let ra_td := readahead_frame config inhop buf (readahead cd) in
    let '(ra_mp, a) :=
      transform_readahead config valid (readahead cd) ra_td a in
    let a := transform_scales config valid a in
    Fin (set_readahead (mkReadahead ra_td (fst ra_mp) (snd ra_mp)) true
           (set_scales (fst a) cd),
         snd a)
  | _, _ => Thrown
  end.

(** [R3Stretcher::analyseFormant] (lines 1067-1099). *)
Definition analyseFormant (s : R3Stretcher) (cd : ChannelData)
  : Result ChannelData :=
  let f := formant cd in
  let fftSize := fd_fftSize f in
  let binCount := Z.quot fftSize 2 + 1 in
  match scales cd !! fftSize with
  | None => Thrown
  | Some scale =>
    let cep := inverseCepstral fftSize (mag scale) (cepstra f) in
    let cutoff := to_int (Zfloor (sampleRate (m_parameters s) / 650)) in
    let cutoff := if cutoff <? 1 then 1 else cutoff in
    let cep := wr cep 0 (rd cep 0 / 2)%R in
    let cep := wr cep (cutoff - 1) (rd cep (cutoff - 1) / 2)%R in
    let cep := v_zero cep cutoff (fftSize - cutoff) in
    let cep := v_scale cep 0 (1 / IZR fftSize) cutoff in
    let es := forward fftSize cep in
    let env :=
      imap (fun i x =>
              if Z.of_nat i <? binCount
              then let y := (exp x * exp x)%R in
                   if Rgt_dec y (10 ^ 10) then (10 ^ 10)%R else y
              else x) (fst es) in
    Fin (mkChannelData (scales cd) (readahead cd) (haveReadahead cd)
           (classification cd) (nextClassification cd)
           (prevSegmentation cd) (segmentation cd) (nextSegmentation cd)
           (guidance cd) (mixdown cd) (resampled cd) (inbuf cd) (outbuf cd)
           (mkFormantData fftSize cep env (snd es)))
  end.

(** [R3Stretcher::analyseChannel] (lines 827-1065) for channel [c]: the
    engine afterwards and the calls made to the windows and the FFTs of
    the scales. *)
Definition analyseChannel (c : nat) (inhop prevInhop prevOuthop : Z)
    (s : R3Stretcher) : Result (R3Stretcher * list AnalysisEvent) :=
  let config := m_guideConfiguration s in
  let classify := classificationFftSize config in
  match m_channelData s !! c with
  | None => Thrown
  | Some cd =>
    r <- analyse_spectra config inhop prevInhop cd ;;
    let '(cd, evs) := r in
    cd <- (if OptionFormantPreserved (options (m_parameters s))
           then cd <- analyseFormant s cd ;;
                Fin (adjustFormant envelopeAt s cd)
           else Fin cd) ;;
    match scales cd !! classify with
    | None => Thrown
    | Some classifyScale =>
      let classification' :=
        imap (fun i x => default x (nextClassification cd !! i))
          (classification cd) in
      let nextClassification' :=
        classifier_classify (ra_mag (readahead cd)) (nextClassification cd) in
      let prevSegmentation' := segmentation cd in
      let segmentation' := nextSegmentation cd in
      let nextSegmentation' := segmenter_segment nextClassification' in
      let ratio := getEffectiveRatio s in
      let unityCount :=
        if Rlt_dec (Rabs (ratio - 1)) (1 / 10 ^ 7)
        then m_unityCount s + 1 else 0 in
      let tighterChannelLock :=
        OptionChannelsTogether (options (m_parameters s)) in
      meanMag <- v_mean (mag classifyScale) 1 (Z.quot classify 2) ;;
      let guidance' :=
        updateGuidance ratio prevOuthop (mag classifyScale)
          (prevMag classifyScale) (ra_mag (readahead cd))
          segmentation' prevSegmentation' nextSegmentation'
          meanMag unityCount (isRealTime s) tighterChannelLock
          (guidance cd) in
      let cd' :=
        mkChannelData (scales cd) (readahead cd) (haveReadahead cd)
          classification' nextClassification'
          prevSegmentation' segmentation' nextSegmentation'
          guidance' (mixdown cd) (resampled cd) (inbuf cd) (outbuf cd)
          (formant cd) in
      Fin (set_m_unityCount unityCount
             (set_m_channelData (<[c := cd']> (m_channelData s)) s),
           evs)
    end
  end.

End Analysis.

(** Stand-ins for the window, the FFT and the polar conversion, to run
    the analysis on an example: a rectangular window, and spectra that
    repeat the head of the frame. *)
Definition example_cut (k : Z) (src dst : list R) : list R :=
  v_copy dst src k.

Definition example_forward (k : Z) (td : list R) : list R * list R :=
  (take (Z.to_nat (Z.quot k 2 + 1)) td, zeros (Z.quot k 2 + 1)).

Definition example_convertToPolar (mag phase re im : list R)
    (spec : ToPolarSpec) : list R * list R :=
  (v_copy mag re (magFromBin spec + magBinCount spec), phase).

(** A channel of [small_configuration] whose readahead holds magnitudes
    2 and phases 1 from the frame before. *)
Definition channel_C9 : ChannelData :=
  set_readahead
    (mkReadahead (zeros 16) (replicate 9 2%R) (replicate 9 1%R)) true
    (set_inbuf (mkRingBuffer 64 (replicate 40 1%R))
       (ChannelData_new small_configuration 64 64)).

(** The fill counter of the accumulator of channel 0 at the longest FFT
    size, which the loop of [consume] tests once the input has run out
    (line 695), and how many more turns it lets the loop take then. *)
Definition fill0 (s : R3Stretcher) : Z :=
  match m_channelData s with
  | cd0 :: _ =>
    match scales cd0 !! longestFftSize (m_guideConfiguration s) with
    | Some scale => accumulatorFill scale
    | None => 0
    end
  | [] => 0
  end.

Definition turns_left (fill : Z) : nat :=
  if fill =? 0 then O else S (Z.to_nat fill).

(** ** The rest of the public operations *)



(** [R3Stretcher::getSamplesRequired] (lines 490-501). *)
Definition getSamplesRequired (s : R3Stretcher) : Z :=
  if negb (available s =? 0) then 0
  else
    let longest := longestFftSize (m_guideConfiguration s) in
    let rs := to_int (getReadSpace (inbuf0 s)) in
    if rs <? longest then to_size_t (longest - rs) else 0.

Section Reset.

(** [ChannelData::reset] is defined in R3Stretcher.h, which is not among
    the sources; it is a parameter here, as are the calculator, the
    resampler and the guided phase advance that [reset] resets. *)
Variable channel_reset : ChannelData -> ChannelData.


End Reset.

(** The window choices of [ScaleData] (lines 129-154). *)
Inductive WindowType : Type :=
  | HannWindow
  | NiemitaloForwardWindow
  | NiemitaloReverseWindow.

Definition analysisWindowShape (fftSize : Z) : WindowType :=
  if 2048 <? fftSize then HannWindow else NiemitaloForwardWindow.

Definition analysisWindowLength (fftSize : Z) : Z := fftSize.

Definition synthesisWindowShape (fftSize : Z) : WindowType :=
  if 2048 <? fftSize then HannWindow else NiemitaloReverseWindow.

Definition synthesisWindowLength (fftSize : Z) : Z :=
  if 2048 <? fftSize then Z.quot fftSize 2 else fftSize.

(** The calls that set the ratios, the map and the study duration. *)
Definition is_control (call : Call) : bool :=
  match call with
  | CallSetTimeRatio _ | CallSetPitchScale _ | CallSetFormantScale _
  | CallSetPitchOption | CallSetKeyFrameMap _ | CallStudy _ => true
  | _ => false
  end.

(** An offline mono engine of [small_configuration] in mid-run. *)
Definition engine_processing : R3Stretcher :=
  set_m_mode Processing
    (R3Stretcher_init example_parameters small_configuration 1 1 1).

(** [study] called on the blocks of an input in turn. *)
Definition study_all (blocks : list Z) (s : R3Stretcher) : R3Stretcher :=
  foldl (fun s n => study n s) s blocks.

(** The members [updateRatioFromMap] may write: the time ratio, the
    input hop, the last key frame surpassed and the log. *)
Definition only_ratio_changed (s s' : R3Stretcher) : Prop :=
  s' = set_m_lastKeyFrameSurpassed (m_lastKeyFrameSurpassed s')
         (set_m_log (m_log s')
            (set_m_inhop (m_inhop s')
               (set_m_timeRatio (m_timeRatio s') s))).

(** The indexes of a key-frame map and the durations are [size_t]
    values. *)
Definition is_size_t (z : Z) : Prop := 0 <= z < 2 ^ 64.

Definition keyFrameMap_ok (s : R3Stretcher) : Prop :=
  Forall (fun e => is_size_t (fst e) /\ is_size_t (snd e)) (m_keyFrameMap s)
  /\ is_size_t (m_studyInputDuration s)
  /\ is_size_t (m_totalTargetDuration s).

(** An offline mono engine that has consumed 50000 samples of an input
    of 96000 studied samples, with the key-frame map of scenario 6. *)
Definition engine_keyframes : R3Stretcher :=
  set_m_consumedInputDuration 50000
    (set_m_totalTargetDuration 120000
       (set_m_studyInputDuration 96000
          (set_m_keyFrameMap keyFrameMap_scenario6 engine_processing))).

(** A realtime mono engine of [small_configuration] holding 20 samples
    of input and no output. *)
Definition channel_waiting : ChannelData :=
  set_inbuf (mkRingBuffer 64 (replicate 20 1%R))
    (ChannelData_new small_configuration 64 512).

Definition engine_waiting : R3Stretcher :=
  set_m_channelData [channel_waiting]
    (set_m_mode Processing engine_realtime).


(** A finished mono engine whose output ring still holds five samples. *)
Definition engine_finished : R3Stretcher :=
  set_m_mode Finished
    (set_m_channelData
       [set_outbuf (mkRingBuffer 512 [1; 2; 3; 4; 5]%R)
          (ChannelData_new small_configuration 64 512)]
       (R3Stretcher_init example_parameters small_configuration 1 1 1)).

(** [engine_C5] with 16 samples of start padding still to be dropped. *)
Definition engine_skipping : R3Stretcher :=
  set_m_startSkip 16 engine_C5.


(** A stand-in for the inverse cepstral transform, to run the formant
    analysis on an example: it copies the magnitudes. *)
Definition example_inverseCepstral (k : Z) (mag dst : list R) : list R :=
  v_copy dst mag k.


(** The members of a scale that the analysis of a frame leaves alone:
    the buffer size, the advanced phases, the previous magnitudes, the
    pending kick and the accumulator with its fill. *)
Definition analysis_keeps (sc sc' : ChannelScaleData) : Prop :=
  bufSize sc' = bufSize sc /\ advancedPhase sc' = advancedPhase sc /\
  prevMag sc' = prevMag sc /\ pendingKick sc' = pendingKick sc /\
  accumulator sc' = accumulator sc /\
  accumulatorFill sc' = accumulatorFill sc.

(** The same FFT sizes, and at each of them a scale that kept those
    members. *)
Definition scales_kept (m m' : gmap Z ChannelScaleData) : Prop :=
  forall k, match m !! k, m' !! k with
            | Some sc, Some sc' => analysis_keeps sc sc'
            | None, None => True
            | _, _ => False
            end.


(** Stand-ins for the classifier, the segmenter and the guide, to run
    the analysis of a channel on an example: they keep what they are
    given. *)
Definition example_classify (mag : list R) (next : list Z) : list Z := next.

Definition example_segment (classification : list Z) : Segmentation :=
  Segmentation_new.

Definition example_updateGuidance (ratio : R) (prevOuthop : Z)
    (mag prevMag nextMag : list R)
    (segmentation prevSegmentation nextSegmentation : Segmentation)
    (meanMag : R) (unityCount : Z) (realtime tighterChannelLock : bool)
    (guidance : Guidance) : Guidance := guidance.

(** An offline mono engine of [small_configuration] whose channel is
    [channel_C9]. *)
Definition engine_analysing : R3Stretcher :=
  set_m_channelData [channel_C9] engine_processing.


(** ** Synthesis of a channel *)

Definition set_accumulator (v : list R) (sc : ChannelScaleData)
  : ChannelScaleData :=
  mkChannelScaleData (bufSize sc) (timeDomain sc) (real sc) (imag sc)
    (mag sc) (phase sc) (advancedPhase sc) (prevMag sc) (pendingKick sc)
    v (accumulatorFill sc).

(** Modelled from the spec: [v_move] of VectorOps.h (not among the
    sources), as [synthesiseChannel] calls it on the accumulator, which
    section 4.7 has shifted left by the output hop: [v_move buf from n]
    moves the [n] elements at offset [from] of [buf] down to its
    start. *)
Definition v_move (buf : list R) (from n : Z) : list R :=
  imap (fun i x =>
          if Z.of_nat i <? n then rd buf (Z.of_nat i + from) else x) buf.

(** The [n] values [vals] written into [dst] from offset [from] on. *)
Definition v_put (dst : list R) (from : Z) (vals : list R) (n : Z) : list R :=
  imap (fun i x =>
          if (from <=? Z.of_nat i) && (Z.of_nat i <? from + n)
          then rd vals (Z.of_nat i - from) else x) dst.

Section Synthesis.

(** The collaborators of [synthesiseChannel], which are outside this
    file (section 6): [windowScaleFactor k] and [synthesisWindowSize k]
    are those of the scale data of size [k];
    [polar_to_cartesian mag phase n] gives the [n] real and the [n]
    imaginary parts that [v_polar_to_cartesian] writes for the [n]
    magnitudes and phases it is handed; [inverse k re im] is the
    time-domain frame [fft.inverse] fills in; [cutAndAdd k src dst] is
    what [synthesisWindow.cutAndAdd(src, dst)] leaves from [dst] on.
    [m_scaleData] holds a window and an FFT for every size of
    [cd->scales]. *)
Variable windowScaleFactor : Z -> R.
Variable synthesisWindowSize : Z -> Z.
Variable polar_to_cartesian : list R -> list R -> Z -> list R * list R.
Variable inverse : Z -> list R -> list R -> list R.
Variable cutAndAdd : Z -> list R -> list R -> list R.

(** The body of the loop over the bands of the guidance (lines
    1174-1231), on the scale of the band. *)
Definition synthesise_band (sampleRate : R) (longest outhop : Z)
    (band : FftBand) (scale : ChannelScaleData) : Result ChannelScaleData :=
  let k := fftSize band in
  let scale :=
    set_prevMag (v_copy (prevMag scale) (mag scale) (bufSize scale)) scale in
  winscale <- ddiv (IZR outhop) (windowScaleFactor k) ;;
  let lowBin := binForFrequency (band_f0 band) k sampleRate in
  let highBin := binForFrequency (band_f1 band) k sampleRate in
  let highBin :=
    if (Z.rem highBin 2 =? 0) && (0 <? highBin) then highBin - 1
    else highBin in
  let scale :=
    if 0 <? lowBin
    then set_real_imag (v_zero (real scale) 0 lowBin)
           (v_zero (imag scale) 0 lowBin) scale
    else scale in
  let scale :=
    set_mag (v_scale (mag scale) lowBin winscale (highBin - lowBin)) scale in
  let ri :=
    polar_to_cartesian (drop (Z.to_nat lowBin) (mag scale))
      (drop (Z.to_nat lowBin) (advancedPhase scale)) (highBin - lowBin) in
  let scale :=
    set_real_imag (v_put (real scale) lowBin (fst ri) (highBin - lowBin))
      (v_put (imag scale) lowBin (snd ri) (highBin - lowBin)) scale in
  let scale :=
    if highBin <? bufSize scale
    then set_real_imag
           (v_zero (real scale) highBin (bufSize scale - highBin))
           (v_zero (imag scale) highBin (bufSize scale - highBin)) scale
    else scale in
  let scale :=
    set_timeDomain (v_fftshift (inverse k (real scale) (imag scale)) k)
      scale in
  let synthesisWindowSize := synthesisWindowSize k in
  let fromOffset := Z.quot (k - synthesisWindowSize) 2 in
  let toOffset := Z.quot (longest - synthesisWindowSize) 2 in
  Fin (set_accumulator
         (take (Z.to_nat toOffset) (accumulator scale)
          ++ cutAndAdd k (drop (Z.to_nat fromOffset) (timeDomain scale))
               (drop (Z.to_nat toOffset) (accumulator scale)))%list
         scale).

(** [for (const auto &band : cd->guidance.fftBands)] (lines 1173-1232);
    [scales.at] throws when the band has no scale. *)
Definition synthesise_bands (sampleRate : R) (longest outhop : Z)
    (bands : list FftBand) (m : gmap Z ChannelScaleData)
  : Result (gmap Z ChannelScaleData) :=
  foldl (fun r band =>
           m <- r ;;
           match m !! fftSize band with
           | None => Thrown
           | Some scale =>
             scale' <- synthesise_band sampleRate longest outhop band scale ;;
             Fin (<[fftSize band := scale']> m)
           end)
        (Fin m) bands.

End Synthesis.

(** Lines 1243-1245: the head of an accumulator is added to the
    mixdown. *)
Definition mix_in (outhop : Z) (mixdown acc : list R) : list R :=
  imap (fun i x =>
          if Z.of_nat i <? outhop then (x + rd acc (Z.of_nat i))%R else x)
       mixdown.

(** Lines 1247-1261: the accumulator moves along by the output hop and
    the fill counter follows; the entries logged come second. *)
Definition advance_scale (outhop : Z) (draining : bool)
    (scale : ChannelScaleData) : ChannelScaleData * list LogEntry :=
  let acc := accumulator scale in
  let n := Z.of_nat (length acc) - outhop in
  let acc := v_zero (v_move acc outhop n) n outhop in
  let scale := set_accumulator acc scale in
  if draining then
    if outhop <? accumulatorFill scale then
      (set_accumulatorFill (accumulatorFill scale - outhop) scale,
       [mkLogEntry 2 "draining: reducing accumulatorFill from, to"])
    else (set_accumulatorFill 0 scale, [])
  else (set_accumulatorFill (Z.of_nat (length acc)) scale, []).

(** [for (auto &it : cd->scales)] (lines 1239-1262), in the ascending
    order of the FFT sizes: the mixdown, the log and the scales. *)
Definition mix_scales (outhop : Z) (draining : bool) (mixdown : list R)
    (lg : list LogEntry) (m : gmap Z ChannelScaleData)
  : list R * list LogEntry * gmap Z ChannelScaleData :=
  foldl (fun st k =>
           match snd st !! k with
           | Some scale =>
             (mix_in outhop (fst (fst st)) (accumulator scale),
              (snd (fst st) ++ snd (advance_scale outhop draining scale))%list,
              <[k := fst (advance_scale outhop draining scale)]> (snd st))
           | None => st
           end)
        (mixdown, lg, m) (scale_sizes m).

Section SynthesisChannel.

Variable windowScaleFactor : Z -> R.
Variable synthesisWindowSize : Z -> Z.
Variable polar_to_cartesian : list R -> list R -> Z -> list R * list R.
Variable inverse : Z -> list R -> list R -> list R.
Variable cutAndAdd : Z -> list R -> list R -> list R.

(** [R3Stretcher::synthesiseChannel] (lines 1166-1263) for channel
    [c]. *)
Definition synthesiseChannel (c : nat) (outhop : Z) (draining : bool)
    (s : R3Stretcher) : Result R3Stretcher :=
  let longest := longestFftSize (m_guideConfiguration s) in
  match m_channelData s !! c with
  | None => Thrown
  | Some cd =>
    m <- synthesise_bands windowScaleFactor synthesisWindowSize
           polar_to_cartesian inverse cutAndAdd
           (sampleRate (m_parameters s)) longest outhop
           (fftBands (guidance cd)) (scales cd) ;;
    let mixed :=
      mix_scales outhop draining (v_zero (mixdown cd) 0 outhop) (m_log s) m in
    Fin (set_m_log (snd (fst mixed))
           (set_m_channelData
              (<[c := set_mixdown_resampled (fst (fst mixed)) (resampled cd)
                        (set_scales (snd mixed) cd)]> (m_channelData s))
              s))
  end.

End SynthesisChannel.


(** A scale of FFT size 4 whose accumulator holds 1, 2, 3, 4 with three
    samples still to be emitted. *)
Definition scale_mixing : ChannelScaleData :=
  set_accumulatorFill 3
    (set_accumulator [1; 2; 3; 4]%R (ChannelScaleData_new 4 4)).


(** The members of a scale that the synthesis of a frame leaves alone:
    the buffer size, the phases, the advanced phases and the pending
    kick. *)
Definition synthesis_keeps (sc sc' : ChannelScaleData) : Prop :=
  bufSize sc' = bufSize sc /\ phase sc' = phase sc /\
  advancedPhase sc' = advancedPhase sc /\
  pendingKick sc' = pendingKick sc.


(** Stand-ins for the collaborators of the synthesis, to run it on an
    example: a window scale factor of 1, synthesis windows as long as
    the frame, and transforms and a window that add nothing. *)
Definition example_windowScaleFactor (k : Z) : R := 1%R.

Definition example_synthesisWindowSize (k : Z) : Z := k.

Definition example_polar_to_cartesian (mag phase : list R) (n : Z)
  : list R * list R := (mag, phase).

Definition example_inverse (k : Z) (re im : list R) : list R := zeros k.

Definition example_cutAndAdd (k : Z) (src dst : list R) : list R := dst.

(** [channel_C9] with guidance that has one band, at FFT size 16, and
    an engine that holds it. *)
Definition channel_synthesis : ChannelData :=
  set_guidance
    (mkGuidance [mkFftBand 16 0 24000] (mkRange false 0 0)
       (mkRange false 0 0))
    channel_C9.

Definition engine_synthesising : R3Stretcher :=
  set_m_channelData [channel_synthesis] engine_processing.


(** The calls that belong to offline mode: [study] and
    [setKeyFrameMap]. *)
Definition is_offline_only (call : Call) : bool :=
  match call with
  | CallStudy _ | CallSetKeyFrameMap _ => true
  | _ => false
  end.

(** * Statements and proofs *)

(** ** Tactics *)

(** Case analysis on every comparison of reals in sight. *)
Ltac case_Rdec :=
  repeat match goal with
         | |- context [Rlt_dec ?a ?b] => destruct (Rlt_dec a b)
         | |- context [Rgt_dec ?a ?b] => destruct (Rgt_dec a b)
         | |- context [Rle_dec ?a ?b] => destruct (Rle_dec a b)
         | H : context [Rlt_dec ?a ?b] |- _ => destruct (Rlt_dec a b)
         | H : context [Rgt_dec ?a ?b] |- _ => destruct (Rgt_dec a b)
         | H : context [Rle_dec ?a ?b] |- _ => destruct (Rle_dec a b)
         end.

(** ** Hop scheduling (C1) *)

Section HopScheduling.

Local Open Scope R_scope.

Lemma log_fields (lvl : Z) (msg : string) (s : R3Stretcher) :
  m_inhop (log lvl msg s) = m_inhop s /\
  m_timeRatio (log lvl msg s) = m_timeRatio s /\
  m_pitchScale (log lvl msg s) = m_pitchScale s /\
  m_mode (log lvl msg s) = m_mode s /\
  m_channelData (log lvl msg s) = m_channelData s.
Proof. repeat split. Qed.

(** The two clamps of [calculateHop] are the clamp to an interval. *)
Lemma clamp_cascade (lo hi x : R) :
  lo <= hi ->
  (let y := if Rgt_dec x hi then hi else x in
   if Rlt_dec y lo then lo else y) = clamp lo hi x.
Proof.
  intros Hlh. unfold clamp, Rmax, Rmin. cbv zeta. case_Rdec; lra.
Qed.

Lemma clamp_bounds (lo hi x : R) :
  lo <= hi -> lo <= clamp lo hi x <= hi.
Proof.
  intros Hlh. unfold clamp, Rmax, Rmin. case_Rdec; lra.
Qed.

(** What [calculateHop] stores, for a positive effective ratio. *)
Lemma calculateHop_inhop (s : R3Stretcher) :
  0 < getEffectiveRatio s ->
  exists s', calculateHop s = Fin s' /\
    m_inhop s' = inhop_spec (getEffectiveRatio s) /\
    m_timeRatio s' = m_timeRatio s /\
    m_pitchScale s' = m_pitchScale s /\
    m_mode s' = m_mode s /\
    m_channelData s' = m_channelData s.
Proof.
  intros Hr. unfold calculateHop.
  set (ratio := getEffectiveRatio s) in *.
  assert (Hp : (if Rgt_dec ratio 1.5
                then l <- log10 (ratio - 0.5) ;; Fin (pow 2 (8 + 2 * l))
                else if Rlt_dec ratio 1
                     then l <- log10 ratio ;; Fin (pow 2 (8 + 2 * l))
                     else Fin 256) = Fin (proposed_outhop_spec ratio)).
  { unfold proposed_outhop_spec, log10, pow.
    destruct (Rgt_dec ratio 1.5) as [Hg | Hg].
    - destruct (Rlt_dec 0 (ratio - 0.5)); [| lra]. simpl.
      destruct (Rle_dec 1 ratio); [| lra].
      destruct (Rle_dec ratio 1.5); [lra | reflexivity].
    - destruct (Rlt_dec ratio 1) as [Hl | Hl].
      + destruct (Rlt_dec 0 ratio); [| lra]. simpl.
        destruct (Rle_dec 1 ratio); [lra | reflexivity].
      + destruct (Rle_dec 1 ratio); [| lra].
        destruct (Rle_dec ratio 1.5); [reflexivity | lra]. }
  rewrite Hp. cbn [bind].
  pose proof (clamp_cascade 128 512 (proposed_outhop_spec ratio)) as Hc.
  cbv zeta in Hc. rewrite Hc by lra. clear Hc.
  set (p := clamp 128 512 (proposed_outhop_spec ratio)).
  unfold ddiv. destruct (Req_dec_T ratio 0) as [Hz | Hz]; [lra |]. cbn [bind].
  unfold inhop_spec. fold p.
  assert (Hi : clamp 1 1024 (p / ratio) =
               (let y := if Rlt_dec (p / ratio) 1 then 1 else p / ratio in
                if Rgt_dec y 1024 then 1024 else y)).
  { generalize (p / ratio). intros x.
    unfold clamp, Rmax, Rmin. cbv zeta. case_Rdec; lra. }
  rewrite Hi. cbv zeta.
  destruct (Rlt_dec (p / ratio) 1); destruct (Rgt_dec _ 1024);
    eexists; (split; [reflexivity |]); repeat split.
Qed.


End HopScheduling.




(** ** Buffers *)

Section Buffers.

Local Open Scope R_scope.

Lemma length_wr (l : list R) (i : Z) (v : R) : length (wr l i v) = length l.
Proof. unfold wr. destruct (i <? 0)%Z; [reflexivity | apply length_insert]. Qed.

Lemma rd_wr_eq (l : list R) (i : Z) (v : R) :
  (0 <= i < Z.of_nat (length l))%Z -> rd (wr l i v) i = v.
Proof.
  intros Hi. unfold rd, wr.
  destruct (Z.ltb_spec i 0); [lia |].
  rewrite nth_lookup, list_lookup_insert_eq by lia. reflexivity.
Qed.

Lemma rd_wr_ne (l : list R) (i j : Z) (v : R) :
  i <> j -> rd (wr l i v) j = rd l j.
Proof.
  intros Hij. unfold rd, wr.
  destruct (Z.ltb_spec j 0); [reflexivity |].
  destruct (Z.ltb_spec i 0); [reflexivity |].
  rewrite !nth_lookup, list_lookup_insert_ne by lia. reflexivity.
Qed.

Lemma seqZ_succ (from : Z) (n : nat) :
  seqZ from (Z.of_nat (S n)) = from :: seqZ (from + 1) (Z.of_nat n).
Proof.
  rewrite seqZ_cons by lia. f_equal. f_equal; lia.
Qed.

End Buffers.

(** ** The transient deferrer (C4) *)

Section TransientDeferrer.

Local Open Scope R_scope.

Lemma same_but_refl (sc : ChannelScaleData) : same_but_mag_pending sc sc.
Proof. destruct sc; repeat split. Qed.

Lemma same_but_trans (a b c : ChannelScaleData) :
  same_but_mag_pending a b -> same_but_mag_pending b c ->
  same_but_mag_pending a c.
Proof.
  intros (Hab & H1 & H2) (Hbc & H3 & H4). repeat split; try congruence.
  rewrite Hbc at 1. rewrite Hab. reflexivity.
Qed.

Lemma same_but_prevMag (sc sc' : ChannelScaleData) :
  same_but_mag_pending sc sc' -> prevMag sc' = prevMag sc.
Proof. intros (H & _). rewrite H. reflexivity. Qed.

(** One turn of the pre-kick loop. *)
Lemma preKick_bin_spec (sc : ChannelScaleData) (i : Z) :
  (0 <= i < Z.of_nat (length (mag sc)))%Z ->
  (0 <= i < Z.of_nat (length (pendingKick sc)))%Z ->
  let diff := rd (mag sc) i - rd (prevMag sc) i in
  let sc' := preKick_bin sc i in
  same_but_mag_pending sc sc' /\
  (diff > 0 -> rd (pendingKick sc') i = diff /\
               rd (mag sc') i = rd (mag sc) i - diff) /\
  (~ diff > 0 -> sc' = sc) /\
  (forall j, j <> i -> rd (mag sc') j = rd (mag sc) j /\
                       rd (pendingKick sc') j = rd (pendingKick sc) j).
Proof.
  intros Hm Hp diff sc'. subst sc'. unfold preKick_bin. fold diff.
  destruct (Rgt_dec diff 0) as [Hd | Hd].
  - split.
    { destruct sc; repeat split; simpl; apply length_wr. }
    split.
    { intros _. simpl. rewrite !rd_wr_eq by assumption. split; reflexivity. }
    split; [intros Hn; contradiction |].
    intros j Hj. simpl. rewrite !rd_wr_ne by congruence. split; reflexivity.
  - split; [apply same_but_refl |]. split; [intros; contradiction |].
    split; [reflexivity |]. intros; split; reflexivity.
Qed.

(** What the pre-kick loop leaves at every bin. *)
Lemma preKick_loop (n : nat) :
  forall (from : Z) (sc : ChannelScaleData),
    (0 <= from)%Z ->
    (from + Z.of_nat n <= Z.of_nat (length (mag sc)))%Z ->
    (from + Z.of_nat n <= Z.of_nat (length (pendingKick sc)))%Z ->
    let sc' := foldl preKick_bin sc (seqZ from (Z.of_nat n)) in
    same_but_mag_pending sc sc' /\
    forall i,
      let diff := rd (mag sc) i - rd (prevMag sc) i in
      ((from <= i < from + Z.of_nat n)%Z /\ diff > 0 ->
         rd (pendingKick sc') i = diff /\
         rd (mag sc') i = rd (mag sc) i - diff) /\
      (~ ((from <= i < from + Z.of_nat n)%Z /\ diff > 0) ->
         rd (pendingKick sc') i = rd (pendingKick sc) i /\
         rd (mag sc') i = rd (mag sc) i).
Proof.
  induction n as [| n IH]; intros from sc Hf Hm Hp; cbv zeta.
  - simpl. split; [apply same_but_refl |].
    intros i. split; [intros [? _]; lia | intros _; split; reflexivity].
  - rewrite seqZ_succ. cbn [foldl].
    destruct (preKick_bin_spec sc from ltac:(lia) ltac:(lia))
      as (Hs1 & Hpos & Hneg & Hoth).
    set (sc1 := preKick_bin sc from) in *.
    destruct Hs1 as (Heq1 & Hl1 & Hl2).
    destruct (IH (from + 1)%Z sc1 ltac:(lia) ltac:(lia) ltac:(lia))
      as (Hs2 & Hbins).
    split.
    { eapply same_but_trans; [| exact Hs2]. repeat split; assumption. }
    intros i. set (diff := rd (mag sc) i - rd (prevMag sc) i).
    assert (Hpm : prevMag sc1 = prevMag sc) by (rewrite Heq1; reflexivity).
    destruct (Z.eq_dec i from) as [-> | Hne].
    + destruct (Hbins from) as [_ Hout].
      destruct Hout as [Hpk Hmg]; [intros [? _]; lia |].
      rewrite Hpk, Hmg. split.
      * intros [_ Hd]. apply Hpos. exact Hd.
      * intros Hn. assert (Hd : ~ diff > 0) by (intros Hd; apply Hn; split; [lia | exact Hd]).
        rewrite (Hneg Hd). split; reflexivity.
    + destruct (Hoth i Hne) as [Hm1 Hp1].
      destruct (Hbins i) as [Hin Hout]. rewrite Hpm, Hm1 in Hin, Hout.
      fold diff in Hin, Hout. split.
      * intros [Hr Hd]. destruct Hin as [Ha Hb]; [split; [lia | exact Hd] |].
        rewrite Ha, Hb. split; reflexivity.
      * intros Hn. destruct Hout as [Ha Hb].
        { intros [Hr Hd]. apply Hn. split; [lia | exact Hd]. }
        rewrite Ha, Hb, Hp1. split; reflexivity.
Qed.

(** One turn of the kick loop. *)
Lemma kick_bin_spec (sc : ChannelScaleData) (i : Z) :
  (0 <= i < Z.of_nat (length (mag sc)))%Z ->
  (0 <= i < Z.of_nat (length (pendingKick sc)))%Z ->
  let sc' := kick_bin sc i in
  same_but_mag_pending sc sc' /\
  rd (mag sc') i = rd (mag sc) i + rd (pendingKick sc) i /\
  rd (pendingKick sc') i = 0 /\
  (forall j, j <> i -> rd (mag sc') j = rd (mag sc) j /\
                       rd (pendingKick sc') j = rd (pendingKick sc) j).
Proof.
  intros Hm Hp sc'. subst sc'. unfold kick_bin. split.
  { destruct sc; repeat split; simpl; apply length_wr. }
  simpl. rewrite !rd_wr_eq by assumption.
  split; [reflexivity |]. split; [reflexivity |].
  intros j Hj. rewrite !rd_wr_ne by congruence. split; reflexivity.
Qed.

(** What the kick loop leaves at every bin. *)
Lemma kick_loop (n : nat) :
  forall (from : Z) (sc : ChannelScaleData),
    (0 <= from)%Z ->
    (from + Z.of_nat n <= Z.of_nat (length (mag sc)))%Z ->
    (from + Z.of_nat n <= Z.of_nat (length (pendingKick sc)))%Z ->
    let sc' := foldl kick_bin sc (seqZ from (Z.of_nat n)) in
    same_but_mag_pending sc sc' /\
    forall i,
      ((from <= i < from + Z.of_nat n)%Z ->
         rd (mag sc') i = rd (mag sc) i + rd (pendingKick sc) i /\
         rd (pendingKick sc') i = 0) /\
      (~ (from <= i < from + Z.of_nat n)%Z ->
         rd (mag sc') i = rd (mag sc) i /\
         rd (pendingKick sc') i = rd (pendingKick sc) i).
Proof.
  induction n as [| n IH]; intros from sc Hf Hm Hp; cbv zeta.
  - simpl. split; [apply same_but_refl |].
    intros i. split; [intros ?; lia | intros _; split; reflexivity].
  - rewrite seqZ_succ. cbn [foldl].
    destruct (kick_bin_spec sc from ltac:(lia) ltac:(lia))
      as (Hs1 & Hmg & Hpk & Hoth).
    set (sc1 := kick_bin sc from) in *.
    destruct Hs1 as (Heq1 & Hl1 & Hl2).
    destruct (IH (from + 1)%Z sc1 ltac:(lia) ltac:(lia) ltac:(lia))
      as (Hs2 & Hbins).
    split.
    { eapply same_but_trans; [| exact Hs2]. repeat split; assumption. }
    intros i. destruct (Z.eq_dec i from) as [-> | Hne].
    + destruct (Hbins from) as [_ Hout].
      destruct Hout as [Ha Hb]; [lia |]. rewrite Ha, Hb. split.
      * intros _. split; assumption.
      * intros Hn. lia.
    + destruct (Hoth i Hne) as [Hm1 Hp1].
      destruct (Hbins i) as [Hin Hout]. rewrite Hm1, Hp1 in Hin, Hout. split.
      * intros Hr. apply Hin. lia.
      * intros Hn. apply Hout. lia.
Qed.

End TransientDeferrer.

Section TransientDeferrerClaims.

Local Open Scope R_scope.

Lemma in_buffer_true (from to : Z) (l : list R) :
  in_buffer from to l = true ->
  (to < from)%Z \/ (0 <= from)%Z /\ (to < Z.of_nat (length l))%Z.
Proof. unfold in_buffer. intros H. lia. Qed.

Lemma for_bins_preKick (from to : Z) (sc : ChannelScaleData) :
  in_buffer from to (mag sc) = true ->
  in_buffer from to (pendingKick sc) = true ->
  same_but_mag_pending sc (for_bins from to preKick_bin sc) /\
  forall i,
    ((from <= i <= to)%Z /\ rd (mag sc) i - rd (prevMag sc) i > 0 ->
       rd (pendingKick (for_bins from to preKick_bin sc)) i
         = rd (mag sc) i - rd (prevMag sc) i /\
       rd (mag (for_bins from to preKick_bin sc)) i
         = rd (mag sc) i - (rd (mag sc) i - rd (prevMag sc) i)) /\
    (~ ((from <= i <= to)%Z /\ rd (mag sc) i - rd (prevMag sc) i > 0) ->
       rd (pendingKick (for_bins from to preKick_bin sc)) i
         = rd (pendingKick sc) i /\
       rd (mag (for_bins from to preKick_bin sc)) i = rd (mag sc) i).
Proof.
  intros Hm Hp. unfold for_bins.
  apply in_buffer_true in Hm, Hp.
  destruct (Z.lt_ge_cases to from) as [He | Hne].
  - rewrite seqZ_nil by lia. simpl. split; [apply same_but_refl |].
    intros i. split; [intros [? _]; lia | intros _; split; reflexivity].
  - replace (to - from + 1)%Z with (Z.of_nat (Z.to_nat (to - from + 1))) by lia.
    pose proof (preKick_loop (Z.to_nat (to - from + 1)) from sc
                  ltac:(lia) ltac:(lia) ltac:(lia)) as [Hs Hb].
    cbv zeta in Hs, Hb. split; [exact Hs |].
    intros i. destruct (Hb i) as [Hin Hout]. split.
    + intros [Hr Hd]. apply Hin. split; [lia | exact Hd].
    + intros Hn. apply Hout. intros [Hr Hd]. apply Hn. split; [lia | exact Hd].
Qed.

Lemma for_bins_kick (from to : Z) (sc : ChannelScaleData) :
  in_buffer from to (mag sc) = true ->
  in_buffer from to (pendingKick sc) = true ->
  same_but_mag_pending sc (for_bins from to kick_bin sc) /\
  forall i,
    ((from <= i <= to)%Z ->
       rd (mag (for_bins from to kick_bin sc)) i
         = rd (mag sc) i + rd (pendingKick sc) i /\
       rd (pendingKick (for_bins from to kick_bin sc)) i = 0) /\
    (~ (from <= i <= to)%Z ->
       rd (mag (for_bins from to kick_bin sc)) i = rd (mag sc) i /\
       rd (pendingKick (for_bins from to kick_bin sc)) i
         = rd (pendingKick sc) i).
Proof.
  intros Hm Hp. unfold for_bins.
  apply in_buffer_true in Hm, Hp.
  destruct (Z.lt_ge_cases to from) as [He | Hne].
  - rewrite seqZ_nil by lia. simpl. split; [apply same_but_refl |].
    intros i. split; [intros ?; lia | intros _; split; reflexivity].
  - replace (to - from + 1)%Z with (Z.of_nat (Z.to_nat (to - from + 1))) by lia.
    pose proof (kick_loop (Z.to_nat (to - from + 1)) from sc
                  ltac:(lia) ltac:(lia) ltac:(lia)) as [Hs Hb].
    cbv zeta in Hs, Hb. split; [exact Hs |].
    intros i. destruct (Hb i) as [Hin Hout]. split.
    + intros Hr. apply Hin. lia.
    + intros Hn. apply Hout. lia.
Qed.

Lemma set_scales_id (cd : ChannelData) (k : Z) (sc : ChannelScaleData) :
  scales cd !! k = Some sc -> set_scales (<[k := sc]> (scales cd)) cd = cd.
Proof. intros H. rewrite insert_id by exact H. destruct cd; reflexivity. Qed.

(** C4: the transient deferrer works on the scale of the first guidance
    band, [fftBands[0].fftSize].  With [preKick] present, every bin [i] in
    [[bin(preKick.f0), bin(preKick.f1)]] whose magnitude exceeds the
    previous one gets [pendingKick[i] = mag[i] - prevMag[i]] and has that
    difference subtracted from [mag[i]]; every other bin is left as it
    was.  Otherwise, with [kick] present, every bin of the range derived
    from [preKick.f0] and [preKick.f1] gets [pendingKick[i]] added to
    [mag[i]] and [pendingKick[i]] cleared; with neither, nothing changes.
    Nothing but [mag] and [pendingKick] of that scale is written. *)
Theorem C4_adjustPreKick (sampleRate : R) (cd : ChannelData)
    (band0 : FftBand) (rest : list FftBand) (sc : ChannelScaleData) :
  fftBands (guidance cd) = band0 :: rest ->
  scales cd !! fftSize band0 = Some sc ->
  (forall l, In l [mag sc; prevMag sc; pendingKick sc] ->
     in_buffer
       (binForFrequency (f0 (preKick (guidance cd))) (fftSize band0) sampleRate)
       (binForFrequency (f1 (preKick (guidance cd))) (fftSize band0) sampleRate)
       l = true) ->
  exists sc',
    adjustPreKick sampleRate cd
      = Some (set_scales (<[fftSize band0 := sc']> (scales cd)) cd) /\
    same_but_mag_pending sc sc' /\
    let from := round (f0 (preKick (guidance cd)) * IZR (fftSize band0)
                       / sampleRate) in
    let to := round (f1 (preKick (guidance cd)) * IZR (fftSize band0)
                     / sampleRate) in
    (present (preKick (guidance cd)) = true ->
     forall i,
       ((from <= i <= to)%Z /\ rd (mag sc) i - rd (prevMag sc) i > 0 ->
          rd (pendingKick sc') i = rd (mag sc) i - rd (prevMag sc) i /\
          rd (mag sc') i
            = rd (mag sc) i - (rd (mag sc) i - rd (prevMag sc) i)) /\
       (~ ((from <= i <= to)%Z /\ rd (mag sc) i - rd (prevMag sc) i > 0) ->
          rd (pendingKick sc') i = rd (pendingKick sc) i /\
          rd (mag sc') i = rd (mag sc) i)) /\
    (present (preKick (guidance cd)) = false ->
     present (kick (guidance cd)) = true ->
     forall i,
       ((from <= i <= to)%Z ->
          rd (mag sc') i = rd (mag sc) i + rd (pendingKick sc) i /\
          rd (pendingKick sc') i = 0) /\
       (~ (from <= i <= to)%Z ->
          rd (mag sc') i = rd (mag sc) i /\
          rd (pendingKick sc') i = rd (pendingKick sc) i)) /\
    (present (preKick (guidance cd)) = false ->
     present (kick (guidance cd)) = false -> sc' = sc).
Proof.
  intros Hb Hsc Hin. unfold adjustPreKick. rewrite Hb.
  fold (binForFrequency (f0 (preKick (guidance cd))) (fftSize band0) sampleRate).
  fold (binForFrequency (f1 (preKick (guidance cd))) (fftSize band0) sampleRate).
  cbv zeta.
  pose proof (Hin (mag sc) ltac:(simpl; tauto)) as Hm.
  pose proof (Hin (prevMag sc) ltac:(simpl; tauto)) as Hpm.
  pose proof (Hin (pendingKick sc) ltac:(simpl; tauto)) as Hp.
  rewrite Hsc, Hm, Hpm, Hp. cbn [andb].
  destruct (present (preKick (guidance cd))) eqn:Hpre.
  - eexists. split; [reflexivity |].
    destruct (for_bins_preKick _ _ sc Hm Hp) as [Hs Hbins].
    split; [exact Hs |]. split; [intros _; exact Hbins |].
    split; intros; discriminate.
  - destruct (present (kick (guidance cd))) eqn:Hk.
    + eexists. split; [reflexivity |].
      destruct (for_bins_kick _ _ sc Hm Hp) as [Hs Hbins].
      split; [exact Hs |]. split; [intros; discriminate |].
      split; [intros _ _; exact Hbins | intros; discriminate].
    + exists sc. split; [rewrite set_scales_id by exact Hsc; reflexivity |].
      split; [apply same_but_refl |].
      split; [intros; discriminate |].
      split; [intros; discriminate | reflexivity].
Qed.

Lemma round_eq (x : R) (z : Z) :
  0 <= x -> IZR z <= x + 0.5 < IZR z + 1 -> round x = z.
Proof.
  intros Hx Hz. unfold round. destruct (Rle_dec 0 x); [| contradiction].
  apply Zfloor_eq. exact Hz.
Qed.

Lemma channel_C4_bins :
  binForFrequency (f0 (preKick (guidance channel_C4))) 1024 48000 = 0%Z /\
  binForFrequency (f1 (preKick (guidance channel_C4))) 1024 48000 = 3%Z.
Proof.
  unfold binForFrequency. simpl. split; apply round_eq; lra.
Qed.

End TransientDeferrerClaims.

(** C4 on [channel_C4]: at bin 1 the rise 5 - 1 = 4 is parked in
    [pendingKick] and taken from [mag]. *)
Lemma C4_witness :
  fftBands (guidance channel_C4) = [mkFftBand 1024 0 24000] /\
  scales channel_C4 !! 1024 = Some scale_C4 /\
  exists sc',
    adjustPreKick 48000 channel_C4
      = Some (set_scales (<[1024 := sc']> (scales channel_C4)) channel_C4) /\
    rd (pendingKick sc') 1 = 4%R /\ rd (mag sc') 1 = (5 - (5 - 1))%R /\
    rd (pendingKick sc') 2 = 0%R /\ rd (mag sc') 2 = 1%R.
Proof.
  assert (Hb : fftBands (guidance channel_C4) = [mkFftBand 1024 0 24000])
    by reflexivity.
  assert (Hs : scales channel_C4 !! fftSize (mkFftBand 1024 0 24000)
               = Some scale_C4) by apply lookup_insert_eq.
  destruct channel_C4_bins as [Hf Ht].
  split; [exact Hb |]. split; [exact Hs |].
  destruct (C4_adjustPreKick 48000 channel_C4 (mkFftBand 1024 0 24000) []
              scale_C4 Hb Hs)
    as (sc' & Ha & _ & Hpre & _).
  - cbn [fftSize]. rewrite Hf, Ht. intros l Hl.
    repeat (destruct Hl as [<- | Hl]; [vm_compute; reflexivity |]).
    destruct Hl.
  - exists sc'. split; [exact Ha |].
    cbv zeta in Hpre. unfold binForFrequency in Hf, Ht.
    cbn [fftSize] in Hpre. rewrite Hf, Ht in Hpre.
    specialize (Hpre eq_refl).
    destruct (Hpre 1%Z) as [H1 _]. destruct (Hpre 2%Z) as [_ H2].
    destruct H1 as [H1a H1b].
    { split; [lia |]. unfold rd. simpl. lra. }
    destruct H2 as [H2a H2b].
    { intros [_ Hd]. unfold rd in Hd. simpl in Hd. lra. }
    rewrite H1a, H1b, H2a, H2b. unfold rd. simpl.
    repeat split; lra.
Defined.

(** ** The pendingKick law (C2) *)

Section PendingKickLaw.

Local Open Scope R_scope.

Variable sampleRate : R.




Lemma covers_inj (g : Guidance) (k k' i i' : Z) :
  covers sampleRate g k i -> covers sampleRate g k' i' -> k = k'.
Proof.
  intros (b & r & Hb & Hk & _) (b' & r' & Hb' & Hk' & _). congruence.
Qed.











End PendingKickLaw.

Section PendingKickExamples.

Local Open Scope R_scope.







End PendingKickExamples.

Section PendingKickRuns.

Local Open Scope R_scope.






End PendingKickRuns.



(** ** Formant adjustment (C3) *)

Section FormantAdjustment.

Local Open Scope R_scope.

Variable envelopeAt : FormantData -> R -> R.

(** The two tests on the ratio are the clamp to [[lo, hi]]. *)
Lemma clamp_cascade_lo_first (lo hi x : R) :
  lo <= hi ->
  (let y := if Rlt_dec x lo then lo else x in
   if Rgt_dec y hi then hi else y) = clamp lo hi x.
Proof.
  intros Hlh. unfold clamp, Rmax, Rmin. cbv zeta. case_Rdec; lra.
Qed.

(** One turn of the inner loop. *)
Lemma formant_bin_spec (f : FormantData) (sf tf : R)
    (sc : ChannelScaleData) (i : Z) :
  (0 <= i < Z.of_nat (length (mag sc)))%Z ->
  formant_bin envelopeAt f sf tf sc i
    = set_mag (mag (formant_bin envelopeAt f sf tf sc i)) sc /\
  length (mag (formant_bin envelopeAt f sf tf sc i)) = length (mag sc) /\
  (envelopeAt f (IZR i * tf) > 0 ->
     rd (mag (formant_bin envelopeAt f sf tf sc i)) i
     = rd (mag sc) i
       * clamp (1 / 60) 60 (envelopeAt f (IZR i * sf) / envelopeAt f (IZR i * tf))) /\
  (~ envelopeAt f (IZR i * tf) > 0 ->
     rd (mag (formant_bin envelopeAt f sf tf sc i)) i = rd (mag sc) i) /\
  (forall j, j <> i ->
     rd (mag (formant_bin envelopeAt f sf tf sc i)) j = rd (mag sc) j).
Proof.
  intros Hi. unfold formant_bin. cbv zeta.
  destruct (Rgt_dec (envelopeAt f (IZR i * tf)) 0) as [Ht | Ht].
  - cbn [mag set_mag]. split; [destruct sc; reflexivity |].
    split; [apply length_wr |]. split.
    + intros _. rewrite rd_wr_eq by exact Hi. f_equal.
      pose proof (clamp_cascade_lo_first (1 / 60) 60
                    (envelopeAt f (IZR i * sf) / envelopeAt f (IZR i * tf))) as Hc.
      cbv zeta in Hc. apply Hc. lra.
    + split; [intros Hn; contradiction |].
      intros j Hj. apply rd_wr_ne. congruence.
  - split; [destruct sc; reflexivity |]. split; [reflexivity |].
    split; [intros; contradiction |]. split; reflexivity.
Qed.

(** What the inner loop leaves at every bin. *)
Lemma formant_loop (f : FormantData) (sf tf : R) (n : nat) :
  forall (from : Z) (sc : ChannelScaleData),
    (0 <= from)%Z ->
    (from + Z.of_nat n <= Z.of_nat (length (mag sc)))%Z ->
    let sc' := foldl (formant_bin envelopeAt f sf tf) sc
                 (seqZ from (Z.of_nat n)) in
    sc' = set_mag (mag sc') sc /\
    length (mag sc') = length (mag sc) /\
    forall i,
      ((from <= i < from + Z.of_nat n)%Z ->
         (envelopeAt f (IZR i * tf) > 0 ->
            rd (mag sc') i
            = rd (mag sc) i
              * clamp (1 / 60) 60
                  (envelopeAt f (IZR i * sf) / envelopeAt f (IZR i * tf))) /\
         (~ envelopeAt f (IZR i * tf) > 0 -> rd (mag sc') i = rd (mag sc) i)) /\
      (~ (from <= i < from + Z.of_nat n)%Z -> rd (mag sc') i = rd (mag sc) i).
Proof.
  induction n as [| n IH]; intros from sc Hf Hm; cbv zeta.
  - simpl. split; [destruct sc; reflexivity |]. split; [reflexivity |].
    intros i. split; [intros ?; lia | reflexivity].
  - rewrite seqZ_succ. cbn [foldl].
    destruct (formant_bin_spec f sf tf sc from ltac:(lia))
      as (Heq1 & Hl1 & Hpos & Hneg & Hoth).
    set (sc1 := formant_bin envelopeAt f sf tf sc from) in *.
    destruct (IH (from + 1)%Z sc1 ltac:(lia) ltac:(lia)) as (Heq2 & Hl2 & Hbins).
    cbv zeta in Heq2, Hl2, Hbins.
    set (sc2 := foldl (formant_bin envelopeAt f sf tf) sc1
                  (seqZ (from + 1) (Z.of_nat n))) in *.
    split; [rewrite Heq2 at 1; rewrite Heq1; reflexivity |].
    split; [congruence |].
    intros i. destruct (Z.eq_dec i from) as [-> | Hne].
    + destruct (Hbins from) as [_ Hout]. rewrite Hout by lia.
      split; [intros _; split; assumption | intros ?; lia].
    + destruct (Hbins i) as [Hin Hout]. rewrite (Hoth i Hne) in Hin, Hout.
      split; [intros Hr; apply Hin; lia | intros Hn; apply Hout; lia].
Qed.

(** The loop over the band limits runs the inner loop for the bands of
    the scale's FFT size. *)
Lemma fold_bands (A : Type) (F : A -> BandLimits -> A) (k : Z)
    (limits : list BandLimits) :
  forall a : A,
    foldl (fun a b => if (bl_fftSize b =? k)%Z then F a b else a) a limits
    = foldl F a (filter (fun b => bl_fftSize b = k) limits).
Proof.
  induction limits as [| b limits IH]; intros a; [reflexivity |].
  cbn [foldl]. rewrite filter_cons.
  destruct (Z.eqb_spec (bl_fftSize b) k) as [He | Hne].
  - rewrite decide_True by exact He. cbn [foldl]. apply IH.
  - rewrite decide_False by exact Hne. apply IH.
Qed.

(** What [adjustFormant] does to a scale with one band-limit entry. *)
Lemma adjustFormant_scale_spec (s : R3Stretcher) (f : FormantData) (k : Z)
    (sc : ChannelScaleData) (b : BandLimits) :
  filter (fun b => bl_fftSize b = k)
    (fftBandLimits (m_guideConfiguration s)) = [b] ->
  (0 <= b0min b)%Z ->
  (Z.min (b1max b) (Zfloor (IZR k * 10000 / sampleRate (m_parameters s)))
     <= Z.of_nat (length (mag sc)))%Z ->
  let highBin := Zfloor (IZR k * 10000 / sampleRate (m_parameters s)) in
  let targetFactor := IZR (fd_fftSize f) / IZR k in
  let sourceFactor :=
    targetFactor / (if Req_dec_T (m_formantScale s) 0
                    then 1 / m_pitchScale s else m_formantScale s) in
  let sc' := adjustFormant_scale envelopeAt s f k sc in
  sc' = set_mag (mag sc') sc /\
  length (mag sc') = length (mag sc) /\
  forall i,
    ((b0min b <= i < Z.min (b1max b) highBin)%Z ->
       (envelopeAt f (IZR i * targetFactor) > 0 ->
          rd (mag sc') i
          = rd (mag sc) i
            * clamp (1 / 60) 60
                (envelopeAt f (IZR i * sourceFactor)
                 / envelopeAt f (IZR i * targetFactor))) /\
       (~ envelopeAt f (IZR i * targetFactor) > 0 ->
          rd (mag sc') i = rd (mag sc) i)) /\
    (~ (b0min b <= i < Z.min (b1max b) highBin)%Z ->
       rd (mag sc') i = rd (mag sc) i).
Proof.
  intros Hb H0 Hlen. cbv zeta. unfold adjustFormant_scale. cbv zeta.
  rewrite (fold_bands ChannelScaleData
             (fun scale b0 => foldl (formant_bin envelopeAt f _ _) scale
                                (formant_bins b0 _)) k).
  rewrite Hb. cbn [foldl]. unfold formant_bins.
  set (highBin := Zfloor (IZR k * 10000 / sampleRate (m_parameters s))) in *.
  destruct (Z.le_gt_cases (Z.min (b1max b) highBin) (b0min b)) as [He | Hne].
  - rewrite seqZ_nil by lia. cbn [foldl].
    split; [destruct sc; reflexivity |]. split; [reflexivity |].
    intros i. split; [intros ?; lia | reflexivity].
  - replace (Z.min (b1max b) highBin - b0min b)%Z
      with (Z.of_nat (Z.to_nat (Z.min (b1max b) highBin - b0min b))) by lia.
    match goal with
    | |- context [formant_bin envelopeAt f ?sf ?tf] =>
        pose proof (formant_loop f sf tf
                      (Z.to_nat (Z.min (b1max b) highBin - b0min b))
                      (b0min b) sc H0 ltac:(lia)) as (Heq & Hl & Hbins)
    end.
    cbv zeta in Heq, Hl, Hbins. split; [exact Heq |]. split; [exact Hl |].
    intros i. destruct (Hbins i) as [Hin Hout].
    split; [intros Hr; apply Hin; lia | intros Hn; apply Hout; lia].
Qed.

End FormantAdjustment.

Section FormantClaim.

Local Open Scope R_scope.

Variable envelopeAt : FormantData -> R -> R.

(** C3, as amended: [adjustFormant] (which [analyseChannel] calls when
    OptionFormantPreserved is set) multiplies, for each scale [k] and
    each bin [i] of the half-open range
    [b0min <= i < min(b1max, floor(k * 10000 / sampleRate))], [mag[i]] by
    the ratio [envelope(i * sourceFactor) / envelope(i * targetFactor)]
    clamped to [[1/60, 60]], where [targetFactor = F / k] and
    [sourceFactor = targetFactor / formantScale_eff] with
    [formantScale_eff] the formant scale if nonzero and [1 / pitchScale]
    otherwise; the bin is left alone when the target envelope value is
    not positive, and no bin outside that range, nor any other field of
    the scale, is modified. *)
Theorem C3_adjustFormant_half_open (s : R3Stretcher) (cd : ChannelData)
    (k : Z) (sc : ChannelScaleData) (b : BandLimits) :
  scales cd !! k = Some sc ->
  filter (fun b => bl_fftSize b = k)
    (fftBandLimits (m_guideConfiguration s)) = [b] ->
  (0 <= b0min b)%Z ->
  (Z.min (b1max b) (Zfloor (IZR k * 10000 / sampleRate (m_parameters s)))
     <= Z.of_nat (length (mag sc)))%Z ->
  let highBin := Zfloor (IZR k * 10000 / sampleRate (m_parameters s)) in
  let targetFactor := IZR (fd_fftSize (formant cd)) / IZR k in
  let sourceFactor :=
    targetFactor / (if Req_dec_T (m_formantScale s) 0
                    then 1 / m_pitchScale s else m_formantScale s) in
  exists sc',
    scales (adjustFormant envelopeAt s cd) !! k = Some sc' /\
    sc' = set_mag (mag sc') sc /\
    length (mag sc') = length (mag sc) /\
    forall i,
      ((b0min b <= i < Z.min (b1max b) highBin)%Z ->
         (envelopeAt (formant cd) (IZR i * targetFactor) > 0 ->
            rd (mag sc') i
            = rd (mag sc) i
              * clamp (1 / 60) 60
                  (envelopeAt (formant cd) (IZR i * sourceFactor)
                   / envelopeAt (formant cd) (IZR i * targetFactor))) /\
         (~ envelopeAt (formant cd) (IZR i * targetFactor) > 0 ->
            rd (mag sc') i = rd (mag sc) i)) /\
      (~ (b0min b <= i < Z.min (b1max b) highBin)%Z ->
         rd (mag sc') i = rd (mag sc) i).
Proof.
  intros Hsc Hb H0 Hlen. cbv zeta.
  exists (adjustFormant_scale envelopeAt s (formant cd) k sc). split.
  - unfold adjustFormant. cbn [scales set_scales].
    rewrite map_lookup_imap, Hsc. reflexivity.
  - exact (adjustFormant_scale_spec envelopeAt s (formant cd) k sc b Hb H0 Hlen).
Qed.

End FormantClaim.

Section FormantExample.

Local Open Scope R_scope.

Lemma rd_replicate (n : nat) (x : R) (i : Z) :
  (0 <= i < Z.of_nat n)%Z -> rd (replicate n x) i = x.
Proof.
  intros Hi. unfold rd. destruct (Z.ltb_spec i 0); [lia |].
  rewrite nth_lookup, lookup_replicate_2 by lia. reflexivity.
Qed.

Lemma highBin_1024 : Zfloor (IZR 1024 * 10000 / 48000) = 213%Z.
Proof. apply Zfloor_eq. lra. Qed.

Lemma engine_C3_facts :
  scales channel_C3 !! 1024%Z = Some scale_C3 /\
  filter (fun b => bl_fftSize b = 1024%Z)
    (fftBandLimits (m_guideConfiguration engine_C3))
  = [mkBandLimits 1024 0 512] /\
  (Z.min (b1max (mkBandLimits 1024 0 512))
         (Zfloor (IZR 1024 * 10000 / sampleRate (m_parameters engine_C3)))
   <= Z.of_nat (length (mag scale_C3)))%Z.
Proof.
  split; [apply lookup_insert_eq |]. split; [reflexivity |].
  cbn [sampleRate m_parameters engine_C3 R3Stretcher_init example_parameters].
  rewrite highBin_1024. vm_compute. discriminate.
Qed.

End FormantExample.

(** C3 on [engine_C3] and [channel_C3]: bin 100 of the 1024 scale is
    multiplied by (100 * 8 + 1) / (100 * 4 + 1). *)
Lemma C3_witness :
  scales channel_C3 !! 1024%Z = Some scale_C3 /\
  exists sc',
    scales (adjustFormant example_envelopeAt engine_C3 channel_C3) !! 1024%Z
      = Some sc' /\
    rd (mag sc') 100 = (1 * (801 / 401))%R.
Proof.
  destruct engine_C3_facts as (Hsc & Hb & Hlen).
  split; [exact Hsc |].
  destruct (C3_adjustFormant_half_open example_envelopeAt engine_C3 channel_C3
              1024 scale_C3 (mkBandLimits 1024 0 512) Hsc Hb
              ltac:(simpl; lia) Hlen)
    as (sc' & Hsc' & _ & _ & Hbins).
  exists sc'. split; [exact Hsc' |].
  destruct (Hbins 100%Z) as [Hin _].
  cbn [sampleRate m_parameters engine_C3 R3Stretcher_init example_parameters]
    in Hin.
  rewrite highBin_1024 in Hin.
  destruct Hin as [Hpos _]; [simpl; lia |].
  rewrite Hpos.
  - change (mag scale_C3) with (replicate 513 1%R).
    rewrite rd_replicate by lia. f_equal.
    unfold example_envelopeAt. simpl.
    destruct (Req_dec_T 0 0) as [_ | Hn]; [| contradiction].
    unfold clamp, Rmax, Rmin. case_Rdec; lra.
  - unfold example_envelopeAt. simpl. lra.
Defined.

(** C3, as stated, fails at the upper end of the range.  On
    [engine_C3] the 1024 scale has [b1max = 512] and
    [floor(1024 * 10000 / 48000) = 213]; bin 213 belongs to the inclusive
    range of the claim and its target envelope is positive, yet
    [adjustFormant] leaves [mag[213]] as it was, where the claim would
    have it multiplied by 1705/853. *)
Lemma C3_counterexample :
  exists sc',
    scales (adjustFormant example_envelopeAt engine_C3 channel_C3) !! 1024%Z
      = Some sc' /\
    (b0min (mkBandLimits 1024 0 512) <= 213
     <= Z.min (b1max (mkBandLimits 1024 0 512))
          (Zfloor (IZR 1024 * 10000 / sampleRate (m_parameters engine_C3))))%Z /\
    (example_envelopeAt (formant channel_C3)
       (IZR 213 * (IZR (fd_fftSize (formant channel_C3)) / IZR 1024)) > 0)%R /\
    rd (mag sc') 213 = rd (mag scale_C3) 213 /\
    rd (mag sc') 213
    <> (rd (mag scale_C3) 213
        * clamp (1 / 60) 60
            (example_envelopeAt (formant channel_C3)
               (IZR 213 * (IZR (fd_fftSize (formant channel_C3)) / IZR 1024
                           / (1 / m_pitchScale engine_C3)))
             / example_envelopeAt (formant channel_C3)
                 (IZR 213 * (IZR (fd_fftSize (formant channel_C3))
                             / IZR 1024))))%R.
Proof.
  destruct engine_C3_facts as (Hsc & Hb & Hlen).
  pose proof (adjustFormant_scale_spec example_envelopeAt engine_C3
                (formant channel_C3) 1024 scale_C3 (mkBandLimits 1024 0 512)
                Hb ltac:(simpl; lia) Hlen) as (_ & _ & Hbins).
  cbv zeta in Hbins.
  exists (adjustFormant_scale example_envelopeAt engine_C3
            (formant channel_C3) 1024 scale_C3).
  split.
  { unfold adjustFormant. cbn [scales set_scales].
    rewrite map_lookup_imap, Hsc. reflexivity. }
  destruct (Hbins 213%Z) as [_ Hout].
  cbn [sampleRate m_parameters engine_C3 R3Stretcher_init example_parameters]
    in Hout |- *.
  rewrite highBin_1024 in Hout |- *.
  split; [simpl; lia |].
  split; [unfold example_envelopeAt; simpl; lra |].
  rewrite Hout by (simpl; lia).
  split; [reflexivity |].
  change (mag scale_C3) with (replicate 513 1%R).
  rewrite rd_replicate by lia.
  unfold example_envelopeAt. simpl.
  unfold clamp, Rmax, Rmin. case_Rdec; lra.
Qed.

(** ** Retrieval (C10) *)

Section Retrieval.

Lemma to_int_small (z : Z) : -2 ^ 31 <= z < 2 ^ 31 -> to_int z = z.
Proof. intros H. unfold to_int. rewrite Z.mod_small; lia. Qed.

Lemma to_size_t_small (z : Z) : 0 <= z < 2 ^ 64 -> to_size_t z = z.
Proof. intros H. unfold to_size_t. apply Z.mod_small. exact H. Qed.

Lemma length_take_Z (A : Type) (l : list A) (n : Z) :
  0 <= n ->
  Z.of_nat (length (take (Z.to_nat n) l)) = Z.min n (Z.of_nat (length l)).
Proof. intros Hn. rewrite length_take. lia. Qed.

(** The loop over the channels, for a count that is not negative. *)
Lemma retrieve_channels_spec (cds : list ChannelData) :
  forall (c : nat) (got : Z) (lg : list LogEntry)
         (gotF : Z) (cds' : list ChannelData) (out : list (list R))
         (lg' : list LogEntry),
    0 <= got ->
    retrieve_channels c got cds lg = (gotF, cds', out, lg') ->
    let spaces := map (fun cd => getReadSpace (outbuf cd)) cds in
    gotF = foldl Z.min got spaces /\
    0 <= gotF <= got /\
    (forall i cd, cds !! i = Some cd ->
       exists o cd',
         out !! i = Some o /\ cds' !! i = Some cd' /\
         rb_data (outbuf cd) = (o ++ rb_data (outbuf cd'))%list /\
         gotF <= Z.of_nat (length o)) /\
    (cds <> [] -> exists o, In o out /\ gotF = Z.of_nat (length o)) /\
    lg' = (lg ++ replicate (imbalances c got spaces) imbalance_warning)%list.
Proof.
  induction cds as [| cd rest IH]; intros c got lg gotF cds' out lg' Hg Hr;
    cbv zeta.
  - cbn in Hr. injection Hr as <- <- <- <-. cbn.
    split; [reflexivity |]. split; [lia |].
    split; [intros i cd Hi; discriminate |].
    split; [intros Hn; contradiction | rewrite app_nil_r; reflexivity].
  - cbn [retrieve_channels rb_read] in Hr.
    set (r := getReadSpace (outbuf cd)).
    assert (Hlen : Z.of_nat (length (take (Z.to_nat got) (rb_data (outbuf cd))))
                   = Z.min got r) by (apply length_take_Z; exact Hg).
    rewrite Hlen in Hr.
    assert (Hr0 : 0 <= r) by (unfold r, getReadSpace; lia).
    set (got1 := Z.min got r).
    set (lg1 := if (r <? got) && (0 <? Z.of_nat c)
                then (lg ++ [imbalance_warning])%list else lg).
    assert (Hstep :
      (if got1 <? got
       then (Z.min got (Z.max got1 0),
             if 0 <? Z.of_nat c then (lg ++ [imbalance_warning])%list else lg)
       else (got, lg)) = (got1, lg1)).
    { unfold got1, lg1.
      destruct (Z.ltb_spec (Z.min got r) got) as [Hlt | Hge].
      - destruct (Z.ltb_spec r got); [| lia]. cbn [andb]. f_equal. lia.
      - destruct (Z.ltb_spec r got); [lia |]. cbn [andb]. f_equal. lia. }
    unfold imbalance_warning in Hstep. fold got1 in Hr. rewrite Hstep in Hr.
    destruct (retrieve_channels (S c) got1 rest lg1)
      as [[[gotR restR] outR] lgR] eqn:Hrec.
    injection Hr as <- <- <- <-.
    destruct (IH (S c) got1 lg1 gotR restR outR lgR ltac:(lia) Hrec)
      as (Hmin & Hrange & Hchan & Hex & Hlog).
    cbv zeta in Hmin, Hchan, Hex, Hlog.
    cbn [map foldl imbalances]. fold r. fold got1.
    split; [exact Hmin |]. split; [lia |].
    split; [| split].
    + intros [| i] cd0 Hi.
      * injection Hi as <-. eexists _, _. split; [reflexivity |].
        split; [reflexivity |]. cbn [outbuf set_outbuf rb_skip rb_data].
        split; [symmetry; apply take_drop |]. rewrite Hlen. fold got1. lia.
      * cbn in Hi. destruct (Hchan i cd0 Hi) as (o & cd' & Ho & Hc & Hd & Hl).
        exists o, cd'. repeat split; assumption.
    + intros _. destruct rest as [| cd1 rest'].
      * cbn in Hrec. injection Hrec as <- <- <- <-.
        eexists. split; [left; reflexivity |]. rewrite Hlen. reflexivity.
      * destruct Hex as (o & Ho & Hl); [discriminate |].
        exists o. split; [right; exact Ho | exact Hl].
    + rewrite Hlog. unfold lg1.
      destruct ((r <? got) && (0 <? Z.of_nat c)); cbn [replicate Nat.add].
      * rewrite <- app_assoc. reflexivity.
      * reflexivity.
Qed.

(** A negative count passes through the loop unchanged. *)
Lemma retrieve_channels_negative (cds : list ChannelData) :
  forall (c : nat) (got : Z) (lg : list LogEntry),
    got < 0 ->
    fst (fst (fst (retrieve_channels c got cds lg))) = got.
Proof.
  induction cds as [| cd rest IH]; intros c got lg Hg; [reflexivity |].
  cbn [retrieve_channels rb_read].
  replace (Z.to_nat got) with 0%nat by lia. rewrite take_0. cbn [length].
  destruct (Z.ltb_spec (Z.of_nat 0) got); [lia |].
  specialize (IH (S c) got lg Hg).
  destruct (retrieve_channels (S c) got rest lg) as [[[gotR restR] outR] lgR].
  exact IH.
Qed.

(** C10, as amended: for every requested sample count [n] that fits an
    [int] ([0 <= n < 2^31]), [retrieve] returns the minimum of [n] and of
    the read spaces of the channels' output rings, which is the least
    number of samples actually read from a channel, lies between 0 and
    [n], and is what every channel delivered at least; the samples read
    leave the rings; and the log grows by one channel-imbalance warning
    for each channel after the first that yields fewer samples than the
    count reached before it, and by nothing for the first channel. *)
Theorem C10_retrieve (s s' : R3Stretcher) (n got : Z)
    (output : list (list R)) :
  0 <= n < 2 ^ 31 ->
  retrieve n s = (got, output, s') ->
  let spaces := map (fun cd => getReadSpace (outbuf cd)) (m_channelData s) in
  got = foldl Z.min n spaces /\
  0 <= got <= n /\
  (forall c cd, m_channelData s !! c = Some cd ->
     exists o cd',
       output !! c = Some o /\ m_channelData s' !! c = Some cd' /\
       rb_data (outbuf cd) = (o ++ rb_data (outbuf cd'))%list /\
       got <= Z.of_nat (length o)) /\
  (m_channelData s <> [] ->
   exists o, In o output /\ got = Z.of_nat (length o)) /\
  m_log s' = (m_log s ++ replicate (imbalances 0 n spaces)
                           imbalance_warning)%list.
Proof.
  intros Hn Hr. unfold retrieve in Hr. rewrite to_int_small in Hr by lia.
  destruct (retrieve_channels 0 n (m_channelData s) (m_log s))
    as [[[gotF cds'] out] lg'] eqn:Hrec.
  injection Hr as <- <- <-.
  destruct (retrieve_channels_spec _ _ _ _ _ _ _ _ (proj1 Hn) Hrec)
    as (Hmin & Hrange & Hchan & Hex & Hlog). cbv zeta in *.
  rewrite to_size_t_small by lia.
  repeat split; try assumption; lia.
Qed.

End Retrieval.

(** C10 on [engine_C10], asked for four samples: channel 0 delivers four,
    channel 1 three, the call returns 3 and logs one warning. *)
Lemma C10_witness :
  0 <= 4 < 2 ^ 31 /\
  exists output s',
    retrieve 4 engine_C10 = (3, output, s') /\
    output = [[1; 2; 3; 4]%R; [6; 7; 8]%R] /\
    m_log s' = (m_log engine_C10 ++ [imbalance_warning])%list.
Proof.
  assert (Hn : 0 <= 4 < 2 ^ 31) by lia.
  split; [exact Hn |].
  destruct (retrieve 4 engine_C10) as [[got output] s'] eqn:Hr.
  destruct (C10_retrieve engine_C10 s' 4 got output Hn Hr)
    as (Hgot & _ & _ & _ & Hlog).
  exists output, s'. cbv zeta in Hgot, Hlog.
  assert (Hout : output = [[1; 2; 3; 4]%R; [6; 7; 8]%R]).
  { apply (f_equal (fun x => snd (fst x))) in Hr. cbn [fst snd] in Hr.
    rewrite <- Hr. vm_compute. reflexivity. }
  split; [| split; [exact Hout | exact Hlog]].
  rewrite Hgot. reflexivity.
Defined.

(** C10, as stated, fails for a count beyond the range of [int]: asked
    for [2^31] samples, [retrieve] on [engine_C10] returns
    [2^64 - 2^31], far more than was asked for and than any ring holds. *)
Lemma C10_counterexample :
  fst (fst (retrieve (2 ^ 31) engine_C10)) = 2 ^ 64 - 2 ^ 31 /\
  ~ (fst (fst (retrieve (2 ^ 31) engine_C10)) <= 2 ^ 31).
Proof.
  assert (H : fst (fst (retrieve (2 ^ 31) engine_C10)) = 2 ^ 64 - 2 ^ 31).
  { unfold retrieve.
    pose proof (retrieve_channels_negative (m_channelData engine_C10) 0
                  (to_int (2 ^ 31)) (m_log engine_C10) ltac:(vm_compute; reflexivity))
      as Hneg.
    destruct (retrieve_channels 0 (to_int (2 ^ 31)) (m_channelData engine_C10)
                (m_log engine_C10)) as [[[gotF cds'] out] lg'].
    cbn [fst] in Hneg |- *. rewrite Hneg. vm_compute. reflexivity. }
  split; [exact H |]. rewrite H. lia.
Qed.

(** ** The key-frame map (C8) *)

Section KeyFrameMap.

Local Open Scope R_scope.

(** With a first entry whose indices are both positive the update does
    what C8 says. *)
Lemma updateRatioFromMap_first (s : R3Stretcher) (kin kout : Z)
    (rest : list (Z * Z)) :
  m_keyFrameMap s = (kin, kout) :: rest ->
  m_consumedInputDuration s = 0%Z ->
  (0 < kin)%Z -> (0 < kout)%Z -> 0 < m_pitchScale s ->
  exists s',
    updateRatioFromMap s = Fin s' /\
    m_timeRatio s' = IZR kout / IZR kin /\
    m_inhop s' = inhop_spec (IZR kout / IZR kin * m_pitchScale s) /\
    m_lastKeyFrameSurpassed s' = 0%Z.
Proof.
  intros Hmap Hc Hin Hout Hp. unfold updateRatioFromMap.
  rewrite Hmap, Hc. cbn [Z.eqb fst snd]. unfold ddiv.
  apply IZR_lt in Hin, Hout.
  destruct (Req_dec_T (IZR kin) 0) as [Hz | Hz]; [lra |]. cbn [bind].
  set (s1 := log 1 "giving initial ratio "
               (log 1 "initial key-frame map entry "
                  (set_m_timeRatio (IZR kout / IZR kin) s))).
  assert (Hr : 0 < getEffectiveRatio s1).
  { unfold getEffectiveRatio. cbn. apply Rmult_lt_0_compat; [| exact Hp].
    apply Rdiv_lt_0_compat; assumption. }
  destruct (calculateHop_inhop s1 Hr) as (s2 & He & Hi & Ht & _).
  rewrite He. cbn [bind]. eexists. split; [reflexivity |].
  cbn. rewrite Ht, Hi. repeat split.
Qed.

(** C8 at the failing input: with the key-frame map of scenario 6, whose
    first entry is (0, 0), the time ratio is [double(0) / double(0)],
    which is not a finite number. *)
Theorem C8_first_key_zero_not_finite :
  m_keyFrameMap engine_C8 = keyFrameMap_scenario6 /\
  m_consumedInputDuration engine_C8 = 0%Z /\
  updateRatioFromMap engine_C8 = NonFinite.
Proof.
  split; [reflexivity |]. split; [reflexivity |].
  unfold updateRatioFromMap. cbn. unfold ddiv.
  destruct (Req_dec_T 0 0) as [_ | Hn]; [reflexivity | contradiction].
Qed.

End KeyFrameMap.

(** ** The state machine (C6) *)

Section StateMachine.

Ltac case_ifs :=
  repeat match goal with
         | |- context [if ?b then _ else _] => destruct b
         end.

Lemma limit_writeCount_mode (wc : Z) (s : R3Stretcher) :
  m_mode (fst (limit_writeCount wc s)) = m_mode s.
Proof. unfold limit_writeCount. case_ifs; reflexivity. Qed.

Lemma emit_mode (inhop outhop readSpace : Z) (resampling : bool)
    (resampledCount : Z) (s : R3Stretcher) :
  m_mode (emit inhop outhop readSpace resampling resampledCount s) = m_mode s.
Proof.
  unfold emit, limit_writeCount, limit_advanceCount, write_frame, start_skip.
  case_ifs; reflexivity.
Qed.

Lemma iteration_mode (fr : Frame) (inhop outhop : Z) (s : R3Stretcher) :
  m_mode (iteration fr inhop outhop s) = m_mode s.
Proof. unfold iteration. rewrite emit_mode. reflexivity. Qed.

Lemma loop_guard_mode (s s1 : R3Stretcher) :
  loop_guard s = Fin (Some s1) -> m_mode s1 = m_mode s.
Proof.
  unfold loop_guard. intros H.
  repeat match type of H with
         | context [if ?b then _ else _] => destruct b
         | context [match ?x with _ => _ end] => destruct x
         end; try discriminate; injection H as <-; reflexivity.
Qed.

Lemma consume_loop_mode (frames : list Frame) (inhop outhop : Z) :
  forall s s', consume_loop frames inhop outhop s = Fin s' ->
               m_mode s' = m_mode s.
Proof.
  induction frames as [| fr rest IH]; intros s s' H; cbn [consume_loop] in H;
    destruct (getWriteSpace (outbuf0 s) <? outhop);
    try (injection H as <-; reflexivity);
    destruct (loop_guard s) as [[s1 |] | | |] eqn:Hg; cbn [bind] in H;
    try discriminate; try (injection H as <-; reflexivity).
  apply IH in H. rewrite H, iteration_mode. eapply loop_guard_mode; eassumption.
Qed.

Lemma consume_mode (calculated : Z) (frames : list Frame) (s s' : R3Stretcher) :
  consume calculated frames s = Fin s' -> m_mode s' = m_mode s.
Proof.
  assert (Haux : forall inhop outhop sA,
            m_mode sA = m_mode s ->
            match m_channelData sA with
            | [] => Thrown
            | _ :: _ => consume_loop frames inhop outhop sA
            end = Fin s' -> m_mode s' = m_mode s).
  { intros inhop outhop sA Hm H. destruct (m_channelData sA); [discriminate |].
    apply consume_loop_mode in H. congruence. }
  unfold consume. intros H.
  destruct (calculated <? 1); cbv beta iota zeta in H;
    (eapply Haux; [| exact H]); case_ifs; reflexivity.
Qed.

Lemma process_input_mode (input : list (list R)) (samples : Z) (final : bool)
    (s s' : R3Stretcher) :
  process_input input samples final s = Fin s' ->
  m_mode s' = if final then Finished else Processing.
Proof.
  unfold process_input. intros H.
  destruct (if isRealTime s then Fin s else process_offline s)
    as [s1 | | |]; cbn [bind] in H; try discriminate.
  injection H as <-. case_ifs; reflexivity.
Qed.

Lemma calculateHop_mode (s s' : R3Stretcher) :
  calculateHop s = Fin s' -> m_mode s' = m_mode s.
Proof.
  unfold calculateHop. intros H.
  match type of H with
  | bind ?c _ = _ => destruct c as [p | | |]
  end; cbn [bind] in H; try discriminate.
  match type of H with
  | bind ?c _ = _ => destruct c as [q | | |]
  end; cbn [bind] in H; try discriminate.
  destruct (Rlt_dec q 1);
    match type of H with
    | context [Rgt_dec ?a ?b] => destruct (Rgt_dec a b)
    end; injection H as <-; reflexivity.
Qed.

(** No call changes the mode of a finished engine. *)
Lemma do_call_finished (call : Call) (s s' : R3Stretcher) :
  m_mode s = Finished -> do_call call s = Fin s' -> m_mode s' = Finished.
Proof.
  intros Hm H. destruct call; cbn [do_call] in H.
  - unfold setTimeRatio, in_offline_run in H. rewrite Hm in H.
    cbn [ProcessMode_eqb orb] in H. rewrite andb_false_r in H.
    destruct (Req_dec_T ratio (m_timeRatio s)).
    + injection H as <-. exact Hm.
    + apply calculateHop_mode in H. rewrite H. exact Hm.
  - unfold setPitchScale, in_offline_run in H. rewrite Hm in H.
    cbn [ProcessMode_eqb orb] in H. rewrite andb_false_r in H.
    destruct (Req_dec_T scale (m_pitchScale s)).
    + injection H as <-. exact Hm.
    + apply calculateHop_mode in H. rewrite H. exact Hm.
  - injection H as <-. unfold setFormantScale. case_ifs; exact Hm.
  - injection H as <-. exact Hm.
  - injection H as <-. exact Hm.
  - injection H as <-. unfold setKeyFrameMap. rewrite Hm.
    cbn [ProcessMode_eqb orb]. case_ifs; exact Hm.
  - injection H as <-. unfold study. rewrite Hm.
    cbn [ProcessMode_eqb orb]. case_ifs; exact Hm.
  - injection H as <-. exact Hm.
  - injection H as <-. unfold setMaxProcessSize. case_ifs; exact Hm.
  - unfold process in H. rewrite Hm in H. cbn [ProcessMode_eqb] in H.
    injection H as <-. exact Hm.
  - injection H as <-. unfold retrieve.
    destruct (retrieve_channels _ _ _ _) as [[[? ?] ?] ?]. exact Hm.
Qed.

Lemma do_calls_finished (calls : list Call) :
  forall s s', m_mode s = Finished -> do_calls calls s = Fin s' ->
               m_mode s' = Finished.
Proof.
  induction calls as [| call rest IH]; intros s s' Hm H; cbn [do_calls] in H.
  - injection H as <-. exact Hm.
  - destruct (do_call call s) as [s1 | | |] eqn:Hc; cbn [bind] in H;
      try discriminate.
    eapply IH; [| exact H]. eapply do_call_finished; eassumption.
Qed.

Lemma available_spec (s : R3Stretcher) :
  (available s = -1 <->
   m_mode s = Finished /\ getReadSpace (outbuf0 s) = 0) /\
  (available s <> -1 ->
   available s = getReadSpace (outbuf0 s) /\ 0 <= available s).
Proof.
  unfold available.
  assert (H0 : 0 <= getReadSpace (outbuf0 s)) by (unfold getReadSpace; lia).
  destruct (Z.eqb_spec (getReadSpace (outbuf0 s)) 0) as [Hz | Hz];
    destruct (m_mode s); cbn [ProcessMode_eqb andb];
    (split; [split; [intros ?; try lia | intros [? ?]; try discriminate; try lia]
            | intros ?; try lia]).
  all: try (split; [reflexivity | lia]).
  all: try (split; [reflexivity | assumption]).
Qed.

(** C6: once [process] has returned from a call with [final = true] the
    mode is [Finished]; it stays so through any later calls on the engine
    ([reset] apart); in that mode every [process] call returns at once,
    having logged one warning and left every ring, the input rings
    included, and every other member as they were; and [available]
    returns -1 exactly when the mode is [Finished] and the output ring of
    channel 0 holds no sample, and the read space of that ring, which is
    not negative, otherwise. *)
Theorem C6_finished (calculated : Z) (frames : list Frame)
    (input : list (list R)) (samples : Z) (s s1 : R3Stretcher) :
  process calculated frames input samples true s = Fin s1 ->
  m_mode s1 = Finished /\
  (forall calls s2,
     do_calls calls s1 = Fin s2 ->
     m_mode s2 = Finished /\
     forall calculated' frames' input' samples' final',
       process calculated' frames' input' samples' final' s2
       = Fin (set_m_log (m_log s2 ++ [process_warning]) s2)) /\
  (forall s2 : R3Stretcher,
     (available s2 = -1 <->
      m_mode s2 = Finished /\ getReadSpace (outbuf0 s2) = 0) /\
     (available s2 <> -1 ->
      available s2 = getReadSpace (outbuf0 s2) /\ 0 <= available s2)).
Proof.
  intros Hp.
  assert (Hm : m_mode s1 = Finished).
  { unfold process in Hp.
    destruct (ProcessMode_eqb (m_mode s) Finished) eqn:Hf.
    - injection Hp as <-. destruct (m_mode s) eqn:Hs; try discriminate.
      exact Hs.
    - destruct (process_input input samples true s) as [s0 | | |] eqn:Hi;
        cbn [bind] in Hp; try discriminate.
      apply consume_mode in Hp. rewrite Hp.
      apply process_input_mode in Hi. exact Hi. }
  split; [exact Hm |]. split; [| exact available_spec].
  intros calls s2 Hc.
  assert (Hm2 : m_mode s2 = Finished)
    by (eapply do_calls_finished; eassumption).
  split; [exact Hm2 |]. intros. unfold process. rewrite Hm2. reflexivity.
Qed.

End StateMachine.

(** C6 on a realtime engine given an empty final block: the call returns
    at once, nothing being left to drain. *)
Lemma C6_witness :
  exists s1,
    process 256 [] [[]] 0 true engine_realtime = Fin s1 /\
    m_mode s1 = Finished /\
    process 256 [] [[1%R]] 1 false s1
    = Fin (set_m_log (m_log s1 ++ [process_warning]) s1) /\
    available s1 = -1.
Proof.
  destruct (process 256 [] [[]] 0 true engine_realtime) as [s1 | | |] eqn:Hp;
    try (exfalso; vm_compute in Hp; discriminate).
  exists s1.
  destruct (C6_finished 256 [] [[]] 0 engine_realtime s1 Hp)
    as (Hm & Hcalls & Hav).
  split; [reflexivity |]. split; [exact Hm |].
  split; [exact (proj2 (Hcalls [] s1 eq_refl) 256 [] [[1%R]] 1 false) |].
  apply (proj1 (Hav s1)). split; [exact Hm |].
  assert (He : Fin s1 = process 256 [] [[]] 0 true engine_realtime)
    by (symmetry; exact Hp).
  apply (f_equal (fun r => match r with
                           | Fin x => getReadSpace (outbuf0 x)
                           | _ => 0
                           end)) in He.
  cbn beta iota in He. rewrite He. vm_compute. reflexivity.
Defined.

(** ** Offline start padding (C7) *)

Section StartPadding.

Ltac case_ifs :=
  repeat match goal with
         | |- context [if ?b then _ else _] => destruct b
         end.






Lemma emit_start_skip (inhop outhop readSpace : Z) (resampling : bool)
    (resampledCount : Z) (s : R3Stretcher) :
  exists tw,
    emit inhop outhop readSpace resampling resampledCount s
    = set_prevHops inhop outhop (start_skip tw) /\
    m_startSkip tw = m_startSkip s /\
    map (fun cd => rb_size (outbuf cd)) (m_channelData tw)
    = map (fun cd => rb_size (outbuf cd)) (m_channelData s).
Proof.
  unfold emit.
  destruct (limit_writeCount _ s) as [s1 wc] eqn:H1.
  destruct (limit_advanceCount inhop readSpace s1) as [s2 ac] eqn:H2.
  exists (write_frame resampling wc ac s2). split; [reflexivity |].
  assert (Hs1 : m_startSkip s1 = m_startSkip s /\
                m_channelData s1 = m_channelData s).
  { unfold limit_writeCount in H1. revert H1. case_ifs; intros H1;
      injection H1 as <- <-; split; reflexivity. }
  assert (Hs2 : m_startSkip s2 = m_startSkip s1 /\
                m_channelData s2 = m_channelData s1).
  { unfold limit_advanceCount in H2. revert H2. case_ifs; intros H2;
      injection H2 as <- <-; split; reflexivity. }
  destruct Hs1 as [Ha Hb]. destruct Hs2 as [Hc Hd].
  split; [cbn; congruence |].
  unfold write_frame. cbn. rewrite Hd, Hb, map_map. reflexivity.
Qed.





End StartPadding.

Section StartPaddingClaim.



End StartPaddingClaim.


(** ** The target duration (C5) *)

Section TargetDuration.

Ltac case_ifs :=
  repeat match goal with
         | |- context [if ?b then _ else _] => destruct b
         end.

(** The write count after the test against the target. *)
Lemma limit_writeCount_spec (wc0 : Z) (s : R3Stretcher) :
  isRealTime s = false ->
  0 < m_totalTargetDuration s < 2 ^ 63 ->
  0 <= m_totalOutputDuration s <= m_totalTargetDuration s ->
  0 <= wc0 < 2 ^ 31 ->
  (m_totalTargetDuration s < m_totalOutputDuration s + wc0 ->
   snd (limit_writeCount wc0 s)
   = m_totalTargetDuration s - m_totalOutputDuration s) /\
  (m_totalOutputDuration s + wc0 <= m_totalTargetDuration s ->
   snd (limit_writeCount wc0 s) = wc0).
Proof.
  intros Hrt Ht Ho Hw. unfold limit_writeCount. rewrite Hrt. cbn [negb andb].
  destruct (Z.ltb_spec 0 (m_totalTargetDuration s)); [| lia]. cbn [andb].
  rewrite to_size_t_small by lia.
  destruct (Z.ltb_spec (m_totalTargetDuration s)
              (m_totalOutputDuration s + wc0)) as [Hlt | Hge].
  - split; [| lia]. intros _. cbn [snd log m_totalTargetDuration
      m_totalOutputDuration set_m_log].
    rewrite to_size_t_small by lia. apply to_int_small. lia.
  - split; [lia | reflexivity].
Qed.

Lemma limit_writeCount_keeps (wc0 : Z) (s : R3Stretcher) :
  let s1 := fst (limit_writeCount wc0 s) in
  m_totalTargetDuration s1 = m_totalTargetDuration s /\
  m_totalOutputDuration s1 = m_totalOutputDuration s /\
  m_startSkip s1 = m_startSkip s /\
  m_channelData s1 = m_channelData s /\
  m_parameters s1 = m_parameters s.
Proof. cbv zeta. unfold limit_writeCount. case_ifs; repeat split. Qed.

Lemma limit_advanceCount_keeps (inhop readSpace : Z) (s : R3Stretcher) :
  let s1 := fst (limit_advanceCount inhop readSpace s) in
  m_totalTargetDuration s1 = m_totalTargetDuration s /\
  m_totalOutputDuration s1 = m_totalOutputDuration s /\
  m_startSkip s1 = m_startSkip s /\
  m_channelData s1 = m_channelData s /\
  m_parameters s1 = m_parameters s.
Proof. cbv zeta. unfold limit_advanceCount. case_ifs; repeat split. Qed.

Lemma getReadSpace_write (src : list R) (n : Z) (rb : RingBuffer) :
  0 <= n ->
  getReadSpace rb <= getReadSpace (rb_write src n rb) <= getReadSpace rb + n.
Proof.
  intros Hn. unfold getReadSpace, rb_write. cbn [rb_data].
  rewrite length_app, length_take. lia.
Qed.

Lemma getReadSpace_skip (n : Z) (rb : RingBuffer) :
  0 <= n ->
  getReadSpace (rb_skip n rb) = getReadSpace rb - Z.min n (getReadSpace rb).
Proof.
  intros Hn. unfold getReadSpace, rb_skip. cbn [rb_data].
  rewrite length_drop. lia.
Qed.

Lemma outbuf0_map (f : ChannelData -> ChannelData) (g : RingBuffer -> RingBuffer)
    (s : R3Stretcher) :
  (forall cd, outbuf (f cd) = g (outbuf cd)) ->
  g (mkRingBuffer 0 []) = mkRingBuffer 0 [] ->
  outbuf0 (set_m_channelData (map f (m_channelData s)) s) = g (outbuf0 s).
Proof.
  intros Hf Hg. unfold outbuf0. cbn [m_channelData set_m_channelData].
  destruct (m_channelData s) as [| cd0 rest]; cbn [map];
    [symmetry; exact Hg | apply Hf].
Qed.

(** Emission keeps the output within a positive target. *)
Lemma emit_duration (inhop outhop readSpace : Z) (resampling : bool)
    (resampledCount : Z) (s : R3Stretcher) :
  isRealTime s = false ->
  0 < m_totalTargetDuration s < 2 ^ 63 ->
  duration_inv s ->
  1 <= outhop < 2 ^ 31 -> 0 <= resampledCount < 2 ^ 31 ->
  let s' := emit inhop outhop readSpace resampling resampledCount s in
  duration_inv s' /\
  m_totalTargetDuration s' = m_totalTargetDuration s /\
  m_parameters s' = m_parameters s.
Proof.
  intros Hrt Ht [Ho Hsk] Hoh Hrc. cbv zeta. unfold emit.
  set (wc0 := if resampling then resampledCount else outhop).
  assert (Hwc0 : 0 <= wc0 < 2 ^ 31) by (subst wc0; destruct resampling; lia).
  pose proof (limit_writeCount_spec wc0 s Hrt Ht Ho Hwc0) as [Htr Hnt].
  pose proof (limit_writeCount_keeps wc0 s) as (K1 & K2 & K3 & K4 & K5).
  cbv zeta in K1, K2, K3, K4, K5.
  destruct (limit_writeCount wc0 s) as [s1 wc]. cbn [fst snd] in *.
  assert (Hwc : 0 <= wc /\ m_totalOutputDuration s + wc
                            <= m_totalTargetDuration s /\ wc <= wc0).
  { destruct (Z.lt_ge_cases (m_totalTargetDuration s)
                (m_totalOutputDuration s + wc0)) as [Hlt | Hge].
    - rewrite (Htr Hlt). lia.
    - rewrite (Hnt ltac:(lia)). lia. }
  pose proof (limit_advanceCount_keeps inhop readSpace s1)
    as (L1 & L2 & L3 & L4 & L5).
  cbv zeta in L1, L2, L3, L4, L5.
  destruct (limit_advanceCount inhop readSpace s1) as [s2 ac].
  cbn [fst snd] in *.
  set (tw := write_frame resampling wc ac s2).
  assert (Htw : m_totalTargetDuration tw = m_totalTargetDuration s /\
                m_totalOutputDuration tw = m_totalOutputDuration s + wc /\
                m_startSkip tw = m_startSkip s /\
                m_parameters tw = m_parameters s /\
                getReadSpace (outbuf0 s) <= getReadSpace (outbuf0 tw)
                <= getReadSpace (outbuf0 s) + wc).
  { subst tw. unfold write_frame.
    cbn [m_totalTargetDuration m_totalOutputDuration m_startSkip m_parameters
         set_m_totalOutputDuration set_m_consumedInputDuration
         set_m_channelData].
    rewrite L1, K1, L2, K2, L3, K3, L5, K5.
    rewrite to_size_t_small by lia.
    split; [reflexivity |]. split; [reflexivity |]. split; [reflexivity |].
    split; [reflexivity |].
    unfold outbuf0. cbn [m_channelData]. rewrite L4, K4.
    destruct (m_channelData s) as [| cd0 rest]; cbn [map].
    - cbn. lia.
    - cbn [outbuf set_inbuf set_outbuf]. apply getReadSpace_write. lia. }
  destruct Htw as (T1 & T2 & T3 & T4 & T5). clearbody tw.
  cbn [m_totalTargetDuration m_totalOutputDuration m_startSkip m_parameters
       set_prevHops duration_inv].
  unfold duration_inv.
  assert (Hob : outbuf0 (set_prevHops inhop outhop (start_skip tw))
                = outbuf0 (start_skip tw)) by reflexivity.
  rewrite Hob.
  cbn [m_totalTargetDuration m_totalOutputDuration m_startSkip m_parameters
       set_prevHops].
  unfold start_skip.
  destruct (Z.ltb_spec 0 (m_startSkip tw)) as [Hpos | Hneg].
  - destruct (Hsk ltac:(lia)) as [Hempty Hzero].
    set (rs := getReadSpace (outbuf0 tw)) in *.
    set (toSkip := Z.min (m_startSkip tw) rs).
    cbn [m_totalTargetDuration m_totalOutputDuration m_startSkip m_parameters
         set_m_totalOutputDuration set_m_startSkip set_m_channelData].
    rewrite to_size_t_small by lia.
    split; [| split; assumption].
    split; [lia |]. intros Hleft.
    assert (HtoSkip : toSkip = rs) by lia.
    split; [| lia].
    match goal with
    | |- getReadSpace (outbuf0 ?x) = 0 =>
        change (outbuf0 x)
          with (outbuf0 (set_m_channelData
                           (map (fun cd => set_outbuf
                                             (rb_skip toSkip (outbuf cd)) cd)
                                (m_channelData tw)) tw))
    end.
    rewrite (outbuf0_map _ (rb_skip toSkip)); [| reflexivity |].
    + rewrite getReadSpace_skip by lia. fold rs. lia.
    + unfold rb_skip. cbn. rewrite drop_nil. reflexivity.
  - split; [| split; assumption]. split; [lia |]. intros Hp. lia.
Qed.

End TargetDuration.

Section TargetDurationClaim.

Lemma iteration_duration (fr : Frame) (inhop outhop : Z) (s : R3Stretcher) :
  isRealTime s = false ->
  0 < m_totalTargetDuration s < 2 ^ 63 ->
  duration_inv s ->
  1 <= outhop < 2 ^ 31 -> frame_counts_ok fr ->
  let s' := iteration fr inhop outhop s in
  duration_inv s' /\
  m_totalTargetDuration s' = m_totalTargetDuration s /\
  m_parameters s' = m_parameters s.
Proof.
  intros Hrt Ht Hinv Hoh Hfr. cbv zeta. unfold iteration.
  match goal with
  | |- context [emit ?a ?b ?c ?d ?e ?x] =>
      pose proof (emit_duration a b c d e x) as He
  end.
  cbv zeta in He. apply He; clear He; try assumption.
  - destruct Hinv as [Ho Hsk]. split; [exact Ho |].
    intros Hp. specialize (Hsk Hp).
    unfold outbuf0 in Hsk |- *.
    cbn [m_channelData set_m_channelData set_m_unityCount
         m_totalOutputDuration].
    destruct (m_channelData s) as [| cd0 rest]; [exact Hsk |].
    cbn [imap]. exact Hsk.
  - unfold frame_counts_ok in Hfr.
    match goal with
    | |- context [if ?b then _ else _] => destruct b
    end; lia.
Qed.

Lemma loop_guard_keeps (s s1 : R3Stretcher) :
  loop_guard s = Fin (Some s1) ->
  m_parameters s1 = m_parameters s /\
  m_totalTargetDuration s1 = m_totalTargetDuration s /\
  m_totalOutputDuration s1 = m_totalOutputDuration s /\
  m_startSkip s1 = m_startSkip s /\
  m_channelData s1 = m_channelData s.
Proof.
  unfold loop_guard. intros H.
  destruct (getReadSpace (inbuf0 s) <? _);
    [| injection H as <-; repeat split].
  destruct (ProcessMode_eqb (m_mode s) Finished); [| discriminate].
  destruct (getReadSpace (inbuf0 s) =? 0);
    [| injection H as <-; repeat split].
  destruct (m_channelData s) as [| cd0 rest] eqn:Hcd; [discriminate |].
  destruct (scales cd0 !! _) as [scale |]; [| discriminate].
  destruct (accumulatorFill scale =? 0); [discriminate |].
  injection H as <-. cbn. rewrite Hcd. repeat split.
Qed.

Lemma consume_loop_duration (frames : list Frame) (inhop outhop : Z) :
  1 <= outhop < 2 ^ 31 ->
  Forall frame_counts_ok frames ->
  forall s s',
    isRealTime s = false ->
    0 < m_totalTargetDuration s < 2 ^ 63 ->
    duration_inv s ->
    consume_loop frames inhop outhop s = Fin s' ->
    duration_inv s' /\ m_totalTargetDuration s' = m_totalTargetDuration s.
Proof.
  intros Hoh Hfrs.
  induction Hfrs as [| fr rest Hfr Hrest IH]; intros s s' Hrt Ht Hinv H;
    cbn [consume_loop] in H;
    destruct (getWriteSpace (outbuf0 s) <? outhop);
    try (injection H as <-; split; [exact Hinv | reflexivity]);
    destruct (loop_guard s) as [[s1 |] | | |] eqn:Hg; cbn [bind] in H;
    try discriminate;
    try (injection H as <-; split; [exact Hinv | reflexivity]).
  apply loop_guard_keeps in Hg as (G1 & G2 & G3 & G4 & G5).
  assert (Hinv1 : duration_inv s1).
  { unfold duration_inv, outbuf0 in *. rewrite G2, G3, G4, G5. exact Hinv. }
  assert (Hrt1 : isRealTime s1 = false)
    by (unfold isRealTime in *; rewrite G1; exact Hrt).
  pose proof (iteration_duration fr inhop outhop s1 Hrt1
                ltac:(rewrite G2; exact Ht) Hinv1 Hoh Hfr) as (I1 & I2 & I3).
  cbv zeta in I1, I2, I3.
  apply IH in H as [Hd He]; try assumption.
  - split; [exact Hd | congruence].
  - unfold isRealTime in *. rewrite I3. exact Hrt1.
  - rewrite I2, G2. exact Ht.
Qed.

(** C5, as amended: in offline mode with a target duration set
    ([0 < totalTargetDuration]), [totalOutputDuration] never exceeds
    [totalTargetDuration]: the bound, together with the emptiness of the
    output ring while start padding is pending, is kept by every turn of
    the loop of [consume] and so by [consume]; and whenever emitting a
    full frame of [writeCount] samples would take [totalOutputDuration]
    past [totalTargetDuration], the write count is cut down to exactly
    [totalTargetDuration - totalOutputDuration], and is left alone
    otherwise. *)
Theorem C5_output_within_target (s : R3Stretcher) :
  isRealTime s = false ->
  0 < m_totalTargetDuration s < 2 ^ 63 ->
  duration_inv s ->
  (forall writeCount,
     0 <= writeCount < 2 ^ 31 ->
     (m_totalTargetDuration s < m_totalOutputDuration s + writeCount ->
      snd (limit_writeCount writeCount s)
      = m_totalTargetDuration s - m_totalOutputDuration s) /\
     (m_totalOutputDuration s + writeCount <= m_totalTargetDuration s ->
      snd (limit_writeCount writeCount s) = writeCount)) /\
  (forall fr inhop outhop,
     1 <= outhop < 2 ^ 31 -> frame_counts_ok fr ->
     let s' := iteration fr inhop outhop s in
     duration_inv s' /\
     m_totalOutputDuration s' <= m_totalTargetDuration s' /\
     m_totalTargetDuration s' = m_totalTargetDuration s) /\
  (forall calculated frames s',
     calculated < 2 ^ 31 -> Forall frame_counts_ok frames ->
     consume calculated frames s = Fin s' ->
     duration_inv s' /\
     m_totalOutputDuration s' <= m_totalTargetDuration s' /\
     m_totalTargetDuration s' = m_totalTargetDuration s).
Proof.
  intros Hrt Ht Hinv. split; [| split].
  - intros wc Hwc. apply limit_writeCount_spec; try assumption. apply Hinv.
  - intros fr inhop outhop Hoh Hfr.
    pose proof (iteration_duration fr inhop outhop s Hrt Ht Hinv Hoh Hfr)
      as (I1 & I2 & _).
    cbv zeta in *. split; [exact I1 |]. split; [apply I1 | exact I2].
  - intros calculated frames s' Hc Hfrs H. unfold consume in H.
    assert (Haux : forall inhop outhop sA,
              1 <= outhop < 2 ^ 31 ->
              (m_parameters sA = m_parameters s /\
               m_totalTargetDuration sA = m_totalTargetDuration s /\
               m_totalOutputDuration sA = m_totalOutputDuration s /\
               m_startSkip sA = m_startSkip s /\
               m_channelData sA = m_channelData s) ->
              match m_channelData sA with
              | [] => Thrown
              | _ :: _ => consume_loop frames inhop outhop sA
              end = Fin s' ->
              duration_inv s' /\
              m_totalTargetDuration s' = m_totalTargetDuration s).
    { intros inhop outhop sA Hoh (A1 & A2 & A3 & A4 & A5) HA.
      destruct (m_channelData sA) eqn:Hcd; [discriminate |].
      apply consume_loop_duration in HA as [Hd He]; try assumption.
      - split; [exact Hd | congruence].
      - unfold isRealTime in *. rewrite A1. exact Hrt.
      - rewrite A2. exact Ht.
      - unfold duration_inv, outbuf0 in *. rewrite <- A5 in Hinv.
        rewrite Hcd, A2, A3, A4. exact Hinv. }
    assert (Hres : duration_inv s' /\
                   m_totalTargetDuration s' = m_totalTargetDuration s).
    { destruct (Z.ltb_spec calculated 1); cbv beta iota zeta in H;
        (eapply Haux; [| | exact H]; [lia |]);
        repeat match goal with
               | |- context [if ?b then _ else _] => destruct b
               end; repeat split. }
    destruct Hres as [Hd He]. split; [exact Hd |]. split; [apply Hd | exact He].
Qed.

End TargetDurationClaim.

(** C5 on [engine_C5_target]: the target is 10 and 4 samples are out; a
    frame of 8 samples is cut down to 6, and the output stops at 10. *)
Lemma C5_witness :
  isRealTime engine_C5_target = false /\
  0 < m_totalTargetDuration engine_C5_target < 2 ^ 63 /\
  duration_inv engine_C5_target /\
  snd (limit_writeCount 8 engine_C5_target) = 6 /\
  m_totalOutputDuration (iteration idle_frame 8 8 engine_C5_target) = 10.
Proof.
  assert (Hrt : isRealTime engine_C5_target = false) by reflexivity.
  assert (Ht : 0 < m_totalTargetDuration engine_C5_target < 2 ^ 63)
    by (vm_compute; split; reflexivity).
  assert (Hinv : duration_inv engine_C5_target).
  { split; [vm_compute; split; discriminate |].
    intros Hp. exfalso. vm_compute in Hp. discriminate. }
  split; [exact Hrt |]. split; [exact Ht |]. split; [exact Hinv |].
  destruct (C5_output_within_target engine_C5_target Hrt Ht Hinv)
    as (Hlim & _ & _).
  split.
  - destruct (Hlim 8 ltac:(lia)) as [Hcut _]. rewrite Hcut; reflexivity.
  - vm_compute. reflexivity.
Defined.

(** C5, as stated, fails when no target duration is set: on [engine_C5],
    offline with [totalTargetDuration = 0], [consume] emits two frames of
    8 samples and [totalOutputDuration] is 16. *)
Lemma C5_counterexample :
  isRealTime engine_C5 = false /\
  m_totalTargetDuration engine_C5 = 0 /\
  exists s',
    consume 8 [idle_frame; idle_frame] engine_C5 = Fin s' /\
    m_totalTargetDuration s' = 0 /\ m_totalOutputDuration s' = 16 /\
    ~ (m_totalOutputDuration s' <= m_totalTargetDuration s').
Proof.
  split; [reflexivity |]. split; [reflexivity |].
  destruct (consume 8 [idle_frame; idle_frame] engine_C5) as [s' | | |] eqn:Hc;
    try (exfalso; vm_compute in Hc; discriminate).
  exists s'. split; [reflexivity |].
  assert (He : Fin s' = consume 8 [idle_frame; idle_frame] engine_C5)
    by (symmetry; exact Hc).
  assert (Ht : m_totalTargetDuration s' = 0).
  { apply (f_equal (fun r => match r with
                             | Fin x => m_totalTargetDuration x
                             | _ => 1
                             end)) in He.
    cbn beta iota in He. rewrite He. vm_compute. reflexivity. }
  assert (Ho : m_totalOutputDuration s' = 16).
  { apply (f_equal (fun r => match r with
                             | Fin x => m_totalOutputDuration x
                             | _ => 0
                             end)) in He.
    cbn beta iota in He. rewrite He. vm_compute. reflexivity. }
  split; [exact Ht |]. split; [exact Ho |]. rewrite Ht, Ho. lia.
Qed.

(** ** Loops over the scales *)

Section ScaleLoops.

Lemma scale_sizes_NoDup (m : gmap Z ChannelScaleData) :
  NoDup (scale_sizes m).
Proof.
  unfold scale_sizes. rewrite merge_sort_Permutation.
  apply NoDup_fst_map_to_list.
Qed.

Lemma elem_of_scale_sizes (m : gmap Z ChannelScaleData) (k : Z) :
  k ∈ scale_sizes m <-> is_Some (m !! k).
Proof.
  unfold scale_sizes. rewrite merge_sort_Permutation.
  rewrite list_elem_of_fmap. split.
  - intros ([k' sc] & -> & Hin). apply elem_of_map_to_list in Hin.
    exists sc. exact Hin.
  - intros [sc Hsc]. exists (k, sc). split; [reflexivity |].
    apply elem_of_map_to_list. exact Hsc.
Qed.

Lemma flat_map_ext_elem {A B : Type} (f g : A -> list B) (l : list A) :
  (forall x, x ∈ l -> f x = g x) -> flat_map f l = flat_map g l.
Proof.
  induction l as [| x l IH]; intros H; [reflexivity |].
  cbn [flat_map]. rewrite (H x) by left.
  rewrite IH; [reflexivity |]. intros y Hy. apply H. right. exact Hy.
Qed.

(** The loop visits each size once: the scale at [j] is changed by the
    body's turn for [j] alone, and the calls are those of the turns in
    order. *)
Lemma for_scales_fold
    (body : Z -> ChannelScaleData
            -> option (ChannelScaleData * list AnalysisEvent))
    (l : list Z) :
  NoDup l ->
  forall a : Analysis,
    let r :=
      foldl (fun a fftSize =>
               match fst a !! fftSize with
               | Some scale =>
                 match body fftSize scale with
                 | Some (scale', evs) =>
                   (<[fftSize := scale']> (fst a), (snd a ++ evs)%list)
                 | None => a
                 end
               | None => a
               end) a l in
    (forall j, fst r !! j
               = if decide (j ∈ l) then scale_after body j <$> fst a !! j
                 else fst a !! j) /\
    snd r = (snd a ++ flat_map (calls_of body (fst a)) l)%list.
Proof.
  induction 1 as [| k l Hk Hnd IH]; intros a; cbv zeta.
  - cbn [foldl flat_map]. split.
    + intros j. destruct (decide (j ∈ [])) as [Hin | _]; [| reflexivity].
      inversion Hin.
    + rewrite app_nil_r. reflexivity.
  - cbn [foldl flat_map].
    set (a1 := match fst a !! k with
               | Some scale =>
                 match body k scale with
                 | Some (scale', evs) =>
                   (<[k := scale']> (fst a), (snd a ++ evs)%list)
                 | None => a
                 end
               | None => a
               end).
    assert (Hk1 : fst a1 !! k = scale_after body k <$> fst a !! k).
    { unfold a1. destruct (fst a !! k) as [sc |] eqn:Hsc.
      - cbn [fmap option_fmap option_map]. unfold scale_after.
        destruct (body k sc) as [[sc' evs] |] eqn:Hb.
        + cbn [fst]. rewrite lookup_insert_eq. reflexivity.
        + rewrite Hsc. reflexivity.
      - rewrite Hsc. reflexivity. }
    assert (Hne : forall j, j <> k -> fst a1 !! j = fst a !! j).
    { intros j Hj. unfold a1. destruct (fst a !! k) as [sc |];
        [| reflexivity].
      destruct (body k sc) as [[sc' evs] |]; [| reflexivity].
      cbn [fst]. rewrite lookup_insert_ne by congruence. reflexivity. }
    assert (Hev : snd a1 = (snd a ++ calls_of body (fst a) k)%list).
    { unfold a1, calls_of. destruct (fst a !! k) as [sc |];
        [| rewrite app_nil_r; reflexivity].
      destruct (body k sc) as [[sc' evs] |];
        [reflexivity | rewrite app_nil_r; reflexivity]. }
    destruct (IH a1) as [IHl IHe]. cbv zeta in IHl, IHe. split.
    + intros j. rewrite IHl.
      destruct (decide (j = k)) as [-> | Hjk].
      * destruct (decide (k ∈ l)) as [Hin | _]; [contradiction |].
        destruct (decide (k ∈ k :: l)) as [_ | Hn];
          [exact Hk1 | exfalso; apply Hn; left].
      * rewrite (Hne j Hjk).
        destruct (decide (j ∈ l)) as [Hin | Hin];
          destruct (decide (j ∈ k :: l)) as [Hin' | Hin'];
          try reflexivity.
        -- exfalso. apply Hin'. right. exact Hin.
        -- exfalso. apply elem_of_cons in Hin'.
           destruct Hin' as [-> | Hin']; contradiction.
    + rewrite IHe, Hev, <- app_assoc. f_equal. f_equal.
      apply flat_map_ext_elem. intros j Hj. unfold calls_of.
      rewrite Hne; [reflexivity |]. intros ->. contradiction.
Qed.

Lemma for_scales_lookup body (a : Analysis) (j : Z) :
  fst (for_scales body a) !! j = scale_after body j <$> fst a !! j.
Proof.
  destruct (for_scales_fold body (scale_sizes (fst a))
              (scale_sizes_NoDup (fst a)) a) as [Hl _].
  cbv zeta in Hl. unfold for_scales. rewrite Hl.
  destruct (decide (j ∈ scale_sizes (fst a))) as [_ | Hn]; [reflexivity |].
  rewrite elem_of_scale_sizes in Hn.
  destruct (fst a !! j) as [sc |] eqn:Hsc; [| reflexivity].
  exfalso. apply Hn. exists sc. reflexivity.
Qed.




End ScaleLoops.

(** ** Readahead reuse (C9) *)

Section ReadaheadReuse.

Variable cut : Z -> list R -> list R -> list R.
Variable forward : Z -> list R -> list R * list R.
Variable convertToPolar :
  list R -> list R -> list R -> list R -> ToPolarSpec -> list R * list R.
Variable config : Configuration.

Local Abbreviation longest := (longestFftSize config).
Local Abbreviation classify := (classificationFftSize config).








(** *** Windowing (lines 851-884) *)



(** *** The readahead takes the place of the current frame
    (lines 895-928) *)



(** *** The loop over the scales (lines 937-988) *)




End ReadaheadReuse.

Section ReadaheadClaim.

Variable cut : Z -> list R -> list R -> list R.
Variable forward : Z -> list R -> list R * list R.
Variable convertToPolar :
  list R -> list R -> list R -> list R -> ToPolarSpec -> list R * list R.


End ReadaheadClaim.


(** ** The loop of [consume] ends *)

Section LoopEnds.

Lemma consume_loop_unfold (frames : list Frame) (inhop outhop : Z)
    (s : R3Stretcher) :
  consume_loop frames inhop outhop s
  = if getWriteSpace (outbuf0 s) <? outhop then Fin s
    else
      g <- loop_guard s ;;
      match g with
      | None => Fin s
      | Some s1 =>
        match frames with
        | [] => Pending
        | fr :: rest =>
          consume_loop rest inhop outhop (iteration fr inhop outhop s1)
        end
      end.
Proof. destruct frames; reflexivity. Qed.

(** The guard of the loop at most logs. *)
Lemma loop_guard_logs (s s1 : R3Stretcher) :
  loop_guard s = Fin (Some s1) ->
  m_channelData s1 = m_channelData s /\
  m_guideConfiguration s1 = m_guideConfiguration s.
Proof.
  unfold loop_guard. intros H.
  destruct (getReadSpace (inbuf0 s) <? _);
    [| injection H as <-; split; reflexivity].
  destruct (ProcessMode_eqb (m_mode s) Finished); [| discriminate].
  destruct (getReadSpace (inbuf0 s) =? 0);
    [| injection H as <-; split; reflexivity].
  destruct (m_channelData s) as [| cd0 rest] eqn:Hcd; [discriminate |].
  destruct (scales cd0 !! _) as [scale |]; [| discriminate].
  destruct (accumulatorFill scale =? 0); [discriminate |].
  injection H as <-. cbn. rewrite Hcd. split; reflexivity.
Qed.

Lemma loop_guard_not_pending (s : R3Stretcher) : loop_guard s <> Pending.
Proof.
  unfold loop_guard.
  repeat match goal with
         | |- context [if ?b then _ else _] => destruct b
         | |- context [match ?x with _ => _ end] => destruct x
         end; discriminate.
Qed.

(** With the input ring empty the loop goes on only to drain a fill
    counter that is not zero. *)
Lemma loop_guard_draining (s s1 : R3Stretcher) :
  getReadSpace (inbuf0 s) = 0 ->
  1 <= longestFftSize (m_guideConfiguration s) ->
  loop_guard s = Fin (Some s1) ->
  fill0 s <> 0 /\
  exists cd0 rest scale,
    m_channelData s = cd0 :: rest /\
    scales cd0 !! longestFftSize (m_guideConfiguration s) = Some scale.
Proof.
  intros Hrs Hl. unfold loop_guard, fill0. rewrite Hrs.
  destruct (Z.ltb_spec 0 (longestFftSize (m_guideConfiguration s)));
    [| lia].
  destruct (ProcessMode_eqb (m_mode s) Finished); [| discriminate].
  cbn [Z.eqb].
  destruct (m_channelData s) as [| cd0 rest]; [discriminate |].
  destruct (scales cd0 !! longestFftSize (m_guideConfiguration s))
    as [scale |] eqn:Hsc; [| discriminate].
  destruct (Z.eqb_spec (accumulatorFill scale) 0) as [| Hne];
    [discriminate |].
  intros _. split; [exact Hne |].
  exists cd0, rest, scale. split; [reflexivity | exact Hsc].
Qed.

(** What emission does to the channels: the scales are left alone and
    every input ring is advanced. *)
Lemma emit_channels (inhop outhop readSpace : Z) (resampling : bool)
    (resampledCount : Z) (s : R3Stretcher) :
  m_guideConfiguration
    (emit inhop outhop readSpace resampling resampledCount s)
  = m_guideConfiguration s /\
  exists G : ChannelData -> ChannelData,
    m_channelData (emit inhop outhop readSpace resampling resampledCount s)
    = map G (m_channelData s) /\
    forall cd,
      scales (G cd) = scales cd /\
      inbuf (G cd)
      = rb_skip (if readSpace <? inhop then readSpace else inhop) (inbuf cd).
Proof.
  unfold emit.
  destruct (limit_writeCount (if resampling then resampledCount else outhop) s)
    as [s1 wc] eqn:H1.
  destruct (limit_advanceCount inhop readSpace s1) as [s2 ac] eqn:H2.
  assert (K1 : m_channelData s1 = m_channelData s /\
               m_guideConfiguration s1 = m_guideConfiguration s).
  { unfold limit_writeCount in H1.
    destruct (_ && _) in H1; injection H1 as <- _; split; reflexivity. }
  assert (K2 : m_channelData s2 = m_channelData s1 /\
               m_guideConfiguration s2 = m_guideConfiguration s1 /\
               ac = if readSpace <? inhop then readSpace else inhop).
  { unfold limit_advanceCount in H2. destruct (readSpace <? inhop).
    - destruct (ProcessMode_eqb (m_mode s1) Finished);
        injection H2 as <- <-; repeat split.
    - injection H2 as <- <-. repeat split. }
  destruct K1 as [K1 C1]. destruct K2 as (K2 & C2 & ->).
  unfold start_skip.
  destruct (0 <? m_startSkip _).
  - split; [cbn; congruence |].
    cbn [m_channelData set_prevHops set_m_totalOutputDuration
         set_m_startSkip set_m_channelData write_frame
         set_m_consumedInputDuration].
    rewrite map_map, K2, K1. eexists. split; [reflexivity |].
    intros cd. split; reflexivity.
  - split; [cbn; congruence |].
    cbn [m_channelData set_prevHops set_m_totalOutputDuration
         set_m_channelData write_frame set_m_consumedInputDuration].
    rewrite K2, K1. eexists. split; [reflexivity |].
    intros cd. split; reflexivity.
Qed.

(** One turn of the loop advances the input ring of channel 0, keeps the
    configuration, and while draining takes the output hop off the fill
    counter or zeroes it. *)
Lemma iteration_progress (fr : Frame) (inhop outhop : Z) (s : R3Stretcher) :
  0 <= inhop ->
  let s' := iteration fr inhop outhop s in
  let rs := getReadSpace (inbuf0 s) in
  m_guideConfiguration s' = m_guideConfiguration s /\
  getReadSpace (inbuf0 s') = rs - Z.min inhop rs /\
  (rs = 0 ->
   (exists cd0 rest scale,
      m_channelData s = cd0 :: rest /\
      scales cd0 !! longestFftSize (m_guideConfiguration s) = Some scale) ->
   fill0 s' = 0 \/ (outhop < fill0 s /\ fill0 s' = fill0 s - outhop)).
Proof.
  intros Hin. cbv zeta. unfold iteration.
  match goal with
  | |- context [emit ?a ?b ?c ?d ?e ?x] =>
    pose proof (emit_channels a b c d e x) as (Hcfg & G & HG & HGs);
    set (s' := emit a b c d e x) in *; clearbody s'
  end.
  cbn [m_guideConfiguration set_m_channelData set_m_unityCount] in Hcfg.
  cbn [m_channelData set_m_channelData set_m_unityCount] in HG.
  remember (getReadSpace (inbuf0 s)) as rs eqn:Hrsdef.
  assert (Hrs0 : 0 <= rs) by (subst rs; unfold getReadSpace; lia).
  split; [exact Hcfg |]. split.
  - unfold inbuf0 in Hrsdef |- *. rewrite HG.
    destruct (m_channelData s) as [| cd0 rest]; cbn [imap map].
    + unfold getReadSpace in Hrsdef |- *.
      cbn [rb_data length] in Hrsdef |- *. lia.
    + destruct (HGs (frame_channel fr outhop (rs =? 0) 0 cd0)) as [_ ->].
      unfold frame_channel. cbv zeta. cbn [inbuf set_inbuf set_outbuf].
      rewrite getReadSpace_skip; rewrite <- ?Hrsdef;
        destruct (Z.ltb_spec rs inhop); lia.
  - intros Hrs (cd0 & rest & scale & Hcd & Hsc).
    unfold fill0. rewrite HG, Hcfg, Hcd. cbn [imap map].
    destruct (HGs (frame_channel fr outhop (rs =? 0) 0 cd0)) as [-> _].
    rewrite Hsc, Hrs. cbn [Z.eqb].
    unfold frame_channel. cbv zeta.
    cbn [scales set_inbuf set_outbuf set_scales].
    rewrite map_lookup_imap.
    destruct (scales (fr_channel fr 0%nat cd0)
              !! longestFftSize (m_guideConfiguration s)) as [sc' |];
      cbn [mbind option_bind]; [| left; reflexivity].
    rewrite Hsc. cbn [accumulatorFill set_accumulatorFill].
    unfold fill_after.
    destruct (Z.ltb_spec outhop (accumulatorFill scale)); [right | left];
      [split; [assumption | reflexivity] | reflexivity].
Qed.

(** Once the input ring is empty the loop ends within [turns_left]
    turns, whatever the frames do. *)
Lemma consume_loop_drains (inhop outhop : Z) :
  0 <= inhop -> 1 <= outhop ->
  forall (b : nat) (frames : list Frame) (s : R3Stretcher),
    1 <= longestFftSize (m_guideConfiguration s) ->
    getReadSpace (inbuf0 s) = 0 ->
    (turns_left (fill0 s) <= b)%nat ->
    (b <= length frames)%nat ->
    consume_loop frames inhop outhop s <> Pending.
Proof.
  intros Hin Hout.
  induction b as [| b IH]; intros frames s Hl Hrs Hb Hlen;
    rewrite consume_loop_unfold;
    (destruct (getWriteSpace (outbuf0 s) <? outhop); [discriminate |]);
    destruct (loop_guard s) as [[s1 |] | | |] eqn:Hg; cbn [bind];
    try discriminate;
    try (exfalso; exact (loop_guard_not_pending s Hg));
    destruct (loop_guard_draining s s1 Hrs Hl Hg) as (Hf & Hex);
    destruct (loop_guard_logs s s1 Hg) as [Hcd Hcfg].
  - exfalso. unfold turns_left in Hb.
    destruct (Z.eqb_spec (fill0 s) 0); [contradiction | lia].
  - destruct frames as [| fr rest]; [cbn [length] in Hlen; lia |].
    assert (Hrs1 : getReadSpace (inbuf0 s1) = 0)
      by (unfold inbuf0 in *; rewrite Hcd; exact Hrs).
    assert (Hf1 : fill0 s1 = fill0 s)
      by (unfold fill0; rewrite Hcd, Hcfg; reflexivity).
    destruct (iteration_progress fr inhop outhop s1 Hin) as (Hc' & Hr' & Hd).
    apply IH.
    + rewrite Hc', Hcfg. exact Hl.
    + rewrite Hr', Hrs1. lia.
    + rewrite Hcd, Hcfg in Hd. specialize (Hd Hrs1 Hex). rewrite Hf1 in Hd.
      unfold turns_left in *.
      destruct (Z.eqb_spec (fill0 s) 0); [contradiction |].
      destruct Hd as [-> | [Hlt ->]]; [cbn; lia |].
      destruct (Z.eqb_spec (fill0 s - outhop) 0); lia.
    + cbn [length] in Hlen. lia.
Qed.

(** The loop of [consume] ends when it is given the frames it asks for:
    every turn with input left advances the input ring, and the turns
    that drain the accumulators count the fill down. *)
Lemma consume_loop_ends (inhop outhop : Z) :
  1 <= inhop -> 1 <= outhop ->
  forall (r : nat) (supply : nat -> Frame) (s : R3Stretcher),
    1 <= longestFftSize (m_guideConfiguration s) ->
    (Z.to_nat (getReadSpace (inbuf0 s)) <= r)%nat ->
    exists n,
      consume_loop (map supply (seq 0 n)) inhop outhop s <> Pending.
Proof.
  intros Hin Hout.
  induction r as [| r IH]; intros supply s Hl Hr.
  - exists (turns_left (fill0 s)).
    apply (consume_loop_drains inhop outhop ltac:(lia) Hout
             (turns_left (fill0 s))); try assumption.
    + unfold getReadSpace in *. lia.
    + lia.
    + rewrite length_map, length_seq. lia.
  - destruct (Z.eq_dec (getReadSpace (inbuf0 s)) 0) as [Hz | Hnz].
    + exists (turns_left (fill0 s)).
      apply (consume_loop_drains inhop outhop ltac:(lia) Hout
               (turns_left (fill0 s))); try assumption.
      * lia.
      * rewrite length_map, length_seq. lia.
    + destruct (getWriteSpace (outbuf0 s) <? outhop) eqn:Hw.
      { exists O. rewrite consume_loop_unfold, Hw. discriminate. }
      destruct (loop_guard s) as [[s1 |] | | |] eqn:Hg.
      * destruct (loop_guard_logs s s1 Hg) as [Hcd Hcfg].
        destruct (iteration_progress (supply O) inhop outhop s1 ltac:(lia))
          as (Hc' & Hr' & _).
        assert (Hrs1 : getReadSpace (inbuf0 s1) = getReadSpace (inbuf0 s))
          by (unfold inbuf0; rewrite Hcd; reflexivity).
        assert (Hpos : 0 <= getReadSpace (inbuf0 s))
          by (unfold getReadSpace; lia).
        destruct (IH (fun i => supply (S i))
                    (iteration (supply O) inhop outhop s1)) as [n Hn].
        -- rewrite Hc', Hcfg. exact Hl.
        -- rewrite Hr', Hrs1. lia.
        -- exists (S n). rewrite consume_loop_unfold, Hw, Hg. cbn [bind].
           cbn [seq map]. rewrite <- seq_shift, map_map. exact Hn.
      * exists O. rewrite consume_loop_unfold, Hw, Hg. discriminate.
      * exists O. rewrite consume_loop_unfold, Hw, Hg. discriminate.
      * exists O. rewrite consume_loop_unfold, Hw, Hg. discriminate.
      * exfalso. exact (loop_guard_not_pending s Hg).
Qed.

(** Frames beyond those the loop asks for change nothing. *)
Lemma consume_loop_more (inhop outhop : Z) (more : list Frame) :
  forall (given : list Frame) (s : R3Stretcher),
    consume_loop given inhop outhop s <> Pending ->
    consume_loop (given ++ more) inhop outhop s
    = consume_loop given inhop outhop s.
Proof.
  induction given as [| fr rest IH]; intros s Hp;
    rewrite (consume_loop_unfold (_ ++ more));
    rewrite consume_loop_unfold in Hp |- *;
    (destruct (getWriteSpace (outbuf0 s) <? outhop); [reflexivity |]);
    destruct (loop_guard s) as [[s1 |] | | |]; cbn [bind] in Hp |- *;
    try reflexivity.
  - contradiction.
  - cbn [app]. apply IH. exact Hp.
Qed.

End LoopEnds.

Section ConsumeEnds.

(** [consume] ends when it is given the frames it asks for: it returns,
    or throws where [at] finds no scale. *)
Lemma consume_ends (calculated : Z) (supply : nat -> Frame)
    (s : R3Stretcher) :
  1 <= m_inhop s ->
  1 <= longestFftSize (m_guideConfiguration s) ->
  exists n, consume calculated (map supply (seq 0 n)) s <> Pending.
Proof.
  intros Hin Hl. unfold consume.
  assert (Haux : forall (sA : R3Stretcher) (outhop : Z),
             1 <= outhop ->
             m_guideConfiguration sA = m_guideConfiguration s ->
             exists n,
               match m_channelData sA with
               | [] => Thrown
               | _ :: _ =>
                 consume_loop (map supply (seq 0 n)) (m_inhop s) outhop sA
               end <> Pending).
  { intros sA outhop Ho Hc.
    destruct (m_channelData sA) as [| cd0 rest] eqn:Hcd;
      [exists O; discriminate |].
    apply (consume_loop_ends (m_inhop s) outhop Hin Ho
             (Z.to_nat (getReadSpace (inbuf0 sA)))).
    - rewrite Hc. exact Hl.
    - lia. }
  destruct (Z.ltb_spec calculated 1) as [Hc | Hc];
    cbv beta iota zeta;
    destruct (m_inhop s =? _); destruct (_ =? _);
    apply Haux; solve [lia | reflexivity].
Qed.

End ConsumeEnds.

(** * Further properties of the engine *)

(** ** Construction and the control surface *)

Section ControlSurface.

(** [calculateHop] writes the input hop and the log and nothing else. *)
Lemma calculateHop_frame (s s' : R3Stretcher) :
  calculateHop s = Fin s' ->
  s' = set_m_log (m_log s') (set_m_inhop (m_inhop s') s).
Proof.
  unfold calculateHop. intros H.
  match type of H with
  | bind ?c _ = _ => destruct c as [p | | |]
  end; cbn [bind] in H; try discriminate.
  match type of H with
  | bind ?c _ = _ => destruct c as [q | | |]
  end; cbn [bind] in H; try discriminate.
  destruct (Rlt_dec q 1);
    match type of H with
    | context [Rgt_dec ?a ?b] => destruct (Rgt_dec a b)
    end; injection H as <-; reflexivity.
Qed.

(** For a positive effective ratio [calculateHop] returns, with an input
    hop in [1, 1024]. *)
Lemma calculateHop_returns (s : R3Stretcher) :
  (0 < getEffectiveRatio s)%R ->
  exists s', calculateHop s = Fin s' /\
    m_inhop s' = inhop_spec (getEffectiveRatio s) /\
    1 <= m_inhop s' <= 1024 /\
    s' = set_m_log (m_log s') (set_m_inhop (m_inhop s') s).
Proof.
  intros Hr. destruct (calculateHop_inhop s Hr) as (s' & He & Hi & _).
  exists s'. split; [exact He |]. split; [exact Hi |].
  split; [| apply calculateHop_frame; exact He].
  rewrite Hi. unfold inhop_spec.
  set (x := (clamp 128 512 (proposed_outhop_spec (getEffectiveRatio s)) /
             getEffectiveRatio s)%R).
  pose proof (clamp_bounds 1 1024 x ltac:(lra)) as [Hlo Hhi].
  split.
  - apply Zfloor_lub. simpl. exact Hlo.
  - pose proof (Zfloor_bound (clamp 1 1024 x)) as [Hb _].
    apply le_IZR. lra.
Qed.



End ControlSurface.


Section OfflineRun.

(** A control call in an offline run that is [Processing] is refused
    with one message of severity 0. *)
Lemma control_refused (call : Call) (s : R3Stretcher) :
  is_control call = true ->
  isRealTime s = false -> m_mode s = Processing ->
  exists e, do_call call s = Fin (set_m_log (m_log s ++ [e]) s) /\
            severity e = 0.
Proof.
  intros Hc Hrt Hm.
  destruct call; try discriminate Hc; cbn [do_call];
    unfold setTimeRatio, setPitchScale, setFormantScale, setPitchOption,
      setKeyFrameMap, study, in_offline_run;
    rewrite ?Hrt, ?Hm; cbn [negb andb orb ProcessMode_eqb];
    eexists; (split; [reflexivity | reflexivity]).
Qed.

(** X2: while an offline engine is [Processing], no sequence of calls of
    [setTimeRatio], [setPitchScale], [setFormantScale], [setPitchOption],
    [setKeyFrameMap] and [study] changes anything but the log: every
    call returns, adds one message of severity 0 and leaves the ratios,
    the hop, the map, the study duration, the mode and the buffers as
    they were. *)
Theorem X2_offline_processing_frozen (calls : list Call) :
  forall s : R3Stretcher,
    isRealTime s = false -> m_mode s = Processing ->
    forallb is_control calls = true ->
    exists s' entries,
      do_calls calls s = Fin s' /\
      s' = set_m_log (m_log s ++ entries) s /\
      length entries = length calls /\
      Forall (fun e => severity e = 0) entries.
Proof.
  induction calls as [| call rest IH]; intros s Hrt Hm Hall.
  - exists s, []. cbn [do_calls]. split; [reflexivity |].
    split; [rewrite app_nil_r; destruct s; reflexivity |].
    split; [reflexivity | constructor].
  - cbn [forallb] in Hall. apply andb_prop in Hall as [Hc Hrest].
    destruct (control_refused call s Hc Hrt Hm) as (e & He & Hsev).
    cbn [do_calls]. rewrite He. cbn [bind].
    destruct (IH (set_m_log (m_log s ++ [e]) s) Hrt Hm Hrest)
      as (s' & entries & Hd & Hs' & Hlen & Hf).
    exists s', (e :: entries). split; [exact Hd |].
    split.
    + rewrite Hs'. cbn [m_log set_m_log]. rewrite <- app_assoc. reflexivity.
    + split; [cbn [length]; congruence | constructor; assumption].
Qed.

End OfflineRun.

(** X2 on [engine_processing] and three calls. *)
Lemma X2_witness :
  exists s',
    do_calls [CallSetTimeRatio 2; CallStudy 100; CallSetKeyFrameMap [(1, 2)]]
      engine_processing = Fin s' /\
    m_timeRatio s' = 1%R /\ m_studyInputDuration s' = 0 /\
    m_keyFrameMap s' = [] /\
    length (m_log s') = 5%nat.
Proof.
  destruct (X2_offline_processing_frozen
              [CallSetTimeRatio 2; CallStudy 100; CallSetKeyFrameMap [(1, 2)]]
              engine_processing eq_refl eq_refl eq_refl)
    as (s' & entries & Hd & Hs' & Hlen & _).
  exists s'. split; [exact Hd |]. rewrite Hs'.
  cbn [m_timeRatio m_studyInputDuration m_keyFrameMap m_log set_m_log].
  repeat (split; [reflexivity |]).
  rewrite length_app, Hlen. reflexivity.
Defined.

Section RatioSetters.

Local Open Scope R_scope.


End RatioSetters.


(** ** Studying and the target duration *)

Section Study.

Lemma set_m_mode_id (s : R3Stretcher) : set_m_mode (m_mode s) s = s.
Proof. destruct s. reflexivity. Qed.

(** Further blocks add to the study duration. *)
Lemma study_all_studying (blocks : list Z) :
  forall s : R3Stretcher,
    isRealTime s = false -> m_mode s = Studying ->
    Forall (fun n => 0 <= n) blocks ->
    0 <= m_studyInputDuration s ->
    m_studyInputDuration s + foldr Z.add 0 blocks < 2 ^ 64 ->
    study_all blocks s
    = set_m_studyInputDuration
        (m_studyInputDuration s + foldr Z.add 0 blocks) s.
Proof.
  induction blocks as [| n rest IH]; intros s Hrt Hm Hpos Hd Hsum.
  - cbn [study_all foldl foldr]. rewrite Z.add_0_r. destruct s. reflexivity.
  - apply Forall_cons in Hpos as [Hn Hrest]. cbn [foldr] in Hsum |- *.
    assert (Hs : 0 <= foldr Z.add 0 rest).
    { clear -Hrest. induction rest as [| m l IHl]; cbn [foldr]; [lia |].
      apply Forall_cons in Hrest as [Hm Hl]. specialize (IHl Hl). lia. }
    unfold study_all. cbn [foldl]. fold (study_all rest (study n s)).
    assert (E : study n s
                = set_m_studyInputDuration (m_studyInputDuration s + n) s).
    { unfold study. rewrite Hrt, Hm. cbn [ProcessMode_eqb orb].
      cbn [m_studyInputDuration set_m_mode].
      rewrite to_size_t_small by lia.
      rewrite <- Hm at 1. rewrite set_m_mode_id. reflexivity. }
    rewrite E. rewrite IH; cbn [m_studyInputDuration set_m_studyInputDuration
                                 isRealTime m_parameters m_mode];
      try assumption; try lia.
    rewrite Z.add_assoc. reflexivity.
Qed.

(** A run of [study] calls on a fresh offline engine adds the blocks up. *)
Lemma study_all_sum (blocks : list Z) (s : R3Stretcher) :
  isRealTime s = false -> m_mode s = JustCreated ->
  blocks <> [] ->
  Forall (fun n => 0 <= n) blocks ->
  foldr Z.add 0 blocks < 2 ^ 64 ->
  study_all blocks s
  = set_m_studyInputDuration (foldr Z.add 0 blocks) (set_m_mode Studying s).
Proof.
  intros Hrt Hm Hne Hpos Hsum.
  destruct blocks as [| n rest]; [contradiction |].
  pose proof Hpos as Hpos'. apply Forall_cons in Hpos' as [Hn Hrest].
  cbn [foldr] in Hsum |- *.
  assert (Hs : 0 <= foldr Z.add 0 rest).
  { clear -Hrest. induction rest as [| m l IHl]; cbn [foldr]; [lia |].
    apply Forall_cons in Hrest as [Hm Hl]. specialize (IHl Hl). lia. }
  unfold study_all. cbn [foldl]. fold (study_all rest (study n s)).
  assert (E : study n s
              = set_m_studyInputDuration n (set_m_mode Studying s)).
  { unfold study. rewrite Hrt, Hm. cbn [ProcessMode_eqb orb].
    cbn [m_studyInputDuration set_m_mode set_m_studyInputDuration].
    rewrite to_size_t_small by lia. reflexivity. }
  rewrite E. rewrite study_all_studying;
    cbn [m_studyInputDuration set_m_studyInputDuration set_m_mode
         isRealTime m_parameters m_mode];
    try assumption; try reflexivity; try lia.
Qed.

(** X4: on a fresh offline engine, [study] called on the blocks of an
    input in turn leaves the engine [Studying] with the sum of the block
    lengths as the study duration, and nothing else changed. *)
Theorem X4_study_accumulates (blocks : list Z) (s : R3Stretcher) :
  isRealTime s = false -> m_mode s = JustCreated ->
  blocks <> [] ->
  Forall (fun n => 0 <= n) blocks ->
  foldr Z.add 0 blocks < 2 ^ 64 ->
  study_all blocks s
  = set_m_studyInputDuration (foldr Z.add 0 blocks) (set_m_mode Studying s).
Proof. apply study_all_sum. Qed.



End Study.

(** X4 on a fresh offline engine and two blocks. *)
Lemma X4_witness :
  m_studyInputDuration
    (study_all [1000; 24]
       (R3Stretcher_init example_parameters small_configuration 1 1 1))
  = 1024 /\
  m_mode
    (study_all [1000; 24]
       (R3Stretcher_init example_parameters small_configuration 1 1 1))
  = Studying.
Proof.
  rewrite (X4_study_accumulates [1000; 24]
             (R3Stretcher_init example_parameters small_configuration 1 1 1)
             eq_refl eq_refl ltac:(discriminate)
             ltac:(repeat constructor; lia) ltac:(cbn; lia)).
  split; reflexivity.
Defined.


(** ** The key-frame map after the start *)

Section KeyFrames.

Local Open Scope R_scope.

Lemma upper_bound_some (k : Z) (m : list (Z * Z)) (e : Z * Z) :
  upper_bound k m = Some e -> In e m /\ (k < fst e)%Z.
Proof.
  unfold upper_bound. intros H. apply find_some in H as [Hin Hlt].
  split; [exact Hin | apply Z.ltb_lt; exact Hlt].
Qed.

(** The tail of both branches of [updateRatioFromMap]: the ratio is
    stored, the hop recomputed and the key frame recorded. *)
Lemma ratio_update_tail (s sX : R3Stretcher) (ratio : R) (v : Z) :
  sX = set_m_log (m_log sX) s ->
  0 < ratio -> 0 < m_pitchScale s ->
  exists s',
    (sY <- calculateHop (set_m_timeRatio ratio sX) ;;
     Fin (set_m_lastKeyFrameSurpassed v sY)) = Fin s' /\
    m_timeRatio s' = ratio /\
    m_lastKeyFrameSurpassed s' = v /\
    m_inhop s' = inhop_spec (ratio * m_pitchScale s) /\
    (1 <= m_inhop s' <= 1024)%Z /\
    only_ratio_changed s s'.
Proof.
  intros HX Hr Hp.
  assert (He : 0 < getEffectiveRatio (set_m_timeRatio ratio sX)).
  { unfold getEffectiveRatio. rewrite HX. cbn.
    apply Rmult_lt_0_compat; assumption. }
  destruct (calculateHop_returns _ He) as (sY & Hc & Hi & Hb & Hf).
  rewrite Hc. cbn [bind]. eexists. split; [reflexivity |].
  cbn [m_timeRatio m_lastKeyFrameSurpassed m_inhop
       set_m_lastKeyFrameSurpassed].
  split; [rewrite Hf; reflexivity |]. split; [reflexivity |].
  split.
  - rewrite Hi. unfold getEffectiveRatio. rewrite HX. reflexivity.
  - split; [exact Hb |]. unfold only_ratio_changed.
    rewrite Hf, HX. reflexivity.
Qed.

(** The ratio [updateRatioFromMap] derives once the pending key frame
    [i0] is surpassed, from the next key frame or, past the last one,
    from the study and target durations. *)
Lemma updateRatioFromMap_surpassed (s : R3Stretcher) (i0 : Z * Z) :
  m_consumedInputDuration s <> 0%Z ->
  keyFrameMap_ok s -> 0 < m_pitchScale s ->
  upper_bound (m_lastKeyFrameSurpassed s) (m_keyFrameMap s) = Some i0 ->
  (fst i0 <= m_consumedInputDuration s)%Z ->
  let next :=
    match upper_bound (m_consumedInputDuration s) (m_keyFrameMap s) with
    | Some i1 => i1
    | None => (m_studyInputDuration s, m_totalTargetDuration s)
    end in
  let ratio :=
    if (fst i0 <? fst next)%Z
    then (if (snd i0 <? snd next)%Z then IZR (snd next - snd i0) else 1)
         / IZR (fst next - fst i0)
    else 1 in
  0 < ratio /\
  exists s',
    updateRatioFromMap s = Fin s' /\
    m_timeRatio s' = ratio /\
    m_lastKeyFrameSurpassed s' = fst i0 /\
    m_inhop s' = inhop_spec (ratio * m_pitchScale s) /\
    (1 <= m_inhop s' <= 1024)%Z /\
    only_ratio_changed s s'.
Proof.
  intros Hc (Hkeys & Hstudy & Htarget) Hp Hub Hle. cbv zeta.
  destruct (upper_bound_some _ _ _ Hub) as [Hin0 Hlt0].
  rewrite Forall_forall in Hkeys.
  destruct (Hkeys i0 ltac:(apply list_elem_of_In; exact Hin0)) as [Hi0a Hi0b].
  set (next := match upper_bound (m_consumedInputDuration s)
                       (m_keyFrameMap s) with
               | Some i1 => i1
               | None => (m_studyInputDuration s, m_totalTargetDuration s)
               end).
  assert (Hnext : is_size_t (fst next) /\ is_size_t (snd next)).
  { unfold next.
    destruct (upper_bound (m_consumedInputDuration s) (m_keyFrameMap s))
      as [i1 |] eqn:H1.
    - apply upper_bound_some in H1 as [Hin1 _].
      apply (Hkeys i1). apply list_elem_of_In. exact Hin1.
    - split; assumption. }
  destruct Hnext as [Hna Hnb]. unfold is_size_t in *.
  assert (Hratio :
            0 < (if (fst i0 <? fst next)%Z
                 then (if (snd i0 <? snd next)%Z
                       then IZR (snd next - snd i0) else 1)
                      / IZR (fst next - fst i0)
                 else 1)).
  { destruct (Z.ltb_spec (fst i0) (fst next)); [| lra].
    apply Rdiv_lt_0_compat.
    - destruct (Z.ltb_spec (snd i0) (snd next)); [| lra].
      apply IZR_lt. lia.
    - apply IZR_lt. lia. }
  split; [exact Hratio |].
  unfold updateRatioFromMap.
  destruct (m_keyFrameMap s) as [| first rest] eqn:Hmap;
    [discriminate Hub |].
  apply Z.eqb_neq in Hc. rewrite Hc. rewrite Hub.
  apply Z.leb_le in Hle. rewrite Hle.
  cbn [m_consumedInputDuration m_keyFrameMap m_studyInputDuration
       m_totalTargetDuration log set_m_log].
  rewrite Hmap.
  assert (Hpair :
            match upper_bound (m_consumedInputDuration s) (first :: rest) with
            | Some i1 => (fst i1, snd i1)
            | None => (m_studyInputDuration s, m_totalTargetDuration s)
            end = (fst next, snd next)).
  { unfold next.
    destruct (upper_bound (m_consumedInputDuration s) (first :: rest))
      as [i1 |]; reflexivity. }
  rewrite Hpair. clearbody next. clear Hpair.
  destruct (Z.ltb_spec (fst i0) (fst next)) as [Hlt | Hge].
  - rewrite (to_size_t_small (fst next - fst i0)) by lia.
    destruct (Z.ltb_spec (snd i0) (snd next)) as [Hlo | Hgo];
      cbv beta iota zeta; unfold ddiv;
      (destruct (Req_dec_T (IZR (fst next - fst i0)) 0) as [Hz | _];
       [apply eq_IZR in Hz; lia |]); cbn [bind].
    + rewrite (to_size_t_small (snd next - snd i0)) by lia.
      apply ratio_update_tail; [reflexivity | exact Hratio | exact Hp].
    + apply ratio_update_tail; [reflexivity | exact Hratio | exact Hp].
  - cbn [bind]. apply ratio_update_tail; [reflexivity | lra | exact Hp].
Qed.

(** X6: once input has been consumed, [updateRatioFromMap] on a map of
    [size_t] indexes and a positive pitch scale always returns, every
    division being guarded.  Either no key frame is newly surpassed and
    the engine is left exactly as it was, or the time ratio it stores is
    positive, the input hop is recomputed within [1, 1024],
    [lastKeyFrameSurpassed] moves strictly forward to a key frame that
    the consumed input has reached, and nothing but the ratio, the hop,
    that index and the log changes: each key frame takes effect at most
    once. *)
Theorem X6_key_frames_guarded (s : R3Stretcher) :
  m_consumedInputDuration s <> 0%Z ->
  keyFrameMap_ok s -> 0 < m_pitchScale s ->
  exists s',
    updateRatioFromMap s = Fin s' /\
    (s' = s \/
     (0 < m_timeRatio s' /\
      (1 <= m_inhop s' <= 1024)%Z /\
      (m_lastKeyFrameSurpassed s < m_lastKeyFrameSurpassed s'
       <= m_consumedInputDuration s)%Z /\
      In (m_lastKeyFrameSurpassed s') (map fst (m_keyFrameMap s)) /\
      only_ratio_changed s s')).
Proof.
  intros Hc Hok Hp.
  destruct (upper_bound (m_lastKeyFrameSurpassed s) (m_keyFrameMap s))
    as [i0 |] eqn:Hub.
  - destruct (Z.leb_spec (fst i0) (m_consumedInputDuration s)) as [Hle | Hgt].
    + destruct (updateRatioFromMap_surpassed s i0 Hc Hok Hp Hub Hle)
        as (Hr & s' & He & Ht & Hl & _ & Hb & Hf).
      exists s'. split; [exact He |]. right.
      destruct (upper_bound_some _ _ _ Hub) as [Hin Hlt].
      rewrite Ht, Hl. split; [exact Hr |]. split; [exact Hb |].
      split; [lia |]. split; [apply in_map; exact Hin | exact Hf].
    + exists s. split; [| left; reflexivity].
      unfold updateRatioFromMap.
      destruct (m_keyFrameMap s) as [| first rest]; [reflexivity |].
      apply Z.eqb_neq in Hc. rewrite Hc, Hub.
      apply Z.leb_gt in Hgt. rewrite Hgt. reflexivity.
  - exists s. split; [| left; reflexivity].
    unfold updateRatioFromMap.
    destruct (m_keyFrameMap s) as [| first rest]; [reflexivity |].
    apply Z.eqb_neq in Hc. rewrite Hc, Hub. reflexivity.
Qed.


End KeyFrames.

Lemma engine_keyframes_ok :
  m_consumedInputDuration engine_keyframes <> 0 /\
  keyFrameMap_ok engine_keyframes /\
  (0 < m_pitchScale engine_keyframes)%R.
Proof.
  split; [discriminate |]. split; [| cbn; lra].
  unfold keyFrameMap_ok, is_size_t.
  split; [| split; cbn; lia].
  repeat constructor; cbn; lia.
Qed.

(** X6 on [engine_keyframes]. *)
Lemma X6_witness :
  exists s',
    updateRatioFromMap engine_keyframes = Fin s' /\
    (s' = engine_keyframes \/
     (m_lastKeyFrameSurpassed engine_keyframes < m_lastKeyFrameSurpassed s'
      <= m_consumedInputDuration engine_keyframes)).
Proof.
  destruct engine_keyframes_ok as (Hc & Hok & Hp).
  destruct (X6_key_frames_guarded engine_keyframes Hc Hok Hp)
    as (s' & He & Hcase).
  exists s'. split; [exact He |].
  destruct Hcase as [Hs | (_ & _ & Hl & _)]; [left | right]; assumption.
Defined.


(** ** Input buffering *)

Section InputBuffering.

Lemma inbuf0_cons (s : R3Stretcher) (cd0 : ChannelData)
    (rest : list ChannelData) :
  m_channelData s = cd0 :: rest -> inbuf0 s = inbuf cd0.
Proof. intros H. unfold inbuf0. rewrite H. reflexivity. Qed.

(** X8: [setMaxProcessSize n] never shrinks the input rings and never
    loses unread input: with sizes that fit an [int], the input ring of
    channel 0 afterwards has the larger of its old size and [L + n],
    every channel keeps its unread samples and its other buffers, and
    an engine that holds at most [L] unread samples has room for [n]
    more. *)
Theorem X8_setMaxProcessSize (n : Z) (s : R3Stretcher) :
  m_channelData s <> [] ->
  0 <= getSize (inbuf0 s) < 2 ^ 31 ->
  0 <= longestFftSize (m_guideConfiguration s) + n < 2 ^ 31 ->
  let s' := setMaxProcessSize n s in
  let L := longestFftSize (m_guideConfiguration s) in
  getSize (inbuf0 s') = Z.max (getSize (inbuf0 s)) (L + n) /\
  length (m_channelData s') = length (m_channelData s) /\
  (forall c cd', m_channelData s' !! c = Some cd' ->
     exists cd, m_channelData s !! c = Some cd /\
       rb_data (inbuf cd') = rb_data (inbuf cd) /\
       cd' = set_inbuf (inbuf cd') cd) /\
  (getReadSpace (inbuf0 s) <= L -> n <= getWriteSpace (inbuf0 s')).
Proof.
  intros Hne Hsz Hn. cbv zeta.
  set (L := longestFftSize (m_guideConfiguration s)) in *.
  destruct (m_channelData s) as [| cd0 rest] eqn:Hcd; [contradiction |].
  assert (H0 : inbuf0 s = inbuf cd0)
    by (apply inbuf0_cons with rest; exact Hcd).
  assert (Hrs : 0 <= getReadSpace (inbuf cd0)) by (unfold getReadSpace; lia).
  destruct (Z.ltb_spec (getSize (inbuf0 s)) (L + n)) as [Hlt | Hge].
  - assert (Hs' : m_channelData (setMaxProcessSize n s)
                  = map (fun cd =>
                           set_inbuf (rb_resized (L + n) (inbuf cd)) cd)
                        (cd0 :: rest)).
    { unfold setMaxProcessSize. fold L.
      rewrite (to_size_t_small (getSize (inbuf0 s))) by lia.
      rewrite (to_size_t_small (L + n)) by lia.
      apply Z.ltb_lt in Hlt. rewrite Hlt.
      rewrite to_int_small by lia.
      cbn [m_channelData set_m_channelData log set_m_log].
      rewrite Hcd. reflexivity. }
    assert (H0' : inbuf0 (setMaxProcessSize n s)
                  = rb_resized (L + n) (inbuf cd0))
      by (unfold inbuf0; rewrite Hs'; reflexivity).
    rewrite H0', Hs', H0 in *.
    split; [unfold getSize in *; cbn [rb_resized rb_size]; lia |].
    split; [rewrite length_map; reflexivity |].
    split.
    + intros c cd' Hc. rewrite list_lookup_fmap in Hc.
      destruct ((cd0 :: rest) !! c) as [cd |]; [| discriminate].
      injection Hc as <-. exists cd. repeat split.
    + unfold getWriteSpace, getReadSpace, rb_resized. cbn [rb_size rb_data].
      unfold getReadSpace in *. lia.
  - assert (Hs' : setMaxProcessSize n s
                  = log 1 "setMaxProcessSize: nothing to be done, newSize <= oldSize" s).
    { unfold setMaxProcessSize. fold L.
      rewrite (to_size_t_small (getSize (inbuf0 s))) by lia.
      rewrite (to_size_t_small (L + n)) by lia.
      apply Z.ltb_ge in Hge. rewrite Hge. reflexivity. }
    assert (H0' : inbuf0 (setMaxProcessSize n s) = inbuf cd0)
      by (rewrite Hs'; unfold inbuf0; cbn [m_channelData log set_m_log];
          rewrite Hcd; reflexivity).
    rewrite H0', H0 in *. rewrite Hs'. cbn [m_channelData log set_m_log].
    rewrite Hcd.
    split; [lia |]. split; [reflexivity |].
    split.
    + intros c cd' Hc. exists cd'. split; [exact Hc |].
      split; [reflexivity | destruct cd'; reflexivity].
    + unfold getWriteSpace, getSize in *. lia.
Qed.

(** X9: [process] in realtime mode never drops input.  With a sample
    count that fits an [int] and is covered by the block given, every
    channel whose input ring has the size and fill of that of channel 0
    holds afterwards its unread samples followed by the whole block:
    where the ring of channel 0 lacks room, the rings are grown to
    exactly fit.  The mode becomes [Finished] on a final block and
    [Processing] otherwise. *)
Theorem X9_process_keeps_input (input : list (list R)) (samples : Z)
    (final : bool) (s : R3Stretcher) (cd0 : ChannelData)
    (rest : list ChannelData) :
  isRealTime s = true ->
  m_channelData s = cd0 :: rest ->
  0 <= samples ->
  getReadSpace (inbuf cd0) <= getSize (inbuf cd0) ->
  getSize (inbuf cd0) + samples < 2 ^ 31 ->
  exists s2,
    process_input input samples final s = Fin s2 /\
    m_mode s2 = (if final then Finished else Processing) /\
    length (m_channelData s2) = length (m_channelData s) /\
    forall c cd,
      m_channelData s !! c = Some cd ->
      getSize (inbuf cd) = getSize (inbuf cd0) ->
      getReadSpace (inbuf cd) = getReadSpace (inbuf cd0) ->
      samples <= Z.of_nat (length (nth c input [])) ->
      exists cd',
        m_channelData s2 !! c = Some cd' /\
        rb_data (inbuf cd')
        = (rb_data (inbuf cd)
           ++ take (Z.to_nat samples) (nth c input []))%list /\
        outbuf cd' = outbuf cd /\ scales cd' = scales cd.
Proof.
  intros Hrt Hcd Hs Hinv Hsz. unfold process_input. rewrite Hrt.
  cbn [bind]. eexists. split; [reflexivity |].
  cbn [m_mode set_m_channelData set_m_mode].
  set (s1 := set_m_mode (if final then Finished else Processing) s).
  assert (H0 : inbuf0 s1 = inbuf cd0)
    by (apply inbuf0_cons with rest; exact Hcd).
  rewrite H0.
  assert (Hrs : 0 <= getReadSpace (inbuf cd0)) by (unfold getReadSpace; lia).
  rewrite (to_size_t_small (getWriteSpace (inbuf cd0)))
    by (unfold getWriteSpace, getSize in *; lia).
  rewrite (to_int_small samples) by (unfold getSize in *; lia).
  split.
  { destruct (_ <? _); cbn; destruct final; reflexivity. }
  split.
  { destruct (_ <? _); cbn [m_channelData set_m_channelData log set_m_log s1
                            set_m_mode];
      rewrite ?length_imap, ?length_map; reflexivity. }
  intros c cd Hc Hsize Hfill Hlen.
  destruct (Z.ltb_spec (getWriteSpace (inbuf cd0)) samples) as [Hlt | Hge].
  - cbn [m_channelData set_m_channelData log set_m_log s1 set_m_mode].
    change (inbuf0 (log 0 _ s1)) with (inbuf0 s1). rewrite H0.
    rewrite list_lookup_imap, list_lookup_fmap, Hc.
    cbn [fmap option_fmap option_map]. eexists. split; [reflexivity |].
    cbn [inbuf outbuf scales set_inbuf].
    split; [| split; reflexivity].
    unfold rb_write, rb_resized, getWriteSpace, getReadSpace.
    cbn [rb_size rb_data].
    rewrite to_size_t_small
      by (unfold getWriteSpace, getReadSpace, getSize in *; lia).
    rewrite to_int_small
      by (unfold getWriteSpace, getReadSpace, getSize in *; lia).
    f_equal. f_equal.
    unfold getWriteSpace, getReadSpace, getSize in *. lia.
  - cbn [m_channelData set_m_channelData s1 set_m_mode].
    rewrite list_lookup_imap, Hc.
    cbn [fmap option_fmap option_map]. eexists. split; [reflexivity |].
    cbn [inbuf outbuf scales set_inbuf].
    split; [| split; reflexivity].
    unfold rb_write. cbn [rb_data]. f_equal. f_equal.
    unfold getWriteSpace, getReadSpace, getSize in *. lia.
Qed.

(** X10: [getSamplesRequired] asks for input only when no output is
    waiting, the engine is not finished and the input ring of channel 0
    holds less than a frame of the longest FFT size [L]; it then asks
    for exactly what is missing to [L], and for nothing otherwise. *)
Theorem X10_getSamplesRequired (s : R3Stretcher) :
  0 <= longestFftSize (m_guideConfiguration s) < 2 ^ 31 ->
  getReadSpace (inbuf0 s) < 2 ^ 31 ->
  let k := getSamplesRequired s in
  let L := longestFftSize (m_guideConfiguration s) in
  0 <= k <= L /\
  (0 < k <->
   getReadSpace (outbuf0 s) = 0 /\ m_mode s <> Finished /\
   getReadSpace (inbuf0 s) < L) /\
  (0 < k -> getReadSpace (inbuf0 s) + k = L).
Proof.
  intros HL Hrs. cbv zeta.
  assert (Hi : 0 <= getReadSpace (inbuf0 s)) by (unfold getReadSpace; lia).
  assert (Ho : 0 <= getReadSpace (outbuf0 s)) by (unfold getReadSpace; lia).
  set (L := longestFftSize (m_guideConfiguration s)) in *.
  assert (Hk : getSamplesRequired s
               = if (getReadSpace (outbuf0 s) =? 0)
                    && negb (ProcessMode_eqb (m_mode s) Finished)
                    && (getReadSpace (inbuf0 s) <? L)
                 then L - getReadSpace (inbuf0 s) else 0).
  { unfold getSamplesRequired, available. fold L.
    rewrite (to_int_small (getReadSpace (inbuf0 s))) by lia.
    destruct (Z.eqb_spec (getReadSpace (outbuf0 s)) 0) as [Hz | Hnz];
      cbn [andb].
    - rewrite Hz.
      destruct (ProcessMode_eqb (m_mode s) Finished);
        cbn [negb andb Z.eqb]; [reflexivity |].
      destruct (Z.ltb_spec (getReadSpace (inbuf0 s)) L); [| reflexivity].
      apply to_size_t_small. lia.
    - apply Z.eqb_neq in Hnz. rewrite Hnz. reflexivity. }
  rewrite Hk. clear Hk.
  assert (Hm : ProcessMode_eqb (m_mode s) Finished = true
               <-> m_mode s = Finished)
    by (destruct (m_mode s); cbn; split; congruence).
  destruct (Z.eqb_spec (getReadSpace (outbuf0 s)) 0) as [Hz | Hnz];
    destruct (ProcessMode_eqb (m_mode s) Finished) eqn:Hf;
    destruct (Z.ltb_spec (getReadSpace (inbuf0 s)) L);
    cbn [negb andb];
    (split; [lia |]); (split; [| lia]);
    (split;
     [intros Hpos; try lia; repeat split; try assumption;
      try (intros Hfin; apply Hm in Hfin; discriminate)
     | intros (HA & HB & HC); try lia;
       try (exfalso; apply HB; apply Hm; reflexivity)]).
Qed.

End InputBuffering.

(** X8 on a fresh mono engine of [small_configuration]: the input ring
    of 64 samples grows to 32 + 100. *)
Lemma X8_witness :
  getSize (inbuf0 (setMaxProcessSize 100 engine_realtime)) = 132.
Proof.
  destruct (X8_setMaxProcessSize 100 engine_realtime ltac:(discriminate)
              ltac:(cbn; lia) ltac:(cbn; lia)) as (Hsz & _).
  rewrite Hsz. reflexivity.
Defined.

(** X9 on [engine_waiting]: a block of 50 samples does not fit the ring
    of 64 that holds 20, and is kept whole. *)
Lemma X9_witness :
  exists s2 cd',
    process_input [replicate 50 2%R] 50 false engine_waiting = Fin s2 /\
    m_channelData s2 !! 0%nat = Some cd' /\
    rb_data (inbuf cd') = (replicate 20 1%R ++ replicate 50 2%R)%list.
Proof.
  destruct (X9_process_keeps_input [replicate 50 2%R] 50 false engine_waiting
              channel_waiting [] eq_refl eq_refl ltac:(lia)
              ltac:(vm_compute; discriminate) ltac:(vm_compute; reflexivity))
    as (s2 & He & _ & _ & Hch).
  destruct (Hch 0%nat channel_waiting eq_refl eq_refl eq_refl
              ltac:(vm_compute; discriminate))
    as (cd' & Hl & Hd & _).
  exists s2, cd'. split; [exact He |]. split; [exact Hl |].
  rewrite Hd. reflexivity.
Defined.

(** X10 on [engine_waiting]: 20 samples are held, 12 are missing to the
    frame of 32. *)
Lemma X10_witness : getSamplesRequired engine_waiting = 12.
Proof.
  assert (HL : 0 <= longestFftSize (m_guideConfiguration engine_waiting)
               < 2 ^ 31)
    by (split; vm_compute; [discriminate | reflexivity]).
  assert (Hr : getReadSpace (inbuf0 engine_waiting) < 2 ^ 31)
    by (vm_compute; reflexivity).
  destruct (X10_getSamplesRequired engine_waiting HL Hr)
    as (_ & Hiff & Hsum).
  assert (Hk : 0 < getSamplesRequired engine_waiting).
  { apply Hiff. split; [reflexivity |].
    split; [discriminate | vm_compute; reflexivity]. }
  specialize (Hsum Hk).
  assert (E1 : getReadSpace (inbuf0 engine_waiting) = 20) by reflexivity.
  assert (E2 : longestFftSize (m_guideConfiguration engine_waiting) = 32)
    by reflexivity.
  rewrite E1, E2 in Hsum. lia.
Defined.

(** ** Latency, reset and the windows *)

Section Latency.

Local Open Scope R_scope.


End Latency.


Section ResetLaws.

Variable channel_reset : ChannelData -> ChannelData.


End ResetLaws.

Section Windows.

(** X13: the analysis and synthesis windows of a scale go together: both
    are Hann windows exactly for FFT sizes above 2048, and otherwise
    the analysis window is the Niemitalo forward window and the
    synthesis window its reverse; the analysis window is as long as the
    FFT, and the synthesis window is never longer, being half as long
    exactly where the Hann windows are used. *)
Theorem X13_windows (fftSize : Z) :
  0 <= fftSize ->
  analysisWindowLength fftSize = fftSize /\
  0 <= synthesisWindowLength fftSize <= analysisWindowLength fftSize /\
  (2048 < fftSize ->
   analysisWindowShape fftSize = HannWindow /\
   synthesisWindowShape fftSize = HannWindow /\
   synthesisWindowLength fftSize = Z.quot fftSize 2) /\
  (fftSize <= 2048 ->
   analysisWindowShape fftSize = NiemitaloForwardWindow /\
   synthesisWindowShape fftSize = NiemitaloReverseWindow /\
   synthesisWindowLength fftSize = fftSize).
Proof.
  intros H0.
  unfold analysisWindowLength, synthesisWindowLength, analysisWindowShape,
    synthesisWindowShape.
  pose proof (Z.quot_pos fftSize 2 H0 ltac:(lia)).
  pose proof (Z.quot_le_upper_bound fftSize 2 fftSize ltac:(lia) ltac:(lia)).
  destruct (Z.ltb_spec 2048 fftSize); repeat split; try lia; reflexivity.
Qed.

End Windows.

(** X13 at the FFT size 4096. *)
Lemma X13_witness :
  analysisWindowShape 4096 = HannWindow /\
  synthesisWindowShape 4096 = HannWindow /\
  synthesisWindowLength 4096 = 2048.
Proof.
  destruct (X13_windows 4096 ltac:(lia)) as (_ & _ & Hhann & _).
  destruct (Hhann ltac:(lia)) as (Ha & Hs & Hl).
  split; [exact Ha |]. split; [exact Hs |]. rewrite Hl. reflexivity.
Defined.


(** ** The loop of [consume]: what it keeps *)

Section ConsumeLaws.

(** The guard of the loop at most logs. *)
Lemma loop_guard_is_log (s s1 : R3Stretcher) :
  loop_guard s = Fin (Some s1) -> s1 = set_m_log (m_log s1) s.
Proof.
  unfold loop_guard. intros H.
  destruct (getReadSpace (inbuf0 s) <? _);
    [| injection H as <-; destruct s; reflexivity].
  destruct (ProcessMode_eqb (m_mode s) Finished); [| discriminate].
  destruct (getReadSpace (inbuf0 s) =? 0);
    [| injection H as <-; destruct s; reflexivity].
  destruct (m_channelData s) as [| cd0 rest] eqn:Hcd; [discriminate |].
  destruct (scales cd0 !! _) as [scale |]; [| discriminate].
  destruct (accumulatorFill scale =? 0); [discriminate |].
  injection H as <-. reflexivity.
Qed.

(** Emission counts the input it advances over. *)
Lemma emit_consumed (inhop outhop readSpace : Z) (resampling : bool)
    (resampledCount : Z) (s : R3Stretcher) :
  m_consumedInputDuration
    (emit inhop outhop readSpace resampling resampledCount s)
  = to_size_t (m_consumedInputDuration s + Z.min inhop readSpace).
Proof.
  unfold emit.
  destruct (limit_writeCount (if resampling then resampledCount else outhop) s)
    as [s1 wc] eqn:H1.
  destruct (limit_advanceCount inhop readSpace s1) as [s2 ac] eqn:H2.
  assert (K1 : m_consumedInputDuration s1 = m_consumedInputDuration s).
  { unfold limit_writeCount in H1.
    destruct (_ && _) in H1; injection H1 as <- _; reflexivity. }
  assert (K2 : m_consumedInputDuration s2 = m_consumedInputDuration s1 /\
               ac = Z.min inhop readSpace).
  { unfold limit_advanceCount in H2.
    destruct (Z.ltb_spec readSpace inhop).
    - destruct (ProcessMode_eqb (m_mode s1) Finished);
        injection H2 as <- <-; split; try reflexivity; lia.
    - injection H2 as <- <-. split; [reflexivity | lia]. }
  destruct K2 as [K2 ->]. unfold start_skip.
  destruct (0 <? m_startSkip _); cbn; rewrite K2, K1; reflexivity.
Qed.

Lemma iteration_consumed (fr : Frame) (inhop outhop : Z) (s : R3Stretcher) :
  m_consumedInputDuration (iteration fr inhop outhop s)
  = to_size_t (m_consumedInputDuration s
               + Z.min inhop (getReadSpace (inbuf0 s))).
Proof. unfold iteration. rewrite emit_consumed. reflexivity. Qed.

(** Every sample the loop takes from the input ring of channel 0 is
    counted as consumed. *)
Lemma consume_loop_conserves (inhop outhop : Z) :
  0 <= inhop ->
  forall (given : list Frame) (s s' : R3Stretcher),
    0 <= m_consumedInputDuration s ->
    m_consumedInputDuration s + getReadSpace (inbuf0 s) < 2 ^ 64 ->
    consume_loop given inhop outhop s = Fin s' ->
    m_consumedInputDuration s' + getReadSpace (inbuf0 s')
    = m_consumedInputDuration s + getReadSpace (inbuf0 s) /\
    m_consumedInputDuration s <= m_consumedInputDuration s'.
Proof.
  intros Hin. induction given as [| fr rest IH]; intros s s' Hc Hsum H;
    rewrite consume_loop_unfold in H;
    (destruct (getWriteSpace (outbuf0 s) <? outhop);
     [injection H as <-; split; lia |]);
    destruct (loop_guard s) as [[s1 |] | | |] eqn:Hg; cbn [bind] in H;
    try discriminate; try (injection H as <-; split; lia).
  pose proof (loop_guard_is_log s s1 Hg) as Hs1.
  assert (Hc1 : m_consumedInputDuration s1 = m_consumedInputDuration s)
    by (rewrite Hs1; reflexivity).
  assert (Hr1 : inbuf0 s1 = inbuf0 s) by (rewrite Hs1; reflexivity).
  assert (Hrs : 0 <= getReadSpace (inbuf0 s)) by (unfold getReadSpace; lia).
  destruct (iteration_progress fr inhop outhop s1 Hin) as (_ & Hr' & _).
  pose proof (iteration_consumed fr inhop outhop s1) as Hc'.
  rewrite Hr1 in Hr', Hc'. rewrite Hc1 in Hc'.
  rewrite to_size_t_small in Hc' by lia.
  apply IH in H; [| lia | lia]. lia.
Qed.

(** X14: [consume] keeps account of the input: with an input hop that
    is not negative, when it returns, the consumed input duration has
    grown by exactly the number of samples that left the input ring of
    channel 0, so their sum is unchanged, and the consumed duration
    never goes back. *)
Theorem X14_input_conserved (calculated : Z) (frames : list Frame)
    (s s' : R3Stretcher) :
  0 <= m_inhop s ->
  0 <= m_consumedInputDuration s ->
  m_consumedInputDuration s + getReadSpace (inbuf0 s) < 2 ^ 64 ->
  consume calculated frames s = Fin s' ->
  m_consumedInputDuration s' + getReadSpace (inbuf0 s')
  = m_consumedInputDuration s + getReadSpace (inbuf0 s) /\
  m_consumedInputDuration s <= m_consumedInputDuration s'.
Proof.
  intros Hin Hc Hsum. unfold consume.
  assert (Haux : forall (sA : R3Stretcher) (outhop : Z),
             sA = set_m_log (m_log sA) s ->
             match m_channelData sA with
             | [] => Thrown
             | _ :: _ => consume_loop frames (m_inhop s) outhop sA
             end = Fin s' ->
             m_consumedInputDuration s' + getReadSpace (inbuf0 s')
             = m_consumedInputDuration s + getReadSpace (inbuf0 s) /\
             m_consumedInputDuration s <= m_consumedInputDuration s').
  { intros sA outhop HA H.
    destruct (m_channelData sA) as [| cd0 rest] eqn:Hcd; [discriminate |].
    assert (HcA : m_consumedInputDuration sA = m_consumedInputDuration s)
      by (rewrite HA; reflexivity).
    assert (HrA : inbuf0 sA = inbuf0 s) by (rewrite HA; reflexivity).
    apply consume_loop_conserves in H; rewrite ?HcA, ?HrA in *;
      assumption. }
  destruct (calculated <? 1); cbv beta iota zeta;
    destruct (m_inhop s =? _); destruct (_ =? _);
    apply Haux; reflexivity || (destruct s; reflexivity).
Qed.

(** X15: while the engine is not [Finished], [consume] waits for a full
    frame: with fewer than [L] samples in the input ring of channel 0
    it processes no frame, whatever frames it is offered, and returns
    with nothing but the log changed. *)
Theorem X15_consume_awaits_frame (calculated : Z) (frames : list Frame)
    (s : R3Stretcher) :
  m_mode s <> Finished ->
  m_channelData s <> [] ->
  getReadSpace (inbuf0 s) < longestFftSize (m_guideConfiguration s) ->
  exists s',
    consume calculated frames s = Fin s' /\
    s' = set_m_log (m_log s') s.
Proof.
  intros Hm Hne Hrs. unfold consume.
  assert (Haux : forall (sA : R3Stretcher) (outhop : Z),
             sA = set_m_log (m_log sA) s ->
             exists s',
               match m_channelData sA with
               | [] => Thrown
               | _ :: _ => consume_loop frames (m_inhop s) outhop sA
               end = Fin s' /\
               s' = set_m_log (m_log s') s).
  { intros sA outhop HA.
    assert (Hcd : m_channelData sA = m_channelData s)
      by (rewrite HA; reflexivity).
    rewrite Hcd. destruct (m_channelData s) as [| cd0 rest] eqn:Hs;
      [contradiction |].
    exists sA. split; [| exact HA].
    rewrite consume_loop_unfold.
    destruct (getWriteSpace (outbuf0 sA) <? outhop); [reflexivity |].
    unfold loop_guard.
    assert (HrA : inbuf0 sA = inbuf0 s)
      by (unfold inbuf0; rewrite Hcd, Hs; reflexivity).
    assert (HgA : m_guideConfiguration sA = m_guideConfiguration s)
      by (rewrite HA; reflexivity).
    assert (HmA : m_mode sA = m_mode s) by (rewrite HA; reflexivity).
    rewrite HrA, HgA, HmA.
    apply Z.ltb_lt in Hrs. rewrite Hrs.
    destruct (m_mode s); try reflexivity. contradiction. }
  destruct (calculated <? 1); cbv beta iota zeta;
    destruct (m_inhop s =? _); destruct (_ =? _);
    apply Haux; reflexivity || (destruct s; reflexivity).
Qed.

(** Dropping start padding leaves the output counter at what the output
    ring of channel 0 holds. *)
Lemma start_skip_counts (t : R3Stretcher) :
  0 < m_startSkip t ->
  let t' := start_skip t in
  m_totalOutputDuration t' = to_size_t (getReadSpace (outbuf0 t')) /\
  0 <= m_startSkip t' <= m_startSkip t /\
  (m_startSkip t' = 0 \/ getReadSpace (outbuf0 t') = 0) /\
  m_startSkip t - m_startSkip t'
  = getReadSpace (outbuf0 t) - getReadSpace (outbuf0 t').
Proof.
  intros Hp. cbv zeta. unfold start_skip.
  apply Z.ltb_lt in Hp as Hb. rewrite Hb.
  set (rs := getReadSpace (outbuf0 t)).
  set (toSkip := Z.min (m_startSkip t) rs).
  assert (Hrs : 0 <= rs) by (unfold rs, getReadSpace; lia).
  assert (Ho : getReadSpace
                 (outbuf0
                    (set_m_channelData
                       (map (fun cd => set_outbuf (rb_skip toSkip (outbuf cd)) cd)
                            (m_channelData t)) t)) = rs - toSkip).
  { rewrite (outbuf0_map _ (rb_skip toSkip)).
    - rewrite getReadSpace_skip by lia. fold rs. lia.
    - intros cd. reflexivity.
    - unfold rb_skip. cbn [rb_size rb_data]. rewrite drop_nil. reflexivity. }
  cbn [m_totalOutputDuration m_startSkip set_m_totalOutputDuration
       set_m_startSkip set_m_channelData].
  change (outbuf0 (set_m_totalOutputDuration _ (set_m_startSkip _ ?x)))
    with (outbuf0 x).
  rewrite Ho. split; [reflexivity |]. lia.
Qed.

(** X16: a turn of the loop of [consume] that starts with start padding
    still to be dropped ([startSkip > 0]) leaves the output duration at
    what the output ring of channel 0 holds after the drop (as a
    [size_t], line 819), whatever was counted before; [startSkip] stays
    non-negative and does not grow, and either the padding is used up or
    the ring is left empty. *)
Theorem X16_start_skip_accounting (fr : Frame) (inhop outhop : Z)
    (s : R3Stretcher) :
  0 < m_startSkip s ->
  let s' := iteration fr inhop outhop s in
  m_totalOutputDuration s' = to_size_t (getReadSpace (outbuf0 s')) /\
  0 <= m_startSkip s' <= m_startSkip s /\
  (m_startSkip s' = 0 \/ getReadSpace (outbuf0 s') = 0).
Proof.
  intros Hp. cbv zeta. unfold iteration.
  match goal with
  | |- context [emit ?a ?b ?c ?d ?e ?x] =>
      destruct (emit_start_skip a b c d e x) as (tw & -> & Hs & _)
  end.
  cbn [m_startSkip set_m_channelData set_m_unityCount] in Hs.
  assert (Htw : 0 < m_startSkip tw) by lia.
  destruct (start_skip_counts tw Htw) as (Hd & Hb & Hz & _).
  cbv zeta in Hd, Hb, Hz.
  change (outbuf0 (set_prevHops inhop outhop (start_skip tw)))
    with (outbuf0 (start_skip tw)).
  cbn [m_totalOutputDuration m_startSkip set_prevHops].
  split; [exact Hd |]. split; [lia | exact Hz].
Qed.

End ConsumeLaws.


(** X14 on [engine_C5]: two frames are processed and 16 of the 40
    samples waiting are counted as consumed. *)
Lemma X14_witness :
  0 <= m_inhop engine_C5 /\
  0 <= m_consumedInputDuration engine_C5 /\
  m_consumedInputDuration engine_C5 + getReadSpace (inbuf0 engine_C5) < 2 ^ 64 /\
  exists s',
    consume 8 [idle_frame; idle_frame] engine_C5 = Fin s' /\
    m_consumedInputDuration s' + getReadSpace (inbuf0 s') = 40 /\
    m_consumedInputDuration s' = 16.
Proof.
  assert (H1 : 0 <= m_inhop engine_C5) by (vm_compute; discriminate).
  assert (H2 : 0 <= m_consumedInputDuration engine_C5)
    by (vm_compute; discriminate).
  assert (H3 : m_consumedInputDuration engine_C5
               + getReadSpace (inbuf0 engine_C5) < 2 ^ 64)
    by (vm_compute; reflexivity).
  split; [exact H1 |]. split; [exact H2 |]. split; [exact H3 |].
  destruct (consume 8 [idle_frame; idle_frame] engine_C5) as [s' | | |] eqn:H;
    try (vm_compute in H; discriminate).
  exists s'. split; [reflexivity |].
  destruct (X14_input_conserved 8 [idle_frame; idle_frame] engine_C5 s'
              H1 H2 H3 H) as [Hsum _].
  split; [rewrite Hsum; reflexivity |].
  vm_compute in H. injection H as <-. reflexivity.
Defined.

(** X15 on [engine_waiting], which holds 20 samples against a longest
    FFT size of 32. *)
Lemma X15_witness :
  m_mode engine_waiting <> Finished /\
  m_channelData engine_waiting <> [] /\
  getReadSpace (inbuf0 engine_waiting)
  < longestFftSize (m_guideConfiguration engine_waiting) /\
  exists s',
    consume 8 [idle_frame] engine_waiting = Fin s' /\
    inbuf0 s' = inbuf0 engine_waiting /\
    m_consumedInputDuration s' = 0.
Proof.
  assert (H1 : m_mode engine_waiting <> Finished) by discriminate.
  assert (H2 : m_channelData engine_waiting <> []) by discriminate.
  assert (H3 : getReadSpace (inbuf0 engine_waiting)
               < longestFftSize (m_guideConfiguration engine_waiting))
    by (vm_compute; reflexivity).
  split; [exact H1 |]. split; [exact H2 |]. split; [exact H3 |].
  destruct (X15_consume_awaits_frame 8 [idle_frame] engine_waiting H1 H2 H3)
    as (s' & Hc & Hs).
  exists s'. split; [exact Hc |]. rewrite Hs. split; reflexivity.
Defined.

(** X16 on [engine_skipping]: of 16 samples of padding the first turn
    drops the 8 it wrote, and nothing counts as output yet. *)
Lemma X16_witness :
  0 < m_startSkip engine_skipping /\
  m_totalOutputDuration (iteration idle_frame 8 8 engine_skipping)
  = to_size_t
      (getReadSpace (outbuf0 (iteration idle_frame 8 8 engine_skipping))) /\
  m_startSkip (iteration idle_frame 8 8 engine_skipping) = 8.
Proof.
  assert (H1 : 0 < m_startSkip engine_skipping) by (vm_compute; reflexivity).
  split; [exact H1 |].
  destruct (X16_start_skip_accounting idle_frame 8 8 engine_skipping H1)
    as (Hd & _ & _).
  split; [exact Hd |]. vm_compute. reflexivity.
Defined.


(** ** The loop of [consume]: why it stops *)

Section ConsumeExit.

(** The guard leaves the loop only to await input or when everything is
    drained. *)
Lemma loop_guard_leaves (s : R3Stretcher) :
  loop_guard s = Fin None ->
  (m_mode s <> Finished /\
   getReadSpace (inbuf0 s) < longestFftSize (m_guideConfiguration s)) \/
  (m_mode s = Finished /\ getReadSpace (inbuf0 s) = 0 /\ fill0 s = 0).
Proof.
  unfold loop_guard, fill0. intros H.
  destruct (Z.ltb_spec (getReadSpace (inbuf0 s))
              (longestFftSize (m_guideConfiguration s))) as [Hlt | _];
    [| discriminate].
  destruct (m_mode s) eqn:Hm; cbn [ProcessMode_eqb] in H;
    try (left; split; [discriminate | exact Hlt]).
  right. split; [reflexivity |].
  destruct (Z.eqb_spec (getReadSpace (inbuf0 s)) 0) as [H0 | _];
    [| discriminate].
  split; [exact H0 |].
  destruct (m_channelData s) as [| cd0 rest]; [reflexivity |].
  destruct (scales cd0 !! _) as [scale |]; [| reflexivity].
  destruct (Z.eqb_spec (accumulatorFill scale) 0) as [Hf | _];
    [exact Hf | discriminate].
Qed.

Lemma consume_loop_exit (inhop outhop : Z) (given : list Frame) :
  forall s s' : R3Stretcher,
    consume_loop given inhop outhop s = Fin s' ->
    getWriteSpace (outbuf0 s') < outhop \/
    (m_mode s' <> Finished /\
     getReadSpace (inbuf0 s') < longestFftSize (m_guideConfiguration s')) \/
    (m_mode s' = Finished /\ getReadSpace (inbuf0 s') = 0 /\ fill0 s' = 0).
Proof.
  induction given as [| fr rest IH]; intros s s' H;
    rewrite consume_loop_unfold in H;
    (destruct (Z.ltb_spec (getWriteSpace (outbuf0 s)) outhop) as [Hw | _];
     [injection H as <-; left; exact Hw |]);
    destruct (loop_guard s) as [[s1 |] | | |] eqn:Hg; cbn [bind] in H;
    try discriminate;
    try (injection H as <-; right; apply loop_guard_leaves; exact Hg).
  apply IH in H. exact H.
Qed.

(** X17: [consume] returns for one of three reasons only: the output
    ring of channel 0 has no room for another [outhop] samples (the
    calculated hop, at least 1); or the engine is not [Finished] and
    fewer than [L] samples wait in the input ring of channel 0; or it is
    [Finished], that ring is empty and the accumulator of the longest
    scale of channel 0 is drained.  The mode is the one it was called
    in. *)
Theorem X17_consume_exit (calculated : Z) (frames : list Frame)
    (s s' : R3Stretcher) :
  consume calculated frames s = Fin s' ->
  m_mode s' = m_mode s /\
  (getWriteSpace (outbuf0 s') < Z.max calculated 1 \/
   (m_mode s <> Finished /\
    getReadSpace (inbuf0 s') < longestFftSize (m_guideConfiguration s')) \/
   (m_mode s = Finished /\ getReadSpace (inbuf0 s') = 0 /\ fill0 s' = 0)).
Proof.
  intros H. pose proof (consume_mode _ _ _ _ H) as Hm.
  split; [exact Hm |]. rewrite <- Hm. revert H. unfold consume.
  assert (Haux : forall (sA : R3Stretcher) (outhop : Z),
             outhop = Z.max calculated 1 ->
             match m_channelData sA with
             | [] => Thrown
             | _ :: _ => consume_loop frames (m_inhop s) outhop sA
             end = Fin s' ->
             getWriteSpace (outbuf0 s') < Z.max calculated 1 \/
             (m_mode s' <> Finished /\
              getReadSpace (inbuf0 s')
              < longestFftSize (m_guideConfiguration s')) \/
             (m_mode s' = Finished /\ getReadSpace (inbuf0 s') = 0 /\
              fill0 s' = 0)).
  { intros sA outhop -> H.
    destruct (m_channelData sA); [discriminate |].
    apply consume_loop_exit in H. exact H. }
  destruct (Z.ltb_spec calculated 1); cbv beta iota zeta;
    destruct (m_inhop s =? _); destruct (_ =? _);
    apply Haux; lia.
Qed.

End ConsumeExit.

(** X17 on [engine_C5]: after two frames, 24 samples are left against a
    longest FFT size of 32. *)
Lemma X17_witness :
  exists s',
    consume 8 [idle_frame; idle_frame] engine_C5 = Fin s' /\
    m_mode s' = Processing /\
    getReadSpace (inbuf0 s') < 32.
Proof.
  destruct (consume 8 [idle_frame; idle_frame] engine_C5) as [s' | | |] eqn:H;
    try (vm_compute in H; discriminate).
  exists s'. split; [reflexivity |].
  destruct (X17_consume_exit 8 [idle_frame; idle_frame] engine_C5 s' H)
    as [Hm Hx].
  split; [exact Hm |].
  vm_compute in H. injection H as <-. vm_compute. reflexivity.
Defined.


(** ** [retrieve] and [available] *)

Section RetrieveAvailable.

(** Channel 0 is read with the count asked for. *)
Lemma retrieve_channels_head (c : nat) (got : Z) (cd : ChannelData)
    (rest : list ChannelData) (lg : list LogEntry) :
  exists gotF restF outF lgF,
    retrieve_channels c got (cd :: rest) lg
    = (gotF, set_outbuf (rb_skip got (outbuf cd)) cd :: restF,
       take (Z.to_nat got) (rb_data (outbuf cd)) :: outF, lgF) /\
    length restF = length rest.
Proof.
  revert c got cd lg.
  induction rest as [| cd1 rest IH]; intros c got cd lg.
  - cbn [retrieve_channels rb_read].
    destruct (_ <? got); eexists _, _, _, _; split; reflexivity.
  - cbn [retrieve_channels rb_read].
    match goal with
    | |- context [let '(got', lg') := ?x in _] => destruct x as [got1 lg1]
    end.
    destruct (IH (S c) got1 cd1 lg1) as (gotF & restF & outF & lgF & Hr & Hl).
    cbn [retrieve_channels rb_read] in Hr. rewrite Hr.
    eexists _, _, _, _. split; [reflexivity |]. cbn [length]. rewrite Hl.
    reflexivity.
Qed.

(** The input rings are not read. *)
Lemma retrieve_channels_inbuf (cds : list ChannelData) :
  forall (c : nat) (got : Z) (lg : list LogEntry),
    map inbuf (snd (fst (fst (retrieve_channels c got cds lg))))
    = map inbuf cds.
Proof.
  induction cds as [| cd rest IH]; intros c got lg; [reflexivity |].
  cbn [retrieve_channels rb_read].
  match goal with
  | |- context [let '(got', lg') := ?x in _] => destruct x as [got1 lg1]
  end.
  specialize (IH (S c) got1 lg1).
  destruct (retrieve_channels (S c) got1 rest lg1) as [[[gotF restF] outF] lgF].
  cbn [fst snd map] in *. rewrite IH. reflexivity.
Qed.

Lemma foldl_min_le (l : list Z) : forall a : Z, foldl Z.min a l <= a.
Proof.
  induction l as [| x l IH]; intros a; cbn [foldl]; [lia |].
  specialize (IH (Z.min a x)). lia.
Qed.

(** X18: [retrieve] and [available] agree.  For a count [n] that fits an
    [int], [retrieve] takes the first [min(n, av)] samples off the
    output ring of channel 0, where [av] is what that ring held, and
    returns no more than that; the mode and the input rings stay as they
    were; with one channel it returns exactly [min(n, av)].  Afterwards
    [available] reports what is left, and reports -1 exactly when the
    engine is [Finished] and the call has emptied the ring. *)
Theorem X18_retrieve_then_available (n : Z) (s : R3Stretcher)
    (cd0 : ChannelData) (rest : list ChannelData) :
  0 <= n < 2 ^ 31 ->
  m_channelData s = cd0 :: rest ->
  let av := getReadSpace (outbuf cd0) in
  let got := fst (fst (retrieve n s)) in
  let output := snd (fst (retrieve n s)) in
  let s' := snd (retrieve n s) in
  output !! 0%nat = Some (take (Z.to_nat n) (rb_data (outbuf cd0))) /\
  rb_data (outbuf0 s') = drop (Z.to_nat n) (rb_data (outbuf cd0)) /\
  getReadSpace (outbuf0 s') = av - Z.min n av /\
  0 <= got <= Z.min n av /\
  (rest = [] -> got = Z.min n av) /\
  m_mode s' = m_mode s /\
  map inbuf (m_channelData s') = map inbuf (m_channelData s) /\
  (available s' = -1 <-> m_mode s = Finished /\ av <= n) /\
  (available s' <> -1 -> available s' = av - Z.min n av).
Proof.
  intros Hn Hcd. cbv zeta.
  assert (Hav : 0 <= getReadSpace (outbuf cd0))
    by (unfold getReadSpace; lia).
  unfold retrieve. rewrite Hcd, (to_int_small n) by lia.
  destruct (retrieve_channels_head 0 n cd0 rest (m_log s))
    as (gotF & restF & outF & lgF & Hr & Hl).
  pose proof (retrieve_channels_spec (cd0 :: rest) 0 n (m_log s) _ _ _ _
                ltac:(lia) Hr) as (Hmin & Hrange & Hchan & Hex & _).
  cbv zeta in Hmin, Hchan, Hex. cbn [map foldl] in Hmin.
  rewrite Hr. cbn [fst snd].
  assert (Ho : outbuf0 (set_m_log lgF
                 (set_m_channelData
                    (set_outbuf (rb_skip n (outbuf cd0)) cd0 :: restF) s))
               = rb_skip n (outbuf cd0)) by reflexivity.
  assert (Hrs : getReadSpace (rb_skip n (outbuf cd0))
                = getReadSpace (outbuf cd0)
                  - Z.min n (getReadSpace (outbuf cd0)))
    by (apply getReadSpace_skip; lia).
  assert (Hgot : 0 <= gotF <= Z.min n (getReadSpace (outbuf cd0))).
  { pose proof (foldl_min_le
                  (map (fun cd => getReadSpace (outbuf cd)) rest)
                  (Z.min n (getReadSpace (outbuf cd0)))) as Hle.
    rewrite <- Hmin in Hle. lia. }
  split; [reflexivity |].
  split; [rewrite Ho; reflexivity |].
  split; [rewrite Ho; exact Hrs |].
  assert (Hto : to_size_t gotF = gotF)
    by (apply to_size_t_small; lia).
  rewrite Hto.
  split; [exact Hgot |].
  split; [intros ->; cbn [map foldl] in Hmin; exact Hmin |].
  split; [reflexivity |].
  split.
  { cbn [m_channelData set_m_log set_m_channelData]. rewrite ?Hcd.
    pose proof (retrieve_channels_inbuf (cd0 :: rest) 0 n (m_log s)) as Hi.
    rewrite Hr in Hi. exact Hi. }
  unfold available. rewrite Ho, Hrs.
  set (av := getReadSpace (outbuf cd0)) in *.
  change (m_mode (set_m_log lgF (set_m_channelData _ s))) with (m_mode s).
  destruct (Z.eqb_spec (av - Z.min n av) 0) as [Hz | Hz];
    destruct (m_mode s); cbn [andb ProcessMode_eqb];
    (split; [split; [intros H; try discriminate; try lia;
                     try (split; [reflexivity | lia])
                    | intros [Hm Hle]; try discriminate; try reflexivity;
                      lia]
            | intros H; try reflexivity; try contradiction]).
Qed.

End RetrieveAvailable.


(** X18 on [engine_finished], whose output ring holds five samples:
    retrieving them all leaves [available] at -1. *)
Lemma X18_witness :
  0 <= 5 < 2 ^ 31 /\
  available engine_finished = 5 /\
  fst (fst (retrieve 5 engine_finished)) = 5 /\
  available (snd (retrieve 5 engine_finished)) = -1.
Proof.
  assert (Hn : 0 <= 5 < 2 ^ 31) by lia.
  split; [exact Hn |]. split; [reflexivity |].
  destruct (X18_retrieve_then_available 5 engine_finished
              (set_outbuf (mkRingBuffer 512 [1; 2; 3; 4; 5]%R)
                 (ChannelData_new small_configuration 64 512))
              [] Hn eq_refl)
    as (_ & _ & _ & _ & Hmono & _ & _ & Hav & _).
  split; [rewrite (Hmono eq_refl); reflexivity |].
  apply Hav. split; [reflexivity |]. vm_compute. discriminate.
Defined.


(** ** Formant adjustment without a shift *)

Section FormantNeutral.

Local Open Scope R_scope.

Variable envelopeAt : FormantData -> R -> R.

Lemma wr_rd_id (l : list R) (i : Z) : wr l i (rd l i) = l.
Proof.
  unfold wr, rd. destruct (i <? 0)%Z; [reflexivity |].
  destruct (l !! Z.to_nat i) as [x |] eqn:H.
  - apply list_insert_id. rewrite H. f_equal. symmetry.
    apply nth_lookup_Some with (d := 0). exact H.
  - apply list_insert_ge. apply lookup_ge_None. exact H.
Qed.

(** With the same envelope position for source and target, a turn of
    the inner loop leaves the scale as it was. *)
Lemma formant_bin_neutral (f : FormantData) (sf tf : R)
    (sc : ChannelScaleData) (i : Z) :
  sf = tf -> formant_bin envelopeAt f sf tf sc i = sc.
Proof.
  intros ->. unfold formant_bin. cbv zeta.
  destruct (Rgt_dec (envelopeAt f (IZR i * tf)) 0) as [Ht | _];
    [| reflexivity].
  replace (envelopeAt f (IZR i * tf) / envelopeAt f (IZR i * tf)) with 1
    by (field; lra).
  destruct (Rlt_dec 1 (1 / 60)) as [Hc | _]; [lra |].
  destruct (Rgt_dec 1 60) as [Hc | _]; [lra |].
  rewrite Rmult_1_r, wr_rd_id. destruct sc; reflexivity.
Qed.

Lemma foldl_neutral {A B : Type} (F : A -> B -> A) (l : list B) (a : A) :
  (forall a b, F a b = a) -> foldl F a l = a.
Proof.
  intros HF. induction l as [| b l IH]; [reflexivity |].
  cbn [foldl]. rewrite HF. exact IH.
Qed.

(** X19: formant adjustment with nothing to compensate changes nothing.
    When the effective formant scale is 1 (a formant scale of 1, or the
    default formant scale 0 with pitch scale 1), source and target read
    the envelope at the same position, every ratio is 1, and
    [adjustFormant] leaves the channel exactly as it was. *)
Theorem X19_adjustFormant_neutral (s : R3Stretcher) (cd : ChannelData) :
  m_formantScale s = 1 \/ (m_formantScale s = 0 /\ m_pitchScale s = 1) ->
  adjustFormant envelopeAt s cd = cd.
Proof.
  intros Hs. unfold adjustFormant.
  assert (Hid : forall k sc,
             adjustFormant_scale envelopeAt s (formant cd) k sc = sc).
  { intros k sc. unfold adjustFormant_scale. cbv zeta.
    apply foldl_neutral. intros sc0 b.
    destruct (bl_fftSize b =? k)%Z; [| reflexivity].
    apply foldl_neutral. intros sc1 i. apply formant_bin_neutral.
    set (tf := IZR (fd_fftSize (formant cd)) / IZR k).
    destruct (Req_dec_T (m_formantScale s) 0) as [H0 | H0].
    - destruct Hs as [H1 | [_ Hp]]; [lra |]. rewrite Hp. lra.
    - destruct Hs as [H1 | [Hz _]]; [| contradiction]. rewrite H1. lra. }
  replace (map_imap
             (fun fftSize scale =>
                Some (adjustFormant_scale envelopeAt s (formant cd)
                        fftSize scale)) (scales cd))
    with (scales cd).
  - destruct cd; reflexivity.
  - rewrite <- (map_imap_Some (scales cd)) at 1.
    apply map_eq. intros k. rewrite !map_lookup_imap.
    destruct (scales cd !! k) as [sc |]; [| reflexivity].
    cbn. rewrite Hid. reflexivity.
Qed.

End FormantNeutral.

(** X19 on an engine with pitch scale 1 and no formant scale of its
    own. *)
Lemma X19_witness :
  (m_formantScale engine_processing = 1
   \/ (m_formantScale engine_processing = 0
       /\ m_pitchScale engine_processing = 1))%R /\
  adjustFormant example_envelopeAt engine_processing channel_C3 = channel_C3.
Proof.
  assert (H : (m_formantScale engine_processing = 1
               \/ (m_formantScale engine_processing = 0
                   /\ m_pitchScale engine_processing = 1))%R)
    by (right; split; reflexivity).
  split; [exact H |].
  apply (X19_adjustFormant_neutral example_envelopeAt engine_processing
           channel_C3 H).
Defined.


(** ** The spectral envelope *)

Section FormantAnalysis.

Local Open Scope R_scope.

Variable forward : Z -> list R -> list R * list R.
Variable inverseCepstral : Z -> list R -> list R -> list R.

Lemma rd_lookup (l : list R) (i : Z) :
  (0 <= i)%Z -> rd l i = default 0 (l !! Z.to_nat i).
Proof.
  intros Hi. unfold rd. destruct (Z.ltb_spec i 0); [lia |].
  apply nth_lookup.
Qed.

Lemma rd_negative (l : list R) (i : Z) : (i < 0)%Z -> rd l i = 0.
Proof. intros Hi. unfold rd. destruct (Z.ltb_spec i 0); [reflexivity | lia]. Qed.

Lemma rd_v_zero (l : list R) (from n i : Z) :
  rd (v_zero l from n) i
  = if ((from <=? i) && (i <? from + n))%Z then 0 else rd l i.
Proof.
  destruct (Z.lt_ge_cases i 0) as [Hi | Hi].
  - rewrite !rd_negative by exact Hi. destruct (_ && _); reflexivity.
  - rewrite !rd_lookup by exact Hi. unfold v_zero.
    rewrite list_lookup_imap.
    destruct (l !! Z.to_nat i) as [x |]; cbn.
    + rewrite Z2Nat.id by exact Hi. reflexivity.
    + destruct (_ && _); reflexivity.
Qed.

Lemma rd_v_scale (l : list R) (from : Z) (factor : R) (n i : Z) :
  rd (v_scale l from factor n) i
  = if ((from <=? i) && (i <? from + n))%Z then rd l i * factor else rd l i.
Proof.
  destruct (Z.lt_ge_cases i 0) as [Hi | Hi].
  - rewrite !rd_negative by exact Hi. destruct (_ && _); lra.
  - rewrite !rd_lookup by exact Hi. unfold v_scale.
    rewrite list_lookup_imap.
    destruct (l !! Z.to_nat i) as [x |]; cbn.
    + rewrite Z2Nat.id by exact Hi. reflexivity.
    + destruct (_ && _); lra.
Qed.

(** X20: [analyseFormant] throws exactly when the channel has no scale
    of the formant FFT size [n].  Otherwise it rewrites the formant data
    alone: the cepstrum is liftered (zero from the cutoff
    [max(1, floor(sampleRate / 650))] up to [n], the bins strictly
    between 0 and [cutoff - 1] are those of the inverse cepstral
    transform divided by [n]), and each of the first [n/2 + 1] envelope
    values lies between 0 and 1e10. *)
Theorem X20_analyseFormant (s : R3Stretcher) (cd : ChannelData) :
  let n := fd_fftSize (formant cd) in
  let cutoff :=
    Z.max 1 (to_int (Zfloor (sampleRate (m_parameters s) / 650))) in
  (scales cd !! n = None ->
   analyseFormant forward inverseCepstral s cd = Thrown) /\
  (forall scale, scales cd !! n = Some scale ->
     exists cd',
       analyseFormant forward inverseCepstral s cd = Fin cd' /\
       scales cd' = scales cd /\ readahead cd' = readahead cd /\
       guidance cd' = guidance cd /\
       inbuf cd' = inbuf cd /\ outbuf cd' = outbuf cd /\
       fd_fftSize (formant cd') = n /\
       (forall i, (cutoff <= i < n)%Z -> rd (cepstra (formant cd')) i = 0) /\
       (forall i, (0 < i < cutoff - 1)%Z ->
          rd (cepstra (formant cd')) i
          = rd (inverseCepstral n (mag scale) (cepstra (formant cd))) i
            * (1 / IZR n)) /\
       (forall i, (0 <= i < Z.quot n 2 + 1)%Z ->
          0 <= rd (envelope (formant cd')) i <= 10 ^ 10)).
Proof.
  cbv zeta. unfold analyseFormant. cbv zeta. split.
  - intros ->. reflexivity.
  - intros scale ->.
    set (n := fd_fftSize (formant cd)).
    set (raw := to_int (Zfloor (sampleRate (m_parameters s) / 650))).
    assert (Hcut : (if (raw <? 1)%Z then 1%Z else raw) = Z.max 1 raw)
      by (destruct (Z.ltb_spec raw 1); lia).
    rewrite Hcut. set (cutoff := Z.max 1 raw).
    eexists. split; [reflexivity |]. cbn [scales readahead guidance inbuf
      outbuf formant fd_fftSize cepstra envelope].
    repeat (split; [reflexivity |]).
    split; [| split].
    + intros i Hi. rewrite rd_v_scale.
      destruct (Z.leb_spec 0 i); [| lia].
      destruct (Z.ltb_spec i (0 + cutoff)); [lia |]. cbn [andb].
      rewrite rd_v_zero.
      destruct (Z.leb_spec cutoff i); [| lia].
      destruct (Z.ltb_spec i (cutoff + (n - cutoff))); [| lia].
      reflexivity.
    + intros i Hi. rewrite rd_v_scale.
      destruct (Z.leb_spec 0 i); [| lia].
      destruct (Z.ltb_spec i (0 + cutoff)); [| lia]. cbn [andb].
      rewrite rd_v_zero.
      destruct (Z.leb_spec cutoff i); [lia |]. cbn [andb].
      rewrite !rd_wr_ne by lia. reflexivity.
    + intros i Hi. rewrite rd_lookup by lia.
      rewrite list_lookup_imap.
      assert (Hten : 0 < 10 ^ 10) by (apply pow_lt; lra).
      destruct (_ !! Z.to_nat i) as [x |]; cbn; [| lra].
      rewrite Z2Nat.id by lia.
      destruct (Z.ltb_spec i (Z.quot n 2 + 1)); [| lia].
      pose proof (exp_pos x) as Hx.
      assert (Hsq : 0 < exp x * exp x) by (apply Rmult_lt_0_compat; exact Hx).
      set (y := exp x * exp x) in *.
      match goal with
      | |- context [Rgt_dec ?a ?b] => destruct (Rgt_dec a b)
      end; lra.
Qed.

End FormantAnalysis.


(** X20 on [channel_C3] at 48 kHz: the cutoff is 73, and bin 100 of the
    liftered cepstrum is zero. *)
Lemma X20_witness :
  exists cd',
    analyseFormant example_forward example_inverseCepstral engine_C3
      channel_C3 = Fin cd' /\
    scales cd' = scales channel_C3 /\
    rd (cepstra (formant cd')) 100 = 0%R.
Proof.
  destruct (X20_analyseFormant example_forward example_inverseCepstral
              engine_C3 channel_C3) as [_ H].
  destruct (H (ChannelScaleData_new 4096 4096))
    as (cd' & Hr & Hs & _ & _ & _ & _ & _ & Hz & _).
  { vm_compute. reflexivity. }
  exists cd'. split; [exact Hr |]. split; [exact Hs |].
  apply Hz.
  change (sampleRate (m_parameters engine_C3)) with 48000%R.
  change (fd_fftSize (formant channel_C3)) with 4096.
  replace (Zfloor (48000 / 650)) with 73.
  - vm_compute. split; discriminate || reflexivity.
  - symmetry. apply Zfloor_eq. lra.
Defined.


(** ** What the analysis of a channel leaves alone *)

Section AnalysisFrame.

Variable cut : Z -> list R -> list R -> list R.
Variable forward : Z -> list R -> list R * list R.
Variable convertToPolar :
  list R -> list R -> list R -> list R -> ToPolarSpec -> list R * list R.
Variable inverseCepstral : Z -> list R -> list R -> list R.
Variable envelopeAt : FormantData -> R -> R.
Variable classifier_classify : list R -> list Z -> list Z.
Variable segmenter_segment : list Z -> Segmentation.
Variable updateGuidance :
  R -> Z -> list R -> list R -> list R ->
  Segmentation -> Segmentation -> Segmentation ->
  R -> Z -> bool -> bool -> Guidance -> Guidance.

Ltac keeps := unfold analysis_keeps; repeat split; reflexivity.

Lemma analysis_keeps_refl (sc : ChannelScaleData) : analysis_keeps sc sc.
Proof. keeps. Qed.

Lemma analysis_keeps_trans (a b c : ChannelScaleData) :
  analysis_keeps a b -> analysis_keeps b c -> analysis_keeps a c.
Proof.
  unfold analysis_keeps.
  intros (H1 & H2 & H3 & H4 & H5 & H6) (K1 & K2 & K3 & K4 & K5 & K6).
  repeat split; congruence.
Qed.

Lemma scales_kept_refl (m : gmap Z ChannelScaleData) : scales_kept m m.
Proof.
  intros k. destruct (m !! k); [apply analysis_keeps_refl | exact I].
Qed.

Lemma scales_kept_trans (m1 m2 m3 : gmap Z ChannelScaleData) :
  scales_kept m1 m2 -> scales_kept m2 m3 -> scales_kept m1 m3.
Proof.
  intros H1 H2 k. specialize (H1 k). specialize (H2 k).
  destruct (m1 !! k), (m2 !! k), (m3 !! k); try contradiction;
    [eapply analysis_keeps_trans; eassumption | exact I].
Qed.

Lemma on_scale_kept (k : Z) (f : ChannelScaleData -> ChannelScaleData)
    (evs : list AnalysisEvent) (a : Analysis) :
  (forall sc, analysis_keeps sc (f sc)) ->
  scales_kept (fst a) (fst (on_scale k f evs a)).
Proof.
  intros Hf j. unfold on_scale. cbn [fst].
  destruct (decide (k = j)) as [-> | Hne].
  - rewrite lookup_alter_eq. destruct (fst a !! j); cbn; [apply Hf | exact I].
  - rewrite lookup_alter_ne by exact Hne.
    destruct (fst a !! j); [apply analysis_keeps_refl | exact I].
Qed.

Lemma for_scales_kept
    (body : Z -> ChannelScaleData
            -> option (ChannelScaleData * list AnalysisEvent))
    (a : Analysis) :
  (forall k sc sc' evs, body k sc = Some (sc', evs) -> analysis_keeps sc sc') ->
  scales_kept (fst a) (fst (for_scales body a)).
Proof.
  intros Hb j. rewrite for_scales_lookup.
  destruct (fst a !! j) as [sc |]; cbn; [| exact I].
  unfold scale_after. destruct (body j sc) as [[sc' evs] |] eqn:E;
    [eapply Hb; exact E | apply analysis_keeps_refl].
Qed.

Lemma window_frames_kept (config : Configuration) (valid : bool)
    (buf : list R) (a : Analysis) :
  scales_kept (fst a) (fst (window_frames cut config valid buf a)).
Proof.
  unfold window_frames. cbv zeta.
  eapply scales_kept_trans; [| apply on_scale_kept; intros; keeps].
  assert (H1 : forall a1 : Analysis,
             scales_kept (fst a) (fst a1) ->
             forall evs : list AnalysisEvent,
               scales_kept (fst a) (fst (fst a1, evs)))
    by (intros a1 H evs; exact H).
  destruct valid; cbn [negb].
  - apply H1. apply for_scales_kept. intros k sc sc' evs Hb.
    destruct (_ || _); [discriminate |]. injection Hb as <- _. keeps.
  - eapply scales_kept_trans; [| apply on_scale_kept; intros; keeps].
    apply H1. apply for_scales_kept. intros k sc sc' evs Hb.
    destruct (_ || _); [discriminate |]. injection Hb as <- _. keeps.
Qed.

Lemma transform_readahead_kept (config : Configuration) (valid : bool)
    (ra : ClassificationReadaheadData) (ra_td : list R) (a : Analysis) :
  scales_kept (fst a)
    (fst (snd (transform_readahead forward convertToPolar config valid
                 ra ra_td a))).
Proof.
  unfold transform_readahead. cbv zeta.
  destruct (band_of config (classificationFftSize config)) as [b |];
    destruct valid; cbn [snd];
    repeat (eapply scales_kept_trans; [| apply on_scale_kept; intros; keeps]);
    apply scales_kept_refl.
Qed.

Lemma analyse_scale_keeps (config : Configuration) (k : Z)
    (sc : ChannelScaleData) :
  analysis_keeps sc (fst (analyse_scale forward convertToPolar config k sc)).
Proof.
  unfold analyse_scale. cbv zeta.
  destruct (band_of config k) as [b |]; cbn [fst]; keeps.
Qed.

Lemma transform_scales_kept (config : Configuration) (valid : bool)
    (a : Analysis) :
  scales_kept (fst a)
    (fst (transform_scales forward convertToPolar config valid a)).
Proof.
  unfold transform_scales. apply for_scales_kept. intros k sc sc' evs Hb.
  destruct (_ && _); [discriminate |].
  pose proof (analyse_scale_keeps config k sc) as Hk.
  destruct (analyse_scale forward convertToPolar config k sc) as [sc1 evs1].
  injection Hb as <- _. exact Hk.
Qed.

(** Lines 830-988 write the scales and the readahead only. *)
Lemma analyse_spectra_frame (config : Configuration) (inhop prevInhop : Z)
    (cd cd1 : ChannelData) (evs : list AnalysisEvent) :
  analyse_spectra cut forward convertToPolar config inhop prevInhop cd
  = Fin (cd1, evs) ->
  scales_kept (scales cd) (scales cd1) /\
  cd1 = set_readahead (readahead cd1) true (set_scales (scales cd1) cd).
Proof.
  unfold analyse_spectra. cbv zeta.
  destruct (scales cd !! longestFftSize config) as [longestScale |];
    [| discriminate].
  destruct (scales cd !! classificationFftSize config) as [classifyScale |];
    [| discriminate].
  match goal with
  | |- context [transform_readahead _ _ ?cfg ?v ?ra ?td ?a] =>
      pose proof (transform_readahead_kept cfg v ra td a) as Hr;
      destruct (transform_readahead forward convertToPolar cfg v ra td a)
        as [ra_mp a2] eqn:E;
      assert (Ha : scales_kept (scales cd) (fst a))
  end.
  { eapply scales_kept_trans; [| apply window_frames_kept].
    apply (on_scale_kept _ _ [] (scales cd, [])). intros; keeps. }
  cbn [snd] in Hr. intros H. injection H as <- <-.
  split; [| reflexivity]. cbn [scales set_readahead set_scales].
  eapply scales_kept_trans; [| apply transform_scales_kept].
  eapply scales_kept_trans; [exact Ha | exact Hr].
Qed.

Lemma formant_bin_keeps (f : FormantData) (sf tf : R)
    (sc : ChannelScaleData) (i : Z) :
  analysis_keeps sc (formant_bin envelopeAt f sf tf sc i).
Proof.
  unfold formant_bin. cbv zeta. destruct (Rgt_dec _ 0); keeps.
Qed.

Lemma foldl_keeps {B : Type} (F : ChannelScaleData -> B -> ChannelScaleData)
    (l : list B) :
  (forall sc b, analysis_keeps sc (F sc b)) ->
  forall sc, analysis_keeps sc (foldl F sc l).
Proof.
  intros HF. induction l as [| b l IH]; intros sc; cbn [foldl];
    [apply analysis_keeps_refl |].
  eapply analysis_keeps_trans; [apply HF | apply IH].
Qed.

Lemma adjustFormant_kept (s : R3Stretcher) (cd : ChannelData) :
  scales_kept (scales cd) (scales (adjustFormant envelopeAt s cd)) /\
  adjustFormant envelopeAt s cd
  = set_scales (scales (adjustFormant envelopeAt s cd)) cd.
Proof.
  split; [| reflexivity]. unfold adjustFormant. cbn [scales set_scales].
  intros k. rewrite map_lookup_imap.
  destruct (scales cd !! k) as [sc |]; cbn; [| exact I].
  unfold adjustFormant_scale. cbv zeta. apply foldl_keeps. intros sc0 b.
  destruct (bl_fftSize b =? k); [| apply analysis_keeps_refl].
  apply foldl_keeps. intros sc1 i. apply formant_bin_keeps.
Qed.

(** X21: the analysis of channel [c] reads the input ring without
    consuming it and leaves the synthesis state alone.  When
    [analyseChannel] returns, the engine differs in [m_unityCount] and in
    the data of channel [c] only; in that channel the rings, the mixdown
    and resample buffers are as before, the readahead is marked valid,
    the segmentations have moved up by one frame, the same FFT sizes
    have scales, and each scale has kept its buffer size, advanced
    phases, previous magnitudes, pending kick, accumulator and fill. *)
Theorem X21_analysis_frame (c : nat) (inhop prevInhop prevOuthop : Z)
    (s s' : R3Stretcher) (evs : list AnalysisEvent) (cd : ChannelData) :
  m_channelData s !! c = Some cd ->
  analyseChannel cut forward convertToPolar inverseCepstral envelopeAt
    classifier_classify segmenter_segment updateGuidance
    c inhop prevInhop prevOuthop s = Fin (s', evs) ->
  s' = set_m_unityCount (m_unityCount s')
         (set_m_channelData (m_channelData s') s) /\
  length (m_channelData s') = length (m_channelData s) /\
  (forall c', c' <> c -> m_channelData s' !! c' = m_channelData s !! c') /\
  exists cd',
    m_channelData s' !! c = Some cd' /\
    inbuf cd' = inbuf cd /\ outbuf cd' = outbuf cd /\
    mixdown cd' = mixdown cd /\ resampled cd' = resampled cd /\
    haveReadahead cd' = true /\
    prevSegmentation cd' = segmentation cd /\
    segmentation cd' = nextSegmentation cd /\
    scales_kept (scales cd) (scales cd').
Proof.
  intros Hcd. unfold analyseChannel. cbv zeta. rewrite Hcd.
  destruct (analyse_spectra cut forward convertToPolar
              (m_guideConfiguration s) inhop prevInhop cd)
    as [[cd1 evs1] | | |] eqn:Hsp; cbn [bind]; try discriminate.
  destruct (analyse_spectra_frame _ _ _ _ _ _ Hsp) as [Hk1 Hf1].
  assert (Hstep : forall cd2,
             (if OptionFormantPreserved (options (m_parameters s))
              then cd3 <- analyseFormant forward inverseCepstral s cd1 ;;
                   Fin (adjustFormant envelopeAt s cd3)
              else Fin cd1) = Fin cd2 ->
             scales_kept (scales cd) (scales cd2) /\
             inbuf cd2 = inbuf cd /\ outbuf cd2 = outbuf cd /\
             mixdown cd2 = mixdown cd /\ resampled cd2 = resampled cd /\
             haveReadahead cd2 = true /\
             segmentation cd2 = segmentation cd /\
             nextSegmentation cd2 = nextSegmentation cd).
  { intros cd2 H.
    destruct (OptionFormantPreserved (options (m_parameters s))).
    - unfold analyseFormant in H. cbv zeta in H.
      destruct (scales cd1 !! fd_fftSize (formant cd1)) as [scale |];
        [| discriminate].
      cbn [bind] in H. injection H as <-.
      match goal with
      | |- context [adjustFormant envelopeAt s ?x] =>
          destruct (adjustFormant_kept s x) as [Hk2 Hf2]; rewrite Hf2
      end.
      cbn [scales inbuf outbuf mixdown resampled haveReadahead segmentation
           nextSegmentation set_scales] in *.
      split; [eapply scales_kept_trans; [exact Hk1 | exact Hk2] |].
      rewrite Hf1. repeat split; reflexivity.
    - injection H as <-. split; [exact Hk1 |].
      rewrite Hf1. repeat split; reflexivity. }
  match goal with
  | |- context [bind ?m _] => destruct m as [cd2 | | |] eqn:Hm
  end; cbn [bind]; try discriminate.
  destruct (Hstep cd2 eq_refl) as (Hk & Hi & Ho & Hmx & Hrs & Hra & Hsg & Hns).
  destruct (scales cd2 !! classificationFftSize (m_guideConfiguration s))
    as [classifyScale |]; [| discriminate].
  destruct (v_mean _ _ _) as [meanMag | | |]; cbn [bind]; try discriminate.
  intros H. injection H as <- _.
  cbn [m_unityCount m_channelData set_m_unityCount set_m_channelData].
  split; [destruct s; reflexivity |].
  split; [apply length_insert |].
  split; [intros c' Hc'; apply list_lookup_insert_ne; congruence |].
  eexists. split.
  { apply list_lookup_insert_eq. apply lookup_lt_Some in Hcd. exact Hcd. }
  cbn [inbuf outbuf mixdown resampled haveReadahead prevSegmentation
       segmentation scales].
  repeat split; assumption.
Qed.

(** Without formant preservation the analysis returns once the channel
    has scales at the longest and at the classification size. *)
Lemma analyseChannel_returns (c : nat) (inhop prevInhop prevOuthop : Z)
    (s : R3Stretcher) (cd : ChannelData) :
  m_channelData s !! c = Some cd ->
  is_Some (scales cd !! longestFftSize (m_guideConfiguration s)) ->
  is_Some (scales cd !! classificationFftSize (m_guideConfiguration s)) ->
  OptionFormantPreserved (options (m_parameters s)) = false ->
  Z.quot (classificationFftSize (m_guideConfiguration s)) 2 <> 0 ->
  exists s' evs,
    analyseChannel cut forward convertToPolar inverseCepstral envelopeAt
      classifier_classify segmenter_segment updateGuidance
      c inhop prevInhop prevOuthop s = Fin (s', evs).
Proof.
  intros Hcd [l Hl] [k Hk] Hopt Hq.
  assert (Hsp : exists cd1 evs1,
             analyse_spectra cut forward convertToPolar
               (m_guideConfiguration s) inhop prevInhop cd
             = Fin (cd1, evs1)).
  { unfold analyse_spectra. cbv zeta. rewrite Hl, Hk.
    match goal with
    | |- context [transform_readahead _ _ ?cfg ?v ?ra ?td ?a] =>
        destruct (transform_readahead forward convertToPolar cfg v ra td a)
          as [ra_mp a2]
    end.
    eexists _, _. reflexivity. }
  destruct Hsp as (cd1 & evs1 & Hsp).
  destruct (analyse_spectra_frame _ _ _ _ _ _ Hsp) as [Hkept _].
  specialize (Hkept (classificationFftSize (m_guideConfiguration s))).
  rewrite Hk in Hkept.
  unfold analyseChannel. cbv zeta. rewrite Hcd, Hsp, Hopt. cbn [bind].
  destruct (scales cd1 !! classificationFftSize (m_guideConfiguration s))
    as [classifyScale |]; [| contradiction].
  unfold v_mean, ddiv.
  destruct (Req_dec_T _ 0) as [H0 | _].
  - apply eq_IZR in H0. contradiction.
  - cbn [bind]. eexists _, _. reflexivity.
Qed.

End AnalysisFrame.

(** X21 on [engine_analysing]: the 40 samples waiting in the input ring
    are still there after the analysis. *)
Lemma X21_witness :
  m_channelData engine_analysing !! 0%nat = Some channel_C9 /\
  exists s' evs cd',
    analyseChannel example_cut example_forward example_convertToPolar
      example_inverseCepstral example_envelopeAt example_classify
      example_segment example_updateGuidance 0 4 4 4 engine_analysing
    = Fin (s', evs) /\
    m_channelData s' !! 0%nat = Some cd' /\
    getReadSpace (inbuf cd') = 40 /\
    haveReadahead cd' = true.
Proof.
  assert (Hcd : m_channelData engine_analysing !! 0%nat = Some channel_C9)
    by reflexivity.
  split; [exact Hcd |].
  destruct (analyseChannel_returns example_cut example_forward
              example_convertToPolar example_inverseCepstral
              example_envelopeAt example_classify example_segment
              example_updateGuidance 0 4 4 4 engine_analysing channel_C9 Hcd)
    as (s' & evs & Hr).
  { exists (ChannelScaleData_new 32 32). vm_compute. reflexivity. }
  { exists (ChannelScaleData_new 16 32). vm_compute. reflexivity. }
  { reflexivity. }
  { vm_compute. discriminate. }
  destruct (X21_analysis_frame _ _ _ _ _ _ _ _ 0 4 4 4 engine_analysing
              s' evs channel_C9 Hcd Hr)
    as (_ & _ & _ & cd' & Hc' & Hi & _ & _ & _ & Hra & _).
  exists s', evs, cd'. split; [exact Hr |]. split; [exact Hc' |].
  split; [rewrite Hi; reflexivity | exact Hra].
Defined.


(** ** Every scale is analysed once *)

Section EveryScale.

Variable cut : Z -> list R -> list R -> list R.
Variable forward : Z -> list R -> list R * list R.
Variable convertToPolar :
  list R -> list R -> list R -> list R -> ToPolarSpec -> list R * list R.
Variable config : Configuration.

Local Abbreviation longest := (longestFftSize config).
Local Abbreviation classify := (classificationFftSize config).









End EveryScale.



(** ** Mixing and moving the accumulators along *)

Section Mixing.

Local Open Scope R_scope.

Lemma foldl_ext_elem {A B : Type} (f g : A -> B -> A) (l : list B) :
  (forall a b, b ∈ l -> f a b = g a b) ->
  forall a, foldl f a l = foldl g a l.
Proof.
  induction l as [| b l IH]; intros H a; [reflexivity |].
  cbn [foldl]. rewrite H by left. apply IH. intros a' b' Hb.
  apply H. right. exact Hb.
Qed.

(** The accumulator after a frame: what was behind the hop, then
    silence. *)
Lemma advance_scale_spec (outhop : Z) (draining : bool)
    (sc : ChannelScaleData) :
  (0 <= outhop <= Z.of_nat (length (accumulator sc)))%Z ->
  let sc' := fst (advance_scale outhop draining sc) in
  accumulator sc'
  = (drop (Z.to_nat outhop) (accumulator sc) ++ zeros outhop)%list /\
  accumulatorFill sc'
  = fill_after outhop draining (accumulatorFill sc)
      (Z.of_nat (length (accumulator sc'))) /\
  sc' = set_accumulatorFill (accumulatorFill sc')
          (set_accumulator (accumulator sc') sc).
Proof.
  intros Ho. cbv zeta.
  set (acc := accumulator sc) in *.
  set (n := (Z.of_nat (length acc) - outhop)%Z).
  assert (Hacc : v_zero (v_move acc outhop n) n outhop
                 = (drop (Z.to_nat outhop) acc ++ zeros outhop)%list).
  { apply list_eq. intros i. unfold v_zero, v_move, zeros.
    rewrite !list_lookup_imap.
    destruct (acc !! i) as [x |] eqn:Hx; cbn.
    - pose proof (lookup_lt_Some _ _ _ Hx) as Hi.
      destruct (Z.leb_spec n (Z.of_nat i)) as [Hge | Hlt]; cbn [andb].
      + destruct (Z.ltb_spec (Z.of_nat i) (n + outhop)); [| lia].
        rewrite lookup_app_r by (rewrite length_drop; lia).
        symmetry. apply lookup_replicate_2. rewrite length_drop. lia.
      + destruct (Z.ltb_spec (Z.of_nat i) n); [| lia].
        rewrite lookup_app_l by (rewrite length_drop; lia).
        rewrite lookup_drop.
        destruct (acc !! (Z.to_nat outhop + i)%nat) as [y |] eqn:Hy.
        * f_equal. unfold rd.
          destruct (Z.ltb_spec (Z.of_nat i + outhop) 0); [lia |].
          apply nth_lookup_Some.
          replace (Z.to_nat (Z.of_nat i + outhop))
            with (Z.to_nat outhop + i)%nat by lia.
          exact Hy.
        * apply lookup_ge_None in Hy. lia.
    - apply lookup_ge_None in Hx. symmetry. apply lookup_ge_None.
      rewrite length_app, length_drop, length_replicate. lia. }
  unfold advance_scale. cbv zeta. fold acc. fold n. rewrite Hacc.
  unfold fill_after.
  destruct draining; [destruct (outhop <? accumulatorFill _)%Z |];
    cbn [fst accumulator accumulatorFill set_accumulator set_accumulatorFill];
    (split; [reflexivity |]); (split; [reflexivity |]);
    destruct sc; reflexivity.
Qed.

Lemma advance_scale_length (outhop : Z) (draining : bool)
    (sc : ChannelScaleData) :
  length (accumulator (fst (advance_scale outhop draining sc)))
  = length (accumulator sc).
Proof.
  unfold advance_scale. cbv zeta.
  destruct draining; [destruct (outhop <? accumulatorFill _)%Z |];
    cbn [fst accumulator set_accumulator set_accumulatorFill];
    unfold v_zero, v_move; rewrite !length_imap; reflexivity.
Qed.

(** The loop visits each scale once. *)
Lemma mix_fold (outhop : Z) (draining : bool) (l : list Z) :
  NoDup l ->
  forall (md : list R) (lg : list LogEntry) (m : gmap Z ChannelScaleData),
    let r :=
      foldl (fun st k =>
               match snd st !! k with
               | Some scale =>
                 (mix_in outhop (fst (fst st)) (accumulator scale),
                  (snd (fst st)
                   ++ snd (advance_scale outhop draining scale))%list,
                  <[k := fst (advance_scale outhop draining scale)]> (snd st))
               | None => st
               end)
            (md, lg, m) l in
    (forall j, snd r !! j
               = if decide (j ∈ l)
                 then (fun sc => fst (advance_scale outhop draining sc))
                        <$> m !! j
                 else m !! j) /\
    fst (fst r)
    = foldl (fun md k =>
               match m !! k with
               | Some sc => mix_in outhop md (accumulator sc)
               | None => md
               end) md l /\
    snd (fst r)
    = (lg ++ flat_map (fun k =>
                         match m !! k with
                         | Some sc => snd (advance_scale outhop draining sc)
                         | None => []
                         end) l)%list.
Proof.
  induction 1 as [| k l Hk Hnd IH]; intros md lg m; cbv zeta.
  - cbn [foldl flat_map fst snd]. split; [| split].
    + intros j. destruct (decide (j ∈ [])) as [Hin | _]; [| reflexivity].
      inversion Hin.
    + reflexivity.
    + rewrite app_nil_r. reflexivity.
  - cbn [foldl flat_map fst snd].
    destruct (m !! k) as [sc |] eqn:Hsc.
    + destruct (IH (mix_in outhop md (accumulator sc))
                  (lg ++ snd (advance_scale outhop draining sc))%list
                  (<[k := fst (advance_scale outhop draining sc)]> m))
        as (IHm & IHd & IHl).
      cbv zeta in IHm, IHd, IHl. split; [| split].
      * intros j. rewrite IHm.
        destruct (decide (j = k)) as [-> | Hjk].
        -- rewrite lookup_insert_eq, Hsc.
           destruct (decide (k ∈ l)) as [Hin | _]; [contradiction |].
           destruct (decide (k ∈ k :: l)) as [_ | Hn];
             [reflexivity | exfalso; apply Hn; left].
        -- rewrite lookup_insert_ne by congruence.
           destruct (decide (j ∈ l)) as [Hin | Hin];
             destruct (decide (j ∈ k :: l)) as [Hin' | Hin'];
             try reflexivity.
           ++ exfalso. apply Hin'. right. exact Hin.
           ++ exfalso. apply elem_of_cons in Hin'.
              destruct Hin' as [-> | Hin']; contradiction.
      * rewrite IHd. apply foldl_ext_elem. intros a j Hj.
        rewrite lookup_insert_ne; [reflexivity |]. intros ->. contradiction.
      * rewrite IHl, <- app_assoc. f_equal. f_equal.
        apply flat_map_ext_elem. intros j Hj.
        rewrite lookup_insert_ne; [reflexivity |]. intros ->. contradiction.
    + destruct (IH md lg m) as (IHm & IHd & IHl).
      cbv zeta in IHm, IHd, IHl. split; [| split].
      * intros j. rewrite IHm.
        destruct (decide (j = k)) as [-> | Hjk].
        -- rewrite Hsc. destruct (decide (k ∈ l)); destruct (decide (k ∈ k :: l));
             reflexivity.
        -- destruct (decide (j ∈ l)) as [Hin | Hin];
             destruct (decide (j ∈ k :: l)) as [Hin' | Hin'];
             try reflexivity.
           ++ exfalso. apply Hin'. right. exact Hin.
           ++ exfalso. apply elem_of_cons in Hin'.
              destruct Hin' as [-> | Hin']; contradiction.
      * exact IHd.
      * exact IHl.
Qed.

Lemma rd_mix_in (outhop : Z) (md acc : list R) (i : Z) :
  rd (mix_in outhop md acc) i
  = if ((0 <=? i) && (i <? outhop) && (i <? Z.of_nat (length md)))%Z
    then rd md i + rd acc i else rd md i.
Proof.
  destruct (Z.lt_ge_cases i 0) as [Hi | Hi].
  - unfold rd. destruct (Z.ltb_spec i 0); [| lia].
    destruct (Z.leb_spec 0 i); [lia |]. reflexivity.
  - destruct (Z.leb_spec 0 i); [| lia]. cbn [andb].
    unfold rd at 1 2 4. destruct (Z.ltb_spec i 0); [lia |].
    rewrite !nth_lookup. unfold mix_in. rewrite list_lookup_imap.
    destruct (md !! Z.to_nat i) as [x |] eqn:Hx; cbn.
    + pose proof (lookup_lt_Some _ _ _ Hx) as Hlt.
      rewrite Z2Nat.id by exact Hi.
      destruct (Z.ltb_spec i outhop); cbn [andb]; [| reflexivity].
      destruct (Z.ltb_spec i (Z.of_nat (length md))); [reflexivity | lia].
    + apply lookup_ge_None in Hx.
      destruct (Z.ltb_spec i (Z.of_nat (length md))); [lia |].
      rewrite andb_false_r. reflexivity.
Qed.

Lemma length_mix_in (outhop : Z) (md acc : list R) :
  length (mix_in outhop md acc) = length md.
Proof. unfold mix_in. apply length_imap. Qed.

(** The mixdown after the loop: what it held plus the heads of the
    accumulators of the scales visited. *)
Lemma mix_sum (outhop : Z) (m : gmap Z ChannelScaleData) (l : list Z) :
  forall (md : list R),
    let md' :=
      foldl (fun md k =>
               match m !! k with
               | Some sc => mix_in outhop md (accumulator sc)
               | None => md
               end) md l in
    length md' = length md /\
    forall i,
      rd md' i
      = if ((0 <=? i) && (i <? outhop) && (i <? Z.of_nat (length md)))%Z
        then rd md i
             + foldr (fun k t =>
                        match m !! k with
                        | Some sc => rd (accumulator sc) i + t
                        | None => t
                        end) 0 l
        else rd md i.
Proof.
  induction l as [| k l IH]; intros md; cbv zeta; cbn [foldl foldr].
  - split; [reflexivity |]. intros i. destruct (_ && _); lra.
  - destruct (m !! k) as [sc |].
    + destruct (IH (mix_in outhop md (accumulator sc))) as [Hl Hr].
      cbv zeta in Hl, Hr. rewrite length_mix_in in Hl, Hr.
      split; [exact Hl |]. intros i. rewrite Hr, rd_mix_in.
      destruct (_ && _); lra.
    + apply IH.
Qed.

(** X23: the loop that mixes a channel and moves its accumulators
    along (lines 1239-1262), for an output hop between 0 and the
    accumulator length.  Every scale stays at its FFT size; its
    accumulator loses its first [outhop] samples and gains [outhop]
    zeros at the end; its fill counter becomes the accumulator length,
    or when draining drops by [outhop] and stops at 0; nothing else of
    the scale changes.  Each of the first [outhop] mixdown samples grows
    by the sum over the scales of the accumulator sample at that
    position, and the rest of the mixdown is untouched. *)
Theorem X23_mix_and_advance (outhop : Z) (draining : bool)
    (mixdown : list R) (lg : list LogEntry) (m : gmap Z ChannelScaleData) :
  (0 <= outhop)%Z ->
  (forall k sc, m !! k = Some sc ->
     (outhop <= Z.of_nat (length (accumulator sc)))%Z) ->
  let r := mix_scales outhop draining mixdown lg m in
  (forall k, m !! k = None -> snd r !! k = None) /\
  (forall k sc, m !! k = Some sc ->
     exists sc',
       snd r !! k = Some sc' /\
       accumulator sc'
       = (drop (Z.to_nat outhop) (accumulator sc) ++ zeros outhop)%list /\
       accumulatorFill sc'
       = fill_after outhop draining (accumulatorFill sc)
           (Z.of_nat (length (accumulator sc))) /\
       sc' = set_accumulatorFill (accumulatorFill sc')
               (set_accumulator (accumulator sc') sc)) /\
  length (fst (fst r)) = length mixdown /\
  (forall i, (0 <= i < outhop)%Z -> (i < Z.of_nat (length mixdown))%Z ->
     rd (fst (fst r)) i
     = rd mixdown i
       + foldr (fun k t =>
                  match m !! k with
                  | Some sc => rd (accumulator sc) i + t
                  | None => t
                  end) 0 (scale_sizes m)) /\
  (forall i, (outhop <= i)%Z -> rd (fst (fst r)) i = rd mixdown i).
Proof.
  intros Ho Hlen. cbv zeta. unfold mix_scales.
  destruct (mix_fold outhop draining (scale_sizes m) (scale_sizes_NoDup m)
              mixdown lg m) as (Hm & Hd & _).
  cbv zeta in Hm, Hd.
  destruct (mix_sum outhop m (scale_sizes m) mixdown) as [Hl Hr].
  cbv zeta in Hl, Hr. rewrite <- Hd in Hl, Hr.
  split; [| split; [| split; [| split]]].
  - intros k Hk. rewrite Hm, Hk. destruct (decide _); reflexivity.
  - intros k sc Hk. rewrite Hm, Hk.
    destruct (decide (k ∈ scale_sizes m)) as [_ | Hn].
    + cbn. eexists. split; [reflexivity |].
      destruct (advance_scale_spec outhop draining sc) as (Ha & Hf & He).
      { split; [exact Ho | eapply Hlen; exact Hk]. }
      cbv zeta in Ha, Hf, He. rewrite advance_scale_length in Hf.
      split; [exact Ha |]. split; [exact Hf | exact He].
    + exfalso. apply Hn. apply elem_of_scale_sizes. exists sc. exact Hk.
  - exact Hl.
  - intros i Hi Hi'. rewrite Hr.
    destruct (Z.leb_spec 0 i); [| lia].
    destruct (Z.ltb_spec i outhop); [| lia].
    destruct (Z.ltb_spec i (Z.of_nat (length mixdown))); [| lia].
    reflexivity.
  - intros i Hi. rewrite Hr.
    destruct (Z.ltb_spec i outhop); [lia |].
    rewrite andb_false_r. reflexivity.
Qed.

End Mixing.


(** X23 on [scale_mixing], draining with an output hop of 2. *)
Lemma X23_witness :
  0 <= 2 /\
  exists sc',
    snd (mix_scales 2 true [0; 0]%R [] {[4 := scale_mixing]}) !! 4
    = Some sc' /\
    accumulator sc' = [3; 4; 0; 0]%R /\
    accumulatorFill sc' = 1 /\
    rd (fst (fst (mix_scales 2 true [0; 0]%R [] {[4 := scale_mixing]}))) 1
    = (0 + (2 + 0))%R.
Proof.
  assert (H0 : 0 <= 2) by lia.
  split; [exact H0 |].
  destruct (X23_mix_and_advance 2 true [0; 0]%R [] {[4 := scale_mixing]} H0)
    as (_ & Hs & _ & Hmix & _).
  { intros k sc H. apply lookup_singleton_Some in H as [_ <-].
    vm_compute. discriminate. }
  destruct (Hs 4 scale_mixing (lookup_singleton_eq _ _))
    as (sc' & H1 & H2 & H3 & _).
  exists sc'. split; [exact H1 |].
  split; [rewrite H2; reflexivity |].
  split; [rewrite H3; reflexivity |].
  rewrite (Hmix 1) by (cbn; lia).
  unfold scale_sizes. rewrite map_to_list_singleton. cbn.
  rewrite lookup_singleton_eq. reflexivity.
Defined.


(** ** What the synthesis of a channel leaves alone *)

Section SynthesisFrame.

Variable windowScaleFactor : Z -> R.
Variable synthesisWindowSize : Z -> Z.
Variable polar_to_cartesian : list R -> list R -> Z -> list R * list R.
Variable inverse : Z -> list R -> list R -> list R.
Variable cutAndAdd : Z -> list R -> list R -> list R.

Local Abbreviation synthesise_band' :=
  (synthesise_band windowScaleFactor synthesisWindowSize polar_to_cartesian
     inverse cutAndAdd).
Local Abbreviation synthesise_bands' :=
  (synthesise_bands windowScaleFactor synthesisWindowSize polar_to_cartesian
     inverse cutAndAdd).

(** Resynthesis of a band takes the magnitudes into [prevMag] before it
    filters them, and leaves the fill counter to the mixing loop. *)
Lemma synthesise_band_spec (sampleRate : R) (longest outhop : Z)
    (band : FftBand) (sc sc' : ChannelScaleData) :
  synthesise_band' sampleRate longest outhop band sc = Fin sc' ->
  synthesis_keeps sc sc' /\
  accumulatorFill sc' = accumulatorFill sc /\
  prevMag sc' = v_copy (prevMag sc) (mag sc) (bufSize sc).
Proof.
  unfold synthesise_band. cbv zeta.
  destruct (ddiv _ _) as [winscale | | |]; cbn [bind]; try discriminate.
  intros H. injection H as <-. unfold synthesis_keeps.
  repeat match goal with
         | |- context [if ?b then _ else _] => destruct b
         end; repeat split; reflexivity.
Qed.

Lemma synthesise_bands_cons (sampleRate : R) (longest outhop : Z)
    (band : FftBand) (bands : list FftBand) (m : gmap Z ChannelScaleData) :
  synthesise_bands' sampleRate longest outhop (band :: bands) m
  = (m1 <- match m !! fftSize band with
           | None => Thrown
           | Some scale =>
             scale' <- synthesise_band' sampleRate longest outhop band scale ;;
             Fin (<[fftSize band := scale']> m)
           end ;;
     synthesise_bands' sampleRate longest outhop bands m1).
Proof.
  unfold synthesise_bands. cbn [foldl bind].
  match goal with
  | |- foldl ?f ?x bands = _ => destruct x as [m1 | | |]; cbn [bind];
      [reflexivity | | |]; induction bands as [| b bs IH]; cbn [foldl bind];
      try reflexivity; exact IH
  end.
Qed.

(** The loop over the bands keeps the FFT sizes, touches the scales of
    the bands alone, and runs once on each when their sizes differ. *)
Lemma synthesise_bands_spec (sampleRate : R) (longest outhop : Z)
    (bands : list FftBand) :
  forall m m1 : gmap Z ChannelScaleData,
    synthesise_bands' sampleRate longest outhop bands m = Fin m1 ->
    (forall k, match m !! k, m1 !! k with
               | Some sc, Some sc' =>
                 synthesis_keeps sc sc' /\
                 accumulatorFill sc' = accumulatorFill sc
               | None, None => True
               | _, _ => False
               end) /\
    (forall k, k ∉ map fftSize bands -> m1 !! k = m !! k) /\
    (NoDup (map fftSize bands) ->
     forall band, band ∈ bands ->
       exists sc sc',
         m !! fftSize band = Some sc /\ m1 !! fftSize band = Some sc' /\
         synthesise_band' sampleRate longest outhop band sc = Fin sc').
Proof.
  induction bands as [| band bands IH]; intros m m1 H.
  - cbn in H. injection H as <-. split; [| split].
    + intros k. destruct (m !! k); [| exact I].
      unfold synthesis_keeps. repeat split; reflexivity.
    + reflexivity.
    + intros _ band Hb. inversion Hb.
  - rewrite synthesise_bands_cons in H.
    destruct (m !! fftSize band) as [sc |] eqn:Hsc; [| discriminate].
    destruct (synthesise_band' sampleRate longest outhop band sc)
      as [sc1 | | |] eqn:Hb; cbn [bind] in H; try discriminate.
    destruct (synthesise_band_spec _ _ _ _ _ _ Hb) as (Hk1 & Hf1 & _).
    destruct (IH _ _ H) as (IHk & IHo & IHn).
    split; [| split].
    + intros k. specialize (IHk k).
      destruct (decide (k = fftSize band)) as [-> | Hne].
      * rewrite lookup_insert_eq in IHk. rewrite Hsc.
        destruct (m1 !! fftSize band) as [sc' |]; [| contradiction].
        destruct IHk as [Hk2 Hf2]. unfold synthesis_keeps in *.
        destruct Hk1 as (? & ? & ? & ?). destruct Hk2 as (? & ? & ? & ?).
        repeat split; congruence.
      * rewrite lookup_insert_ne in IHk by congruence. exact IHk.
    + intros k Hk. cbn [map] in Hk. rewrite IHo.
      * apply lookup_insert_ne. intros <-. apply Hk. left.
      * intros Hin. apply Hk. right. exact Hin.
    + intros Hnd b Hin. cbn [map] in Hnd. apply NoDup_cons in Hnd as [Hnin Hnd].
      apply elem_of_cons in Hin as [-> | Hin].
      * exists sc, sc1. split; [exact Hsc |]. split; [| exact Hb].
        rewrite IHo by exact Hnin. apply lookup_insert_eq.
      * destruct (IHn Hnd b Hin) as (sc0 & sc' & H0 & H1 & H2).
        assert (Hne : fftSize band <> fftSize b).
        { intros He. apply Hnin. rewrite He.
          apply list_elem_of_fmap. exists b. split; [reflexivity | exact Hin]. }
        rewrite lookup_insert_ne in H0 by exact Hne.
        exists sc0, sc'. repeat split; assumption.
Qed.

Lemma mix_scales_lookup (outhop : Z) (draining : bool) (md : list R)
    (lg : list LogEntry) (m : gmap Z ChannelScaleData) (k : Z) :
  snd (mix_scales outhop draining md lg m) !! k
  = (fun sc => fst (advance_scale outhop draining sc)) <$> m !! k.
Proof.
  destruct (mix_fold outhop draining (scale_sizes m) (scale_sizes_NoDup m)
              md lg m) as (Hm & _ & _).
  cbv zeta in Hm. unfold mix_scales. rewrite Hm.
  destruct (decide (k ∈ scale_sizes m)) as [_ | Hn]; [reflexivity |].
  rewrite elem_of_scale_sizes in Hn.
  destruct (m !! k) as [sc |] eqn:Hsc; [| reflexivity].
  exfalso. apply Hn. exists sc. reflexivity.
Qed.

Lemma mix_scales_length (outhop : Z) (draining : bool) (md : list R)
    (lg : list LogEntry) (m : gmap Z ChannelScaleData) :
  length (fst (fst (mix_scales outhop draining md lg m))) = length md.
Proof.
  destruct (mix_fold outhop draining (scale_sizes m) (scale_sizes_NoDup m)
              md lg m) as (_ & Hd & _).
  cbv zeta in Hd. unfold mix_scales. rewrite Hd.
  apply (mix_sum outhop m (scale_sizes m) md).
Qed.

(** What moving the accumulator along leaves of a scale. *)
Lemma advance_scale_shape (outhop : Z) (draining : bool)
    (sc : ChannelScaleData) :
  let sc' := fst (advance_scale outhop draining sc) in
  sc' = set_accumulatorFill (accumulatorFill sc')
          (set_accumulator (accumulator sc') sc) /\
  accumulatorFill sc'
  = fill_after outhop draining (accumulatorFill sc)
      (Z.of_nat (length (accumulator sc'))).
Proof.
  cbv zeta. unfold advance_scale, fill_after. cbv zeta.
  destruct draining; [destruct (outhop <? accumulatorFill _) |];
    cbn [fst accumulator accumulatorFill set_accumulator set_accumulatorFill];
    (split; [destruct sc; reflexivity | reflexivity]).
Qed.

(** X24: the synthesis of channel [c] writes the log and the data of
    that channel only, and in it only the mixdown and the scales: the
    rings, the resample buffer, the readahead and the guidance are as
    before.  The same FFT sizes have scales; each scale keeps its buffer
    size, phases, advanced phases and pending kick, and its fill counter
    becomes the accumulator length, or when draining drops by the output
    hop and stops at 0.  When the bands of the guidance have different
    FFT sizes, the scale of each band ends with the magnitudes it came
    with in [prevMag], and a scale of no band changes in its accumulator
    and fill only. *)
Theorem X24_synthesis_frame (c : nat) (outhop : Z) (draining : bool)
    (s s' : R3Stretcher) (cd : ChannelData) :
  m_channelData s !! c = Some cd ->
  synthesiseChannel windowScaleFactor synthesisWindowSize polar_to_cartesian
    inverse cutAndAdd c outhop draining s = Fin s' ->
  s' = set_m_log (m_log s') (set_m_channelData (m_channelData s') s) /\
  length (m_channelData s') = length (m_channelData s) /\
  (forall c', c' <> c -> m_channelData s' !! c' = m_channelData s !! c') /\
  exists cd',
    m_channelData s' !! c = Some cd' /\
    cd' = set_mixdown_resampled (mixdown cd') (resampled cd)
            (set_scales (scales cd') cd) /\
    length (mixdown cd') = length (mixdown cd) /\
    (forall k, match scales cd !! k, scales cd' !! k with
               | Some sc, Some sc' =>
                 synthesis_keeps sc sc' /\
                 accumulatorFill sc'
                 = fill_after outhop draining (accumulatorFill sc)
                     (Z.of_nat (length (accumulator sc')))
               | None, None => True
               | _, _ => False
               end) /\
    (forall k sc, scales cd !! k = Some sc ->
       k ∉ map fftSize (fftBands (guidance cd)) ->
       exists sc',
         scales cd' !! k = Some sc' /\
         sc' = set_accumulatorFill (accumulatorFill sc')
                 (set_accumulator (accumulator sc') sc)) /\
    (NoDup (map fftSize (fftBands (guidance cd))) ->
     forall band, band ∈ fftBands (guidance cd) ->
       exists sc sc',
         scales cd !! fftSize band = Some sc /\
         scales cd' !! fftSize band = Some sc' /\
         prevMag sc' = v_copy (prevMag sc) (mag sc) (bufSize sc)).
Proof.
  intros Hcd. unfold synthesiseChannel. cbv zeta. rewrite Hcd.
  destruct (synthesise_bands' _ _ _ _ _) as [m1 | | |] eqn:Hb;
    cbn [bind]; try discriminate.
  destruct (synthesise_bands_spec _ _ _ _ _ _ Hb) as (Hk & Ho & Hn).
  intros H. injection H as <-.
  cbn [m_log m_channelData set_m_log set_m_channelData].
  split; [destruct s; reflexivity |].
  split; [apply length_insert |].
  split; [intros c' Hc'; apply list_lookup_insert_ne; congruence |].
  eexists. split.
  { apply list_lookup_insert_eq. apply lookup_lt_Some in Hcd. exact Hcd. }
  cbn [mixdown resampled scales set_mixdown_resampled set_scales].
  split; [reflexivity |].
  split.
  { rewrite mix_scales_length. unfold v_zero. apply length_imap. }
  split; [| split].
  - intros k. specialize (Hk k). rewrite mix_scales_lookup.
    destruct (scales cd !! k) as [sc |], (m1 !! k) as [sc1 |]; cbn;
      try contradiction; [| exact I].
    destruct Hk as [Hk1 Hf1].
    destruct (advance_scale_shape outhop draining sc1) as [He Hf].
    cbv zeta in He, Hf. rewrite Hf, Hf1. split; [| reflexivity].
    rewrite He. unfold synthesis_keeps in *. exact Hk1.
  - intros k sc Hsc Hnin. rewrite mix_scales_lookup, (Ho k Hnin), Hsc. cbn.
    eexists. split; [reflexivity |].
    apply (advance_scale_shape outhop draining sc).
  - intros Hnd band Hin.
    destruct (Hn Hnd band Hin) as (sc & sc1 & H0 & H1 & H2).
    destruct (synthesise_band_spec _ _ _ _ _ _ H2) as (_ & _ & Hp).
    exists sc. eexists. split; [exact H0 |].
    rewrite mix_scales_lookup, H1. cbn. split; [reflexivity |].
    destruct (advance_scale_shape outhop draining sc1) as [He _].
    cbv zeta in He. rewrite He. exact Hp.
Qed.

(** The synthesis returns once every band of the guidance has a scale
    and a window scale factor other than 0. *)
Lemma synthesise_bands_returns (sampleRate : R) (longest outhop : Z)
    (bands : list FftBand) :
  (forall band, band ∈ bands -> windowScaleFactor (fftSize band) <> 0%R) ->
  forall m : gmap Z ChannelScaleData,
    (forall band, band ∈ bands -> is_Some (m !! fftSize band)) ->
    exists m1, synthesise_bands' sampleRate longest outhop bands m = Fin m1.
Proof.
  intros Hw. induction bands as [| band bands IH]; intros m Hm.
  - exists m. reflexivity.
  - rewrite synthesise_bands_cons.
    destruct (Hm band ltac:(left)) as [sc Hsc]. rewrite Hsc.
    assert (Hb : exists sc1,
               synthesise_band' sampleRate longest outhop band sc = Fin sc1).
    { unfold synthesise_band, ddiv. cbv zeta.
      destruct (Req_dec_T (windowScaleFactor (fftSize band)) 0) as [H0 | _].
      - exfalso. apply (Hw band); [left | exact H0].
      - cbn [bind]. eexists. reflexivity. }
    destruct Hb as [sc1 ->]. cbn [bind]. apply IH.
    + intros b Hb. apply Hw. right. exact Hb.
    + intros b Hb. apply lookup_insert_is_Some'. right. apply Hm. right.
      exact Hb.
Qed.

Lemma synthesiseChannel_returns (c : nat) (outhop : Z) (draining : bool)
    (s : R3Stretcher) (cd : ChannelData) :
  m_channelData s !! c = Some cd ->
  (forall band, band ∈ fftBands (guidance cd) ->
     windowScaleFactor (fftSize band) <> 0%R) ->
  (forall band, band ∈ fftBands (guidance cd) ->
     is_Some (scales cd !! fftSize band)) ->
  exists s',
    synthesiseChannel windowScaleFactor synthesisWindowSize
      polar_to_cartesian inverse cutAndAdd c outhop draining s = Fin s'.
Proof.
  intros Hcd Hw Hs. unfold synthesiseChannel. cbv zeta. rewrite Hcd.
  destruct (synthesise_bands_returns (sampleRate (m_parameters s))
              (longestFftSize (m_guideConfiguration s)) outhop
              (fftBands (guidance cd)) Hw (scales cd) Hs) as [m1 ->].
  cbn [bind]. eexists. reflexivity.
Qed.

End SynthesisFrame.

(** X24 on [engine_synthesising]: the rings are as before, and the fill
    counter of the scale of the band is the accumulator length. *)
Lemma X24_witness :
  m_channelData engine_synthesising !! 0%nat = Some channel_synthesis /\
  exists s' cd' sc',
    synthesiseChannel example_windowScaleFactor example_synthesisWindowSize
      example_polar_to_cartesian example_inverse example_cutAndAdd
      0 8 false engine_synthesising = Fin s' /\
    m_channelData s' !! 0%nat = Some cd' /\
    inbuf cd' = inbuf channel_synthesis /\
    scales cd' !! 16 = Some sc' /\
    accumulatorFill sc' = Z.of_nat (length (accumulator sc')).
Proof.
  assert (Hcd : m_channelData engine_synthesising !! 0%nat
                = Some channel_synthesis) by reflexivity.
  split; [exact Hcd |].
  destruct (synthesiseChannel_returns example_windowScaleFactor
              example_synthesisWindowSize example_polar_to_cartesian
              example_inverse example_cutAndAdd 0 8 false
              engine_synthesising channel_synthesis Hcd) as [s' Hr].
  { intros band _. unfold example_windowScaleFactor. lra. }
  { intros band Hb. apply list_elem_of_singleton in Hb as ->.
    exists (ChannelScaleData_new 16 32). vm_compute. reflexivity. }
  destruct (X24_synthesis_frame _ _ _ _ _ 0 8 false engine_synthesising s'
              channel_synthesis Hcd Hr)
    as (_ & _ & _ & cd' & Hc' & He & _ & Hk & _).
  specialize (Hk 16).
  assert (H16 : scales channel_synthesis !! 16
                = Some (ChannelScaleData_new 16 32))
    by (vm_compute; reflexivity).
  rewrite H16 in Hk.
  destruct (scales cd' !! 16) as [sc' |] eqn:Hsc'; [| contradiction].
  destruct Hk as [_ Hf].
  exists s', cd', sc'. split; [exact Hr |]. split; [exact Hc' |].
  split; [rewrite He; reflexivity |]. split; [exact Hsc' | exact Hf].
Defined.


(** ** The frame read for analysis *)

Section PeekFrame.

Local Open Scope R_scope.

Lemma rd_v_copy (dst src : list R) (n i : Z) :
  rd (v_copy dst src n) i
  = if ((0 <=? i) && (i <? n) && (i <? Z.of_nat (length dst)))%Z
    then rd src i else rd dst i.
Proof.
  destruct (Z.lt_ge_cases i 0) as [Hi | Hi].
  - rewrite !rd_negative by exact Hi.
    destruct (Z.leb_spec 0 i); [lia | reflexivity].
  - destruct (Z.leb_spec 0 i); [| lia]. cbn [andb].
    rewrite (rd_lookup (v_copy dst src n)), (rd_lookup dst) by exact Hi.
    unfold v_copy. rewrite list_lookup_imap.
    destruct (dst !! Z.to_nat i) as [x |] eqn:Hx; cbn.
    + pose proof (lookup_lt_Some _ _ _ Hx) as Hlt.
      rewrite Z2Nat.id by exact Hi.
      destruct (Z.ltb_spec i n); cbn [andb]; [| reflexivity].
      destruct (Z.ltb_spec i (Z.of_nat (length dst))); [reflexivity | lia].
    + apply lookup_ge_None in Hx.
      destruct (Z.ltb_spec i (Z.of_nat (length dst))); [lia |].
      rewrite andb_false_r. reflexivity.
Qed.

Lemma rd_take (l : list R) (n i : Z) :
  (0 <= i < n)%Z -> rd (take (Z.to_nat n) l) i = rd l i.
Proof.
  intros Hi. rewrite !rd_lookup by lia.
  rewrite lookup_take_lt by lia. reflexivity.
Qed.

(** X25: the frame [analyseChannel] reads (lines 836-842) is peeked,
    not consumed, from the input ring into the time-domain buffer of
    the longest scale: its first [min(readSpace, L)] samples are the
    oldest samples waiting in the ring, in order; when fewer than [L]
    are waiting, the samples from [readSpace] up to [L] are zero; and
    the buffer keeps its length and whatever it held from [L] on. *)
Theorem X25_peek_frame (config : Configuration) (cd : ChannelData)
    (longestScale : ChannelScaleData) :
  let L := longestFftSize config in
  let rs := getReadSpace (inbuf cd) in
  let buf := peek_frame config cd longestScale in
  length buf = length (timeDomain longestScale) /\
  (forall i, (0 <= i < Z.min rs L)%Z ->
     (i < Z.of_nat (length (timeDomain longestScale)))%Z ->
     rd buf i = rd (rb_data (inbuf cd)) i) /\
  (forall i, (0 <= i)%Z -> (rs <= i < L)%Z -> rd buf i = 0) /\
  (forall i, (L <= i)%Z -> rd buf i = rd (timeDomain longestScale) i).
Proof.
  cbv zeta. unfold peek_frame. cbv zeta.
  set (L := longestFftSize config).
  set (rs := getReadSpace (inbuf cd)).
  assert (Hrs : (0 <= rs)%Z) by (unfold rs, getReadSpace; lia).
  destruct (Z.ltb_spec rs L) as [Hlt | Hge].
  - split; [unfold v_zero, v_copy; rewrite !length_imap; reflexivity |].
    split; [| split].
    + intros i Hi Hl. rewrite rd_v_zero.
      destruct (Z.leb_spec rs i); [lia |]. cbn [andb].
      rewrite rd_v_copy.
      destruct (Z.leb_spec 0 i); [| lia].
      destruct (Z.ltb_spec i rs); [| lia].
      destruct (Z.ltb_spec i (Z.of_nat (length (timeDomain longestScale))));
        [| lia].
      cbn [andb]. unfold rb_peek. apply rd_take. lia.
    + intros i Hi0 Hi. rewrite rd_v_zero.
      destruct (Z.leb_spec rs i); [| lia].
      destruct (Z.ltb_spec i (rs + (L - rs))); [| lia]. reflexivity.
    + intros i Hi. rewrite rd_v_zero.
      destruct (Z.ltb_spec i (rs + (L - rs))); [lia |].
      rewrite andb_false_r, rd_v_copy.
      destruct (Z.ltb_spec i rs); [lia |].
      rewrite andb_false_r. reflexivity.
  - split; [unfold v_copy; rewrite length_imap; reflexivity |].
    split; [| split].
    + intros i Hi Hl. rewrite rd_v_copy.
      destruct (Z.leb_spec 0 i); [| lia].
      destruct (Z.ltb_spec i L); [| lia].
      destruct (Z.ltb_spec i (Z.of_nat (length (timeDomain longestScale))));
        [| lia].
      cbn [andb]. unfold rb_peek. apply rd_take. lia.
    + intros i Hi0 Hi. lia.
    + intros i Hi. rewrite rd_v_copy.
      destruct (Z.ltb_spec i L); [lia |].
      rewrite andb_false_r. reflexivity.
Qed.

End PeekFrame.

(** X25 on a channel of [small_configuration] with 20 samples waiting:
    sample 3 of the frame is that of the ring and sample 25 is zero. *)
Lemma X25_witness :
  rd (peek_frame small_configuration channel_waiting
        (ChannelScaleData_new 32 32)) 3 = 1%R /\
  rd (peek_frame small_configuration channel_waiting
        (ChannelScaleData_new 32 32)) 25 = 0%R.
Proof.
  destruct (X25_peek_frame small_configuration channel_waiting
              (ChannelScaleData_new 32 32)) as (_ & Hhead & Hpad & _).
  split.
  - rewrite Hhead; [reflexivity | vm_compute; split; discriminate || reflexivity
                   | vm_compute; reflexivity].
  - apply Hpad; [lia | vm_compute; split; discriminate || reflexivity].
Defined.


(** ** Offline calls on a realtime engine *)

Section RealTimeRefusals.

Lemma offline_only_refused (call : Call) (s : R3Stretcher) :
  is_offline_only call = true -> isRealTime s = true ->
  exists e, do_call call s = Fin (set_m_log (m_log s ++ [e]) s) /\
            severity e = 0.
Proof.
  intros Hc Hrt.
  destruct call; try discriminate Hc; cbn [do_call];
    unfold setKeyFrameMap, study; rewrite Hrt;
    eexists; (split; [reflexivity | reflexivity]).
Qed.

(** X26: a realtime engine takes neither a study pass nor a key-frame
    map, whatever its mode: every call of [study] or [setKeyFrameMap]
    returns, adds one message of severity 0 to the log and changes
    nothing else, so the study duration stays 0 and the map empty if
    they were. *)
Theorem X26_realtime_refuses (calls : list Call) :
  forall s : R3Stretcher,
    isRealTime s = true ->
    forallb is_offline_only calls = true ->
    exists s' entries,
      do_calls calls s = Fin s' /\
      s' = set_m_log (m_log s ++ entries) s /\
      length entries = length calls /\
      Forall (fun e => severity e = 0) entries.
Proof.
  induction calls as [| call rest IH]; intros s Hrt Hall.
  - exists s, []. cbn [do_calls]. split; [reflexivity |].
    split; [rewrite app_nil_r; destruct s; reflexivity |].
    split; [reflexivity | constructor].
  - cbn [forallb] in Hall. apply andb_prop in Hall as [Hc Hrest].
    destruct (offline_only_refused call s Hc Hrt) as (e & He & Hsev).
    cbn [do_calls]. rewrite He. cbn [bind].
    destruct (IH (set_m_log (m_log s ++ [e]) s) Hrt Hrest)
      as (s' & entries & Hd & Hs' & Hlen & Hf).
    exists s', (e :: entries). split; [exact Hd |].
    split.
    + rewrite Hs'. cbn [m_log set_m_log]. rewrite <- app_assoc. reflexivity.
    + split; [cbn [length]; congruence | constructor; assumption].
Qed.

End RealTimeRefusals.

(** X26 on [engine_realtime]. *)
Lemma X26_witness :
  exists s',
    do_calls [CallStudy 100; CallSetKeyFrameMap [(1, 2)]] engine_realtime
    = Fin s' /\
    m_mode s' = JustCreated /\ m_studyInputDuration s' = 0 /\
    m_keyFrameMap s' = [].
Proof.
  destruct (X26_realtime_refuses
              [CallStudy 100; CallSetKeyFrameMap [(1, 2)]]
              engine_realtime eq_refl eq_refl)
    as (s' & entries & Hd & Hs' & _ & _).
  exists s'. split; [exact Hd |]. rewrite Hs'.
  repeat split; reflexivity.
Defined.
